(** * Recipe API: ownership-scoped queries and attribute reconciliation

    A shallow embedding of the recipe application's views and serializers
    ([recipe/views.py], [recipe/serializers.py], [user/serializers.py]).
    The relational store is a record of tables (lists of rows with an
    auto-increment counter) and of many-to-many through tables (lists of
    id pairs).  Code that raises is written in a state-and-exception monad
    in which the store survives an exception, as it does under autocommit. *)

From Stdlib Require Import ZArith Ascii String.
From stdpp Require Import base list strings sorting.

Local Open Scope Z_scope.

(** ** Python built-ins used by the views *)

Module Py.

(** [str.split(sep)] for a one-character separator: never returns an
    empty list, and keeps empty tokens. *)
Fixpoint split (sep : ascii) (s : string) : list string :=
  match s with
  | EmptyString => [EmptyString]
  | String c s' =>
      if Ascii.eqb c sep then EmptyString :: split sep s'
      else match split sep s' with
           | tok :: rest => String c tok :: rest
           | [] => [String c EmptyString]
           end
  end.

(** The characters [int] skips around a literal: tab, line feed,
    vertical tab, form feed, carriage return and space.  The strings
    of the model are ASCII text. *)
Definition is_space (c : ascii) : bool :=
  let n := Z.of_nat (nat_of_ascii c) in
  ((9 <=? n) && (n <=? 13)) || (n =? 32).

Definition is_digit (c : ascii) : bool :=
  let n := Z.of_nat (nat_of_ascii c) in
  (48 <=? n) && (n <=? 57).

Definition digit_value (c : ascii) : Z := Z.of_nat (nat_of_ascii c) - 48.

Definition is_underscore (c : ascii) : bool := Ascii.eqb c "_"%char.

Fixpoint lstrip (cs : list ascii) : list ascii :=
  match cs with
  | c :: cs' => if is_space c then lstrip cs' else cs
  | [] => []
  end.

Definition strip (cs : list ascii) : list ascii :=
  reverse (lstrip (reverse (lstrip cs))).

(** The rest of a decimal literal, read after a digit: digits, each
    optionally preceded by one underscore. *)
Fixpoint int_digits (acc : Z) (cs : list ascii) : option Z :=
  match cs with
  | [] => Some acc
  | c :: cs' =>
      if is_digit c then int_digits (10 * acc + digit_value c) cs'
      else if is_underscore c then
        match cs' with
        | d :: cs'' =>
            if is_digit d then int_digits (10 * acc + digit_value d) cs''
            else None
        | [] => None
        end
      else None
  end.

Definition int_literal (cs : list ascii) : option Z :=
  match cs with
  | d :: cs' => if is_digit d then int_digits (digit_value d) cs' else None
  | [] => None
  end.

(** [int(s)] in base ten; [None] stands for [ValueError]. *)
Definition int (s : string) : option Z :=
  match strip (list_ascii_of_string s) with
  | c :: cs =>
      if Ascii.eqb c "-"%char then Z.opp <$> int_literal cs
      else if Ascii.eqb c "+"%char then int_literal cs
      else int_literal (c :: cs)
  | [] => None
  end.

(** [str.strip()] removes what [str.isspace] accepts, which in ASCII
    adds the four separators 28 to 31 to the characters above. *)
Definition is_whitespace (c : ascii) : bool :=
  let n := Z.of_nat (nat_of_ascii c) in
  is_space c || ((28 <=? n) && (n <=? 31)).

Fixpoint lstrip_ws (cs : list ascii) : list ascii :=
  match cs with
  | c :: cs' => if is_whitespace c then lstrip_ws cs' else cs
  | [] => []
  end.

Definition str_strip (s : string) : string :=
  string_of_list_ascii
    (reverse (lstrip_ws (reverse (lstrip_ws (list_ascii_of_string s))))).

Definition len (s : string) : Z := Z.of_nat (String.length s).

(** [str(n)] for an [int]: the decimal digits, after a minus sign when
    the number is negative.  The recursion is on a bound of the number of
    digits. *)
Definition digit_char (d : Z) : ascii := ascii_of_nat (Z.to_nat (48 + d)).

Fixpoint digits (fuel : nat) (n : Z) (acc : list ascii) : list ascii :=
  match fuel with
  | O => acc
  | S fuel' =>
      if n <? 10 then digit_char n :: acc
      else digits fuel' (n / 10) (digit_char (n mod 10) :: acc)
  end.

Definition str (n : Z) : string :=
  let ds := digits (S (Z.to_nat (Z.log2 (Z.abs n)))) (Z.abs n) [] in
  string_of_list_ascii (if n <? 0 then "-"%char :: ds else ds).

(** [sep.join(l)] *)
Fixpoint join (sep : string) (l : list string) : string :=
  match l with
  | [] => EmptyString
  | [x] => x
  | x :: l' => x +:+ sep +:+ join sep l'
  end.

(** Truthiness of a [str]. *)
Definition truthy (s : string) : bool :=
  match s with EmptyString => false | _ => true end.

End Py.

(** ** Exceptions and the store monad *)

Inductive exn :=
| ValueError
| MultipleObjectsReturned
| Http404
| NotAuthenticated
| PermissionDenied
| MethodNotAllowed
| ValidationError.

Inductive result (A : Type) :=
| Ok (a : A)
| Raise (e : exn).
Arguments Ok {A} a.
Arguments Raise {A} e.

Definition is_ok {A} (r : result A) : bool :=
  match r with Ok _ => true | Raise _ => false end.

(** ** Models *)

(** Modelled from the spec: [core/models.py] is not part of the sources.
    The password of a user is stored hashed and never exposed. *)
Inductive PasswordHash := Hashed (raw : string).

Module User.
(** Modelled from the spec: the User of [core/models.py], with a unique
    email (the identity key), a name and a hashed password. *)
Record t := { id : Z; email : string; password : PasswordHash; name : string }.
End User.

Module Recipe.
(** Modelled from the spec: the Recipe of [core/models.py], owned by
    exactly one user (referred to by primary key), with a title, a
    description, a time in minutes, a fixed-point price, an optional link
    and an optional image. *)
Record t := {
  id : Z;
  user : Z;
  title : string;
  description : string;
  time_minutes : Z;
  price : Z;                 (* in hundredths *)
  link : string;
  image : option string      (* name of the stored file *)
}.
End Recipe.

Module Attribute.
(** Modelled from the spec: the Tag and the Ingredient of
    [core/models.py], each owned by exactly one user and carrying a name.
    The two models have the same columns; [Attribute.t] is a row of
    either table. *)
Record t := { id : Z; user : Z; name : string }.
End Attribute.

Inductive AttrModel := Tag | Ingredient.

#[global] Instance PasswordHash_eq_dec : EqDecision PasswordHash.
Proof. solve_decision. Defined.
#[global] Instance User_eq_dec : EqDecision User.t.
Proof. solve_decision. Defined.
#[global] Instance Recipe_eq_dec : EqDecision Recipe.t.
Proof. solve_decision. Defined.
#[global] Instance Attribute_eq_dec : EqDecision Attribute.t.
Proof. solve_decision. Defined.
#[global] Instance AttrModel_eq_dec : EqDecision AttrModel.
Proof. solve_decision. Defined.
#[global] Instance exn_eq_dec : EqDecision exn.
Proof. solve_decision. Defined.

(** A table: its rows in insertion order and the next primary key. *)
Record Table (Row : Type) := { rows : list Row; next_id : Z }.
Arguments rows {Row} _.
Arguments next_id {Row} _.

(** The store.  [recipe_tags] and [recipe_ingredients] are the through
    tables of the two many-to-many fields: pairs (recipe id, attribute id). *)
Record DB := {
  users : Table User.t;
  recipes : Table Recipe.t;
  tags : Table Attribute.t;
  ingredients : Table Attribute.t;
  recipe_tags : list (Z * Z);
  recipe_ingredients : list (Z * Z)
}.

Definition M (A : Type) : Type := DB -> result A * DB.

Definition ret {A} (a : A) : M A := fun s => (Ok a, s).
Definition raise {A} (e : exn) : M A := fun s => (Raise e, s).
Definition bind {A B} (m : M A) (k : A -> M B) : M B :=
  fun s => match m s with
           | (Ok a, s') => k a s'
           | (Raise e, s') => (Raise e, s')
           end.
Definition get : M DB := fun s => (Ok s, s).
Definition modify (f : DB -> DB) : M unit := fun s => (Ok tt, f s).
Definition lift {A} (r : result A) : M A := fun s => (r, s).

Notation "'let*' x ':=' m 'in' k" := (bind m (fun x => k))
  (at level 10, x pattern, m at level 100, k at level 200).
Notation "m ';;' k" := (bind m (fun _ => k))
  (at level 100, k at level 200, right associativity).

Definition rbind {A B} (r : result A) (k : A -> result B) : result B :=
  match r with Ok a => k a | Raise e => Raise e end.
Notation "'let?' x ':=' r 'in' k" := (rbind r (fun x => k))
  (at level 10, x pattern, r at level 100, k at level 200).

(** [for x in l: body] *)
Fixpoint for_each {A} (l : list A) (body : A -> M unit) : M unit :=
  match l with
  | [] => ret tt
  | x :: l' => body x ;; for_each l' body
  end.

(** ** The object-relational layer

    What the managers, querysets and related managers used by the
    application do to the store. *)

Module Orm.

Definition objects (m : AttrModel) (s : DB) : Table Attribute.t :=
  match m with Tag => tags s | Ingredient => ingredients s end.

Definition set_objects (m : AttrModel) (t : Table Attribute.t) (s : DB) : DB :=
  match m with
  | Tag =>
      {| users := users s; recipes := recipes s; tags := t;
         ingredients := ingredients s; recipe_tags := recipe_tags s;
         recipe_ingredients := recipe_ingredients s |}
  | Ingredient =>
      {| users := users s; recipes := recipes s; tags := tags s;
         ingredients := t; recipe_tags := recipe_tags s;
         recipe_ingredients := recipe_ingredients s |}
  end.

(** The through table of [recipe.tags] or [recipe.ingredients]. *)
Definition through (m : AttrModel) (s : DB) : list (Z * Z) :=
  match m with Tag => recipe_tags s | Ingredient => recipe_ingredients s end.

Definition set_through (m : AttrModel) (l : list (Z * Z)) (s : DB) : DB :=
  match m with
  | Tag =>
      {| users := users s; recipes := recipes s; tags := tags s;
         ingredients := ingredients s; recipe_tags := l;
         recipe_ingredients := recipe_ingredients s |}
  | Ingredient =>
      {| users := users s; recipes := recipes s; tags := tags s;
         ingredients := ingredients s; recipe_tags := recipe_tags s;
         recipe_ingredients := l |}
  end.

Definition set_recipes (t : Table Recipe.t) (s : DB) : DB :=
  {| users := users s; recipes := t; tags := tags s;
     ingredients := ingredients s; recipe_tags := recipe_tags s;
     recipe_ingredients := recipe_ingredients s |}.

Definition set_users (t : Table User.t) (s : DB) : DB :=
  {| users := t; recipes := recipes s; tags := tags s;
     ingredients := ingredients s; recipe_tags := recipe_tags s;
     recipe_ingredients := recipe_ingredients s |}.

(** [INSERT]: the row takes the next primary key. *)
Definition insert {Row} (mk : Z -> Row) (t : Table Row) : Row * Table Row :=
  let row := mk (next_id t) in
  (row, {| rows := rows t ++ [row]; next_id := next_id t + 1 |}).

(** The lookup of [Model.objects.get(user=user, name=name)]. *)
Definition matching (user : Z) (name : string) (l : list Attribute.t)
  : list Attribute.t :=
  filter (fun t => Attribute.user t = user /\ Attribute.name t = name) l.

(** [Model.objects.get_or_create(user=user, name=name)]: [get] returns
    the single matching row, raises [MultipleObjectsReturned] when
    several match, and only [DoesNotExist] leads to [create]. *)
Definition get_or_create (m : AttrModel) (user : Z) (name : string)
  : M (Attribute.t * bool) :=
  fun s =>
    match matching user name (rows (objects m s)) with
    | [t] => (Ok (t, false), s)
    | [] =>
        let '(t, tbl) :=
          insert (fun i => {| Attribute.id := i; Attribute.user := user;
                              Attribute.name := name |}) (objects m s) in
        (Ok (t, true), set_objects m tbl s)
    | _ :: _ :: _ => (Raise MultipleObjectsReturned, s)
    end.

(** [recipe.<field>.add(obj)]: inserts the pair unless it is there. *)
Definition link (m : AttrModel) (recipe_id attr_id : Z) (s : DB) : DB :=
  if decide ((recipe_id, attr_id) ∈ through m s) then s
  else set_through m (through m s ++ [(recipe_id, attr_id)]) s.

Definition add (m : AttrModel) (recipe_id attr_id : Z) : M unit :=
  modify (link m recipe_id attr_id).

(** [recipe.<field>.clear()] *)
Definition cleared (m : AttrModel) (recipe_id : Z) (s : DB) : DB :=
  set_through m (filter (fun p => p.1 <> recipe_id) (through m s)) s.

Definition clear (m : AttrModel) (recipe_id : Z) : M unit :=
  modify (cleared m recipe_id).

(** [recipe.<field>.all()] *)
Definition related (m : AttrModel) (recipe_id : Z) (s : DB) : list Attribute.t :=
  filter (fun t => (recipe_id, Attribute.id t) ∈ through m s) (rows (objects m s)).

(** [instance.save()] of a row that is in its table: [UPDATE ... WHERE id]. *)
Definition saved_recipe (r : Recipe.t) (s : DB) : DB :=
  set_recipes
    {| rows := (fun x => if decide (Recipe.id x = Recipe.id r) then r else x)
                 <$> rows (recipes s);
       next_id := next_id (recipes s) |} s.

Definition save_recipe (r : Recipe.t) : M unit := modify (saved_recipe r).

Definition saved_attr (m : AttrModel) (a : Attribute.t) (s : DB) : DB :=
  set_objects m
    {| rows := (fun x => if decide (Attribute.id x = Attribute.id a) then a else x)
                 <$> rows (objects m s);
       next_id := next_id (objects m s) |} s.

Definition save_attr (m : AttrModel) (a : Attribute.t) : M unit :=
  modify (saved_attr m a).

Definition saved_user (u : User.t) (s : DB) : DB :=
  set_users
    {| rows := (fun x => if decide (User.id x = User.id u) then u else x)
                 <$> rows (users s);
       next_id := next_id (users s) |} s.

Definition save_user (u : User.t) : M unit := modify (saved_user u).

(** [instance.delete()]: the row goes, and with it its through rows. *)
Definition deleted_recipe (r : Recipe.t) (s : DB) : DB :=
  let s := cleared Ingredient (Recipe.id r) (cleared Tag (Recipe.id r) s) in
  set_recipes
    {| rows := filter (fun x => Recipe.id x <> Recipe.id r) (rows (recipes s));
       next_id := next_id (recipes s) |} s.

Definition delete_recipe (r : Recipe.t) : M unit := modify (deleted_recipe r).

Definition deleted_attr (m : AttrModel) (a : Attribute.t) (s : DB) : DB :=
  let s := set_through m
             (filter (fun p => p.2 <> Attribute.id a) (through m s)) s in
  set_objects m
    {| rows := filter (fun x => Attribute.id x <> Attribute.id a)
                 (rows (objects m s));
       next_id := next_id (objects m s) |} s.

Definition delete_attr (m : AttrModel) (a : Attribute.t) : M unit :=
  modify (deleted_attr m a).

(** *** Querysets: lists of result rows, repeated as the joins repeat them *)

(** [qs.filter(<field>__id__in=ids)] on recipes: the join with the
    through table yields a recipe once for every matching pair. *)
Definition filter_related_id_in (m : AttrModel) (ids : list Z) (s : DB)
    (qs : list Recipe.t) : list Recipe.t :=
  r ← qs;
  p ← through m s;
  if decide (p.1 = Recipe.id r /\ p.2 ∈ ids) then [r] else [].

(** [qs.filter(recipe__isnull=False)] on tags or ingredients: the join
    with the through table yields an attribute once for every recipe
    it is assigned to. *)
Definition filter_recipe_notnull (m : AttrModel) (s : DB)
    (qs : list Attribute.t) : list Attribute.t :=
  a ← qs;
  p ← through m s;
  if decide (p.2 = Attribute.id a) then [a] else [].

(** [qs.distinct()] *)
Definition distinct {Row} `{EqDecision Row} (qs : list Row) : list Row :=
  remove_dups qs.

(** [qs.order_by('-id')] *)
Definition id_desc (a b : Recipe.t) : Prop := Recipe.id b <= Recipe.id a.
#[global] Instance id_desc_dec : RelDecision id_desc.
Proof. intros a b. unfold id_desc. apply _. Defined.
Definition order_by_id_desc (qs : list Recipe.t) : list Recipe.t :=
  merge_sort id_desc qs.

(** [qs.order_by('name')]; the order among rows of equal name, which
    the database leaves open, is the one the merge gives. *)
Definition name_asc (a b : Attribute.t) : Prop :=
  String.le (Attribute.name a) (Attribute.name b).
#[global] Instance name_asc_dec : RelDecision name_asc.
Proof. intros a b. unfold name_asc. apply _. Defined.
Definition order_by_name (qs : list Attribute.t) : list Attribute.t :=
  merge_sort name_asc qs.

End Orm.

(** ** Requests, responses and the framework's generic machinery *)

(** What a serializer makes of [request.data]: field errors, or the
    validated data.  The field validators come from column declarations
    that are not in the sources, so a request carries their verdict. *)
Inductive Payload (A : Type) :=
| Invalid
| Valid (validated_data : A).
Arguments Invalid {A}.
Arguments Valid {A} validated_data.

(** Validated data of a nested [TagSerializer] or [IngredientSerializer]
    item: [{'name': ...}]. *)
Record AttrItem := { item_name : string }.

#[global] Instance AttrItem_eq_dec : EqDecision AttrItem.
Proof. solve_decision. Defined.

(** Validated data of [RecipeDetailSerializer]: every key may be absent. *)
Record RecipeData := {
  v_title : option string;
  v_description : option string;
  v_time_minutes : option Z;
  v_price : option Z;
  v_link : option string;
  v_image : option (option string);
  v_tags : option (list AttrItem);
  v_ingredients : option (list AttrItem)
}.

(** Validated data of [RecipeImageSerializer]: the stored file, or null. *)
Record ImageData := { v_image_file : option string }.

(** Validated data of a top-level [TagSerializer] or [IngredientSerializer]. *)
Record AttrData := { v_name : option string }.

(** [serializer.data] *)
Record AttrRepr := { repr_id : Z; repr_name : string }.

Record RecipeRepr := {
  repr_recipe_id : Z;
  repr_title : string;
  repr_time_minutes : Z;
  repr_price : Z;
  repr_link : string;
  repr_tags : list AttrRepr;
  repr_ingredients : list AttrRepr
}.

Record RecipeDetailRepr := {
  repr_base : RecipeRepr;
  repr_description : string;
  repr_image : option string
}.

#[global] Instance AttrRepr_eq_dec : EqDecision AttrRepr.
Proof. solve_decision. Defined.
#[global] Instance RecipeRepr_eq_dec : EqDecision RecipeRepr.
Proof. solve_decision. Defined.

(** A value of a response dictionary. *)
Inductive Value :=
| Str (v : string)
| Secret (h : PasswordHash).

Inductive Body :=
| NoData
| ErrorData
| RecipeListData (l : list RecipeRepr)
| RecipeDetailData (d : RecipeDetailRepr)
| RecipeImageData (id : Z) (image : option string)
| AttrListData (l : list AttrRepr)
| AttrDetailData (a : AttrRepr)
| DictData (l : list (string * Value)).

Record Response := { data : Body; status : Z }.

Definition HTTP_200_OK : Z := 200.
Definition HTTP_201_CREATED : Z := 201.
Definition HTTP_204_NO_CONTENT : Z := 204.
Definition HTTP_400_BAD_REQUEST : Z := 400.
Definition HTTP_401_UNAUTHORIZED : Z := 401.
Definition HTTP_403_FORBIDDEN : Z := 403.
Definition HTTP_404_NOT_FOUND : Z := 404.
Definition HTTP_405_METHOD_NOT_ALLOWED : Z := 405.
Definition HTTP_500_INTERNAL_SERVER_ERROR : Z := 500.

(** A request: the authenticated user (if the token names one), the
    query string as key-value pairs, and the call. *)
Record Request (Call : Type) := {
  user : option Z;
  query_params : list (string * string);
  call : Call
}.
Arguments user {Call} _.
Arguments query_params {Call} _.
Arguments call {Call} _.

Module Drf.

(** [QueryDict.get(key)]: the last value given for the key. *)
Definition query_get (key : string) (qp : list (string * string)) : option string :=
  last (snd <$> filter (fun kv => kv.1 = key) qp).

(** [get_object_or_404(queryset, pk=pk)] *)
Definition get_object_or_404 {Row} (pk_of : Row -> Z) (queryset : list Row)
    (pk : Z) : result Row :=
  match filter (fun r => pk_of r = pk) queryset with
  | [r] => Ok r
  | [] => Raise Http404
  | _ :: _ :: _ => Raise MultipleObjectsReturned
  end.

(** The exception handler answers the framework's own exceptions and
    [Http404]; any other exception leaves the view unhandled and the
    request ends as a server error. *)
Definition handle_exception (e : exn) : Response :=
  match e with
  | NotAuthenticated => {| data := ErrorData; status := HTTP_401_UNAUTHORIZED |}
  | PermissionDenied => {| data := ErrorData; status := HTTP_403_FORBIDDEN |}
  | Http404 => {| data := ErrorData; status := HTTP_404_NOT_FOUND |}
  | MethodNotAllowed => {| data := ErrorData; status := HTTP_405_METHOD_NOT_ALLOWED |}
  | ValidationError => {| data := ErrorData; status := HTTP_400_BAD_REQUEST |}
  | ValueError | MultipleObjectsReturned =>
      {| data := ErrorData; status := HTTP_500_INTERNAL_SERVER_ERROR |}
  end.

(** [APIView.dispatch] with [TokenAuthentication] and [IsAuthenticated]:
    a request without a user is refused before any handler runs. *)
Definition dispatch {Call} (handler : Z -> list (string * string) -> Call -> M Response)
    (request : Request Call) : DB -> Response * DB :=
  fun s =>
    match user request with
    | None => (handle_exception NotAuthenticated, s)
    | Some u =>
        match handler u (query_params request) (call request) s with
        | (Ok response, s') => (response, s')
        | (Raise e, s') => (handle_exception e, s')
        end
    end.

End Drf.

(** ** recipe/serializers.py *)

Module AttrSerializer.

(** [TagSerializer] and [IngredientSerializer]: fields [id] and [name]. *)
Definition to_representation (a : Attribute.t) : AttrRepr :=
  {| repr_id := Attribute.id a; repr_name := Attribute.name a |}.

(** [ModelSerializer.update]: set the validated attributes, then save. *)
Definition update (m : AttrModel) (instance : Attribute.t)
    (validated_data : AttrData) : M Attribute.t :=
  let instance :=
    {| Attribute.id := Attribute.id instance;
       Attribute.user := Attribute.user instance;
       Attribute.name := default (Attribute.name instance) (v_name validated_data) |} in
  Orm.save_attr m instance ;;
  ret instance.

End AttrSerializer.

Module RecipeSerializer.

Definition _get_or_create_tags (auth_user : Z) (tags : list AttrItem)
    (recipe : Recipe.t) : M unit :=
  for_each tags (fun item =>
    let* found := Orm.get_or_create Tag auth_user (item_name item) in
    let tag := found.1 in
    Orm.add Tag (Recipe.id recipe) (Attribute.id tag)).

Definition _get_or_create_ingredients (auth_user : Z)
    (ingredients : list AttrItem) (recipe : Recipe.t) : M unit :=
  for_each ingredients (fun item =>
    let* found := Orm.get_or_create Ingredient auth_user (item_name item) in
    let ingredient := found.1 in
    Orm.add Ingredient (Recipe.id recipe) (Attribute.id ingredient)).

(** Modelled from the spec: the row that [Recipe.objects.create] builds
    from the validated data; the column defaults of [core/models.py] are
    not in the sources, and a key that is absent leaves its column empty. *)
Definition new_recipe (user : Z) (validated_data : RecipeData) (i : Z) : Recipe.t :=
  {| Recipe.id := i;
     Recipe.user := user;
     Recipe.title := default EmptyString (v_title validated_data);
     Recipe.description := default EmptyString (v_description validated_data);
     Recipe.time_minutes := default 0 (v_time_minutes validated_data);
     Recipe.price := default 0 (v_price validated_data);
     Recipe.link := default EmptyString (v_link validated_data);
     Recipe.image := default None (v_image validated_data) |}.

Definition objects_create (user : Z) (validated_data : RecipeData) : M Recipe.t :=
  fun s =>
    let '(recipe, tbl) := Orm.insert (new_recipe user validated_data) (recipes s) in
    (Ok recipe, Orm.set_recipes tbl s).

(** [create(validated_data)]; [user] is the key that
    [serializer.save(user=...)] merges into the validated data. *)
Definition create (auth_user : Z) (user : Z) (validated_data : RecipeData)
  : M Recipe.t :=
  let tags := default [] (v_tags validated_data) in
  let ingredients := default [] (v_ingredients validated_data) in
  let* recipe := objects_create user validated_data in
  _get_or_create_tags auth_user tags recipe ;;
  _get_or_create_ingredients auth_user ingredients recipe ;;
  ret recipe.

(** [for attr, value in validated_data.items(): setattr(instance, attr, value)] *)
Definition setattrs (instance : Recipe.t) (validated_data : RecipeData) : Recipe.t :=
  {| Recipe.id := Recipe.id instance;
     Recipe.user := Recipe.user instance;
     Recipe.title := default (Recipe.title instance) (v_title validated_data);
     Recipe.description :=
       default (Recipe.description instance) (v_description validated_data);
     Recipe.time_minutes :=
       default (Recipe.time_minutes instance) (v_time_minutes validated_data);
     Recipe.price := default (Recipe.price instance) (v_price validated_data);
     Recipe.link := default (Recipe.link instance) (v_link validated_data);
     Recipe.image := default (Recipe.image instance) (v_image validated_data) |}.

Definition update (auth_user : Z) (instance : Recipe.t)
    (validated_data : RecipeData) : M Recipe.t :=
  let tags := v_tags validated_data in
  let ingredients := v_ingredients validated_data in
  match tags with
  | Some tags =>
      Orm.clear Tag (Recipe.id instance) ;;
      _get_or_create_tags auth_user tags instance
  | None => ret tt
  end ;;
  match ingredients with
  | Some ingredients =>
      Orm.clear Ingredient (Recipe.id instance) ;;
      _get_or_create_ingredients auth_user ingredients instance
  | None => ret tt
  end ;;
  let instance := setattrs instance validated_data in
  Orm.save_recipe instance ;;
  ret instance.

Definition to_representation (s : DB) (r : Recipe.t) : RecipeRepr :=
  {| repr_recipe_id := Recipe.id r;
     repr_title := Recipe.title r;
     repr_time_minutes := Recipe.time_minutes r;
     repr_price := Recipe.price r;
     repr_link := Recipe.link r;
     repr_tags :=
       AttrSerializer.to_representation <$> Orm.related Tag (Recipe.id r) s;
     repr_ingredients :=
       AttrSerializer.to_representation <$> Orm.related Ingredient (Recipe.id r) s |}.

End RecipeSerializer.

Module RecipeDetailSerializer.

Definition to_representation (s : DB) (r : Recipe.t) : RecipeDetailRepr :=
  {| repr_base := RecipeSerializer.to_representation s r;
     repr_description := Recipe.description r;
     repr_image := Recipe.image r |}.

End RecipeDetailSerializer.

Module RecipeImageSerializer.

(** [ModelSerializer.update] with the one writable field, [image]. *)
Definition update (instance : Recipe.t) (validated_data : ImageData) : M Recipe.t :=
  let instance :=
    {| Recipe.id := Recipe.id instance;
       Recipe.user := Recipe.user instance;
       Recipe.title := Recipe.title instance;
       Recipe.description := Recipe.description instance;
       Recipe.time_minutes := Recipe.time_minutes instance;
       Recipe.price := Recipe.price instance;
       Recipe.link := Recipe.link instance;
       Recipe.image := v_image_file validated_data |} in
  Orm.save_recipe instance ;;
  ret instance.

Definition to_representation (r : Recipe.t) : Body :=
  RecipeImageData (Recipe.id r) (Recipe.image r).

End RecipeImageSerializer.

(** ** recipe/views.py *)

Module RecipeViewSet.

(** The calls the router binds for a [ModelViewSet] with the extra
    [upload-image] action; [Unbound] is any other method on a route. *)
Inductive Call :=
| GetList
| PostList (data : Payload RecipeData)
| GetDetail (pk : Z)
| PutDetail (pk : Z) (data : Payload RecipeData)
| PatchDetail (pk : Z) (data : Payload RecipeData)
| DeleteDetail (pk : Z)
| PostUploadImage (pk : Z) (data : Payload ImageData)
| Unbound.

(** [[int(str_id) for str_id in ...]] *)
Fixpoint ints (tokens : list string) : result (list Z) :=
  match tokens with
  | [] => Ok []
  | str_id :: rest =>
      match Py.int str_id with
      | Some n => let? ns := ints rest in Ok (n :: ns)
      | None => Raise ValueError
      end
  end.

Definition _params_to_ints (params : string) : result (list Z) :=
  ints (Py.split ","%char params).

Definition get_queryset (request_user : Z) (query_params : list (string * string))
    (s : DB) : result (list Recipe.t) :=
  let queryset := rows (recipes s) in
  let tags_param := Drf.query_get "tags" query_params in
  let ingredients_param := Drf.query_get "ingredients" query_params in
  let? queryset :=
    match tags_param with
    | Some tags_param =>
        if Py.truthy tags_param then
          let? tag_ids := _params_to_ints tags_param in
          Ok (Orm.filter_related_id_in Tag tag_ids s queryset)
        else Ok queryset
    | None => Ok queryset
    end in
  let? queryset :=
    match ingredients_param with
    | Some ingredients_param =>
        if Py.truthy ingredients_param then
          let? ingredient_ids := _params_to_ints ingredients_param in
          Ok (Orm.filter_related_id_in Ingredient ingredient_ids s queryset)
        else Ok queryset
    | None => Ok queryset
    end in
  let user_recipes :=
    Orm.distinct (filter (fun r => Recipe.user r = request_user) queryset) in
  Ok (Orm.order_by_id_desc user_recipes).

(** [GenericAPIView.get_object] *)
Definition get_object (request_user : Z) (query_params : list (string * string))
    (pk : Z) : M Recipe.t :=
  let* s := get in
  let* queryset := lift (get_queryset request_user query_params s) in
  lift (Drf.get_object_or_404 Recipe.id queryset pk).

(** [ListModelMixin.list], with [RecipeSerializer] *)
Definition list_ (request_user : Z) (query_params : list (string * string))
  : M Response :=
  let* s := get in
  let* queryset := lift (get_queryset request_user query_params s) in
  ret {| data := RecipeListData (RecipeSerializer.to_representation s <$> queryset);
         status := HTTP_200_OK |}.

(** [RetrieveModelMixin.retrieve] *)
Definition retrieve (request_user : Z) (query_params : list (string * string))
    (pk : Z) : M Response :=
  let* instance := get_object request_user query_params pk in
  let* s := get in
  ret {| data := RecipeDetailData (RecipeDetailSerializer.to_representation s instance);
         status := HTTP_200_OK |}.

Definition perform_create (request_user : Z) (validated_data : RecipeData)
  : M Recipe.t :=
  RecipeSerializer.create request_user request_user validated_data.

(** [CreateModelMixin.create] *)
Definition create (request_user : Z) (data : Payload RecipeData) : M Response :=
  match data with
  | Invalid => raise ValidationError
  | Valid validated_data =>
      let* recipe := perform_create request_user validated_data in
      let* s := get in
      ret {| data := RecipeDetailData (RecipeDetailSerializer.to_representation s recipe);
             status := HTTP_201_CREATED |}
  end.

(** [UpdateModelMixin.update] and [partial_update] *)
Definition update (request_user : Z) (query_params : list (string * string))
    (pk : Z) (data : Payload RecipeData) : M Response :=
  let* instance := get_object request_user query_params pk in
  match data with
  | Invalid => raise ValidationError
  | Valid validated_data =>
      let* instance := RecipeSerializer.update request_user instance validated_data in
      let* s := get in
      ret {| data := RecipeDetailData (RecipeDetailSerializer.to_representation s instance);
             status := HTTP_200_OK |}
  end.

(** [DestroyModelMixin.destroy] *)
Definition destroy (request_user : Z) (query_params : list (string * string))
    (pk : Z) : M Response :=
  let* instance := get_object request_user query_params pk in
  Orm.delete_recipe instance ;;
  ret {| data := NoData; status := HTTP_204_NO_CONTENT |}.

Definition upload_image (request_user : Z) (query_params : list (string * string))
    (pk : Z) (data : Payload ImageData) : M Response :=
  let* recipe := get_object request_user query_params pk in
  match data with
  | Valid validated_data =>
      let* recipe := RecipeImageSerializer.update recipe validated_data in
      ret {| data := RecipeImageSerializer.to_representation recipe;
             status := HTTP_200_OK |}
  | Invalid => ret {| data := ErrorData; status := HTTP_400_BAD_REQUEST |}
  end.

Definition handler (request_user : Z) (query_params : list (string * string))
    (c : Call) : M Response :=
  match c with
  | GetList => list_ request_user query_params
  | PostList data => create request_user data
  | GetDetail pk => retrieve request_user query_params pk
  | PutDetail pk data => update request_user query_params pk data
  | PatchDetail pk data => update request_user query_params pk data
  | DeleteDetail pk => destroy request_user query_params pk
  | PostUploadImage pk data => upload_image request_user query_params pk data
  | Unbound => raise MethodNotAllowed
  end.

Definition view (request : Request Call) : DB -> Response * DB :=
  Drf.dispatch handler request.

End RecipeViewSet.

(** [TagViewSet] and [IngredientViewSet] are [BaseRecipeAttributesViewSet]
    with [queryset] set to the objects of the model [m]. *)
Module BaseRecipeAttributesViewSet.

(** The viewset mixes in list, update and destroy only: the router
    binds no handler to GET on the detail route nor to POST on the list
    route. *)
Inductive Call :=
| GetList
| PostList (data : Payload AttrData)
| GetDetail (pk : Z)
| PutDetail (pk : Z) (data : Payload AttrData)
| PatchDetail (pk : Z) (data : Payload AttrData)
| DeleteDetail (pk : Z).

Definition get_queryset (m : AttrModel) (request_user : Z)
    (query_params : list (string * string)) (s : DB) : result (list Attribute.t) :=
  let? n :=
    match Drf.query_get "assigned_only" query_params with
    | Some v => match Py.int v with Some n => Ok n | None => Raise ValueError end
    | None => Ok 0
    end in
  let assigned_only := negb (n =? 0) in
  let queryset := rows (Orm.objects m s) in
  let queryset :=
    if assigned_only then Orm.filter_recipe_notnull m s queryset else queryset in
  let user_items :=
    Orm.distinct (filter (fun a => Attribute.user a = request_user) queryset) in
  Ok (Orm.order_by_name user_items).

(** Defined by the source, though no route reaches it. *)
Definition perform_create (m : AttrModel) (request_user : Z) (name : string)
  : M Attribute.t :=
  fun s =>
    let '(a, tbl) :=
      Orm.insert (fun i => {| Attribute.id := i; Attribute.user := request_user;
                              Attribute.name := name |}) (Orm.objects m s) in
    (Ok a, Orm.set_objects m tbl s).

Definition get_object (m : AttrModel) (request_user : Z)
    (query_params : list (string * string)) (pk : Z) : M Attribute.t :=
  let* s := get in
  let* queryset := lift (get_queryset m request_user query_params s) in
  lift (Drf.get_object_or_404 Attribute.id queryset pk).

Definition list_ (m : AttrModel) (request_user : Z)
    (query_params : list (string * string)) : M Response :=
  let* s := get in
  let* queryset := lift (get_queryset m request_user query_params s) in
  ret {| data := AttrListData (AttrSerializer.to_representation <$> queryset);
         status := HTTP_200_OK |}.

Definition update (m : AttrModel) (request_user : Z)
    (query_params : list (string * string)) (pk : Z) (data : Payload AttrData)
  : M Response :=
  let* instance := get_object m request_user query_params pk in
  match data with
  | Invalid => raise ValidationError
  | Valid validated_data =>
      let* instance := AttrSerializer.update m instance validated_data in
      ret {| data := AttrDetailData (AttrSerializer.to_representation instance);
             status := HTTP_200_OK |}
  end.

Definition destroy (m : AttrModel) (request_user : Z)
    (query_params : list (string * string)) (pk : Z) : M Response :=
  let* instance := get_object m request_user query_params pk in
  Orm.delete_attr m instance ;;
  ret {| data := NoData; status := HTTP_204_NO_CONTENT |}.

Definition handler (m : AttrModel) (request_user : Z)
    (query_params : list (string * string)) (c : Call) : M Response :=
  match c with
  | GetList => list_ m request_user query_params
  | PutDetail pk data => update m request_user query_params pk data
  | PatchDetail pk data => update m request_user query_params pk data
  | DeleteDetail pk => destroy m request_user query_params pk
  | PostList _ | GetDetail _ => raise MethodNotAllowed
  end.

Definition view (m : AttrModel) (request : Request Call) : DB -> Response * DB :=
  Drf.dispatch (handler m) request.

End BaseRecipeAttributesViewSet.

Definition TagViewSet := BaseRecipeAttributesViewSet.view Tag.
Definition IngredientViewSet := BaseRecipeAttributesViewSet.view Ingredient.

(** ** user/serializers.py *)

Module UserSerializer.

(** [Meta.fields] and [Meta.extra_kwargs] *)
Definition fields : list string := ["email"; "password"; "name"]%string.

Definition write_only (field : string) : bool :=
  bool_decide (field = "password"%string).

Definition min_length (field : string) : option Z :=
  if decide (field = "password"%string) then Some 5 else None.

(** Modelled from the spec: the user model is not part of the sources.
    Its [password] column is that of Django's [AbstractBaseUser], 128
    characters long, and [ModelSerializer] gives the field built from a
    column the column's [max_length]. *)
Definition max_length (field : string) : option Z :=
  if decide (field = "password"%string) then Some 128 else None.

(** [ProhibitNullCharactersValidator], which every [CharField] carries. *)
Definition has_null_character (value : string) : bool :=
  existsb (Ascii.eqb Ascii.zero) (list_ascii_of_string value).

(** The submitted fields.  [email] and [name] are fields the serializer
    derives from the model, whose declaration is not in the sources:
    they come with the verdict of their validators, uniqueness aside.
    [password] is the raw value, if one was sent. *)
Record Input := {
  in_email : Payload string;
  in_password : option string;
  in_name : Payload string
}.

Record Validated := { v_email : string; v_password : string; v_name : string }.

(** A [CharField] with the serializer's keyword arguments: a missing
    value is an error; the value is trimmed; a blank value is an error;
    then the field's validators run on the trimmed value: the two length
    validators and the one that refuses null characters. *)
Definition run_validation (field : string) (raw : option string) : result string :=
  match raw with
  | None => Raise ValidationError
  | Some raw =>
      let value := Py.str_strip raw in
      if Py.truthy value then
        let too_long :=
          match max_length field with
          | Some n => n <? Py.len value
          | None => false
          end in
        let too_short :=
          match min_length field with
          | Some n => Py.len value <? n
          | None => false
          end in
        if too_long || too_short || has_null_character value
        then Raise ValidationError
        else Ok value
      else Raise ValidationError
  end.

(** Modelled from the spec: the model declares the email unique, which
    adds a uniqueness validator to the field. *)
Definition email_taken (email : string) (s : DB) : bool :=
  bool_decide (Exists (fun u => User.email u = email) (rows (users s))).

Definition is_valid (input : Input) (s : DB) : result Validated :=
  let email :=
    match in_email input with
    | Valid e => if email_taken e s then Raise ValidationError else Ok e
    | Invalid => Raise ValidationError
    end in
  let password := run_validation "password" (in_password input) in
  let name :=
    match in_name input with
    | Valid n => Ok n
    | Invalid => Raise ValidationError
    end in
  match email, password, name with
  | Ok e, Ok p, Ok n => Ok {| v_email := e; v_password := p; v_name := n |}
  | _, _, _ => Raise ValidationError
  end.

(** Modelled from the spec: the manager's [create_user] is not part of
    the sources; it stores a new user with the password hashed. *)
Definition create_user (email password name : string) : M User.t :=
  fun s =>
    let '(u, tbl) :=
      Orm.insert (fun i => {| User.id := i; User.email := email;
                              User.password := Hashed password;
                              User.name := name |}) (users s) in
    (Ok u, Orm.set_users tbl s).

Definition create (validated_data : Validated) : M User.t :=
  create_user (v_email validated_data) (v_password validated_data)
              (v_name validated_data).

Definition field_value (u : User.t) (field : string) : Value :=
  if decide (field = "email"%string) then Str (User.email u)
  else if decide (field = "name"%string) then Str (User.name u)
  else Secret (User.password u).

(** [serializer.data]: every declared field that is not write-only. *)
Definition to_representation (u : User.t) : list (string * Value) :=
  (fun f => (f, field_value u f)) <$> filter (fun f => write_only f = false) fields.

(** Validated data of an update of the profile: every key may be absent. *)
Record Patch := {
  p_email : option string;
  p_password : option string;
  p_name : option string
}.

(** [user.set_password(password)] *)
Definition set_password (u : User.t) (password : string) : User.t :=
  {| User.id := User.id u; User.email := User.email u;
     User.password := Hashed password; User.name := User.name u |}.

(** [update(instance, validated_data)]: the password is popped, the
    other keys are set and saved by [ModelSerializer.update], and a
    password that is given and not empty is then hashed and saved. *)
Definition update (instance : User.t) (validated_data : Patch) : M User.t :=
  let password := p_password validated_data in
  let user :=
    {| User.id := User.id instance;
       User.email := default (User.email instance) (p_email validated_data);
       User.password := User.password instance;
       User.name := default (User.name instance) (p_name validated_data) |} in
  Orm.save_user user ;;
  match password with
  | Some password =>
      if Py.truthy password then
        let user := set_password user password in
        Orm.save_user user ;;
        ret user
      else ret user
  | None => ret user
  end.

End UserSerializer.

Module CreateUserView.

(** Modelled from the spec: [user/views.py] is not part of the sources.
    [POST /user/create] needs no token, validates the submitted fields
    with [UserSerializer] and answers 201 with the serializer's data, or
    400 when validation fails. *)
Definition post (input : UserSerializer.Input) : DB -> Response * DB :=
  fun s =>
    match UserSerializer.is_valid input s with
    | Ok validated_data =>
        match UserSerializer.create validated_data s with
        | (Ok u, s') =>
            ({| data := DictData (UserSerializer.to_representation u);
                status := HTTP_201_CREATED |}, s')
        | (Raise e, s') => (Drf.handle_exception e, s')
        end
    | Raise e => (Drf.handle_exception e, s)
    end.

End CreateUserView.

(** ** Well-formed stores and the ownership invariant *)

(** What the database itself guarantees: primary keys are unique and
    below the table's counter, and a through row refers to rows that
    exist. *)
Definition table_wf {Row} (pk : Row -> Z) (t : Table Row) : Prop :=
  NoDup (pk <$> rows t) /\ Forall (fun r => pk r < next_id t) (rows t).

Definition through_wf (m : AttrModel) (s : DB) : Prop :=
  Forall (fun p =>
            p.1 ∈ (Recipe.id <$> rows (recipes s)) /\
            p.2 ∈ (Attribute.id <$> rows (Orm.objects m s)))
         (Orm.through m s).

Definition wf (s : DB) : Prop :=
  table_wf Recipe.id (recipes s) /\
  (forall m, table_wf Attribute.id (Orm.objects m s)) /\
  (forall m, through_wf m s).

(** Every tag and ingredient associated with a recipe has the recipe's owner. *)
Definition same_owner (s : DB) : Prop :=
  forall m r a,
    r ∈ rows (recipes s) -> a ∈ rows (Orm.objects m s) ->
    (Recipe.id r, Attribute.id a) ∈ Orm.through m s ->
    Attribute.user a = Recipe.user r.

Definition consistent (s : DB) : Prop := wf s /\ same_owner s.

(** The user owns a recipe of that id. *)
Definition owns (u recipe_id : Z) (s : DB) : Prop :=
  exists r, r ∈ rows (recipes s) /\ Recipe.id r = recipe_id /\ Recipe.user r = u.

(** The payload with later repetitions of an item dropped. *)
Fixpoint dedup_first {A} `{EqDecision A} (l : list A) : list A :=
  match l with
  | [] => []
  | x :: l' => x :: filter (fun y => y <> x) (dedup_first l')
  end.

(** The body of the two reconciliation loops, for either model. *)
Definition reconcile_item (m : AttrModel) (auth_user recipe_id : Z) (item : AttrItem)
  : M unit :=
  let* found := Orm.get_or_create m auth_user (item_name item) in
  Orm.add m recipe_id (Attribute.id found.1).

Definition reconcile (m : AttrModel) (auth_user : Z) (items : list AttrItem)
    (recipe_id : Z) : M unit :=
  for_each items (reconcile_item m auth_user recipe_id).

(** The attribute is settled for the recipe: exactly one row of the
    user carries the name, and the recipe is associated with it. *)
Definition settled (m : AttrModel) (auth_user recipe_id : Z) (name : string)
    (s : DB) : Prop :=
  exists t, Orm.matching auth_user name (rows (Orm.objects m s)) = [t] /\
            (recipe_id, Attribute.id t) ∈ Orm.through m s.

(** What a run over attributes of model [m] leaves alone. *)
Definition attr_frame (m : AttrModel) (s s' : DB) : Prop :=
  recipes s' = recipes s /\ users s' = users s /\
  forall m', m' <> m ->
    Orm.objects m' s' = Orm.objects m' s /\ Orm.through m' s' = Orm.through m' s.

(** The three ways one iteration of a reconciliation loop can go: the
    row is found, it is created, or the lookup is ambiguous. *)
Section ItemSpec.
Context (m : AttrModel) (u rid : Z).

Definition created (n : string) (s : DB) : Attribute.t :=
  {| Attribute.id := next_id (Orm.objects m s); Attribute.user := u;
     Attribute.name := n |}.

Definition grown (n : string) (s : DB) : DB :=
  Orm.set_objects m
    {| rows := rows (Orm.objects m s) ++ [created n s];
       next_id := next_id (Orm.objects m s) + 1 |} s.

Inductive item_spec (n : string) (s : DB) : result unit * DB -> Prop :=
| item_found t :
    Orm.matching u n (rows (Orm.objects m s)) = [t] ->
    item_spec n s (Ok tt, Orm.link m rid (Attribute.id t) s)
| item_created :
    Orm.matching u n (rows (Orm.objects m s)) = [] ->
    item_spec n s (Ok tt, Orm.link m rid (Attribute.id (created n s)) (grown n s))
| item_many t1 t2 l :
    Orm.matching u n (rows (Orm.objects m s)) = t1 :: t2 :: l ->
    item_spec n s (Raise MultipleObjectsReturned, s).
End ItemSpec.

(** The attribute rows that were there stay, in place, and so do the
    associations. *)
Definition extends (m : AttrModel) (s s' : DB) : Prop :=
  rows (Orm.objects m s) `prefix_of` rows (Orm.objects m s') /\
  forall p, p ∈ Orm.through m s -> p ∈ Orm.through m s'.

(** From [s] to [s'], the name was reconciled for the recipe: a row of
    the user with that name that was stored is the one row of that name
    afterwards and is associated; with no such row stored, one row of
    that name exists afterwards, it is new, and it is associated. *)
Definition reused_or_created (m : AttrModel) (auth_user recipe_id : Z)
    (name : string) (s s' : DB) : Prop :=
  (forall t, t ∈ rows (Orm.objects m s) ->
     Attribute.user t = auth_user -> Attribute.name t = name ->
     Orm.matching auth_user name (rows (Orm.objects m s')) = [t] /\
     (recipe_id, Attribute.id t) ∈ Orm.through m s') /\
  ((forall t, t ∈ rows (Orm.objects m s) ->
      ~ (Attribute.user t = auth_user /\ Attribute.name t = name)) ->
   exists t, Orm.matching auth_user name (rows (Orm.objects m s')) = [t] /\
             (t ∉ rows (Orm.objects m s)) /\
             (recipe_id, Attribute.id t) ∈ Orm.through m s').


(** The recipe's rows of a through table. *)
Definition associations (m : AttrModel) (recipe_id : Z) (s : DB) : list (Z * Z) :=
  filter (fun p => p.1 = recipe_id) (Orm.through m s).

(** No lookup of the payload is ambiguous in the store. *)
Definition unambiguous (m : AttrModel) (auth_user : Z) (items : list AttrItem)
    (s : DB) : Prop :=
  forall item, item ∈ items ->
    (length (Orm.matching auth_user (item_name item) (rows (Orm.objects m s))) <= 1)%nat.

(** The query parameters that the two [get_queryset] read are usable:
    absent, or (for the id lists) empty, or accepted by [int]. *)
Definition id_list_parses (param : option string) : bool :=
  match param with
  | Some v => if Py.truthy v then is_ok (RecipeViewSet._params_to_ints v) else true
  | None => true
  end.

Definition filters_parse (qp : list (string * string)) : bool :=
  id_list_parses (Drf.query_get "tags" qp) &&
  id_list_parses (Drf.query_get "ingredients" qp).

Definition assigned_only_parses (qp : list (string * string)) : bool :=
  match Drf.query_get "assigned_only" qp with
  | Some v => bool_decide (is_Some (Py.int v))
  | None => true
  end.

(** Some token of the comma-separated value is not an integer literal. *)
Definition has_non_numeric_token (v : string) : Prop :=
  Exists (fun tok => Py.int tok = None) (Py.split ","%char v).

Definition is_client_error (st : Z) : Prop := 400 <= st < 500.

(** Two recipe rows that differ at most in the image. *)
Definition same_but_image (r r' : Recipe.t) : Prop :=
  Recipe.id r' = Recipe.id r /\ Recipe.user r' = Recipe.user r /\
  Recipe.title r' = Recipe.title r /\ Recipe.description r' = Recipe.description r /\
  Recipe.time_minutes r' = Recipe.time_minutes r /\ Recipe.price r' = Recipe.price r /\
  Recipe.link r' = Recipe.link r.


(** The calls on the detail routes of a row. *)
Definition recipe_detail_call (pk : Z) (c : RecipeViewSet.Call) : Prop :=
  match c with
  | RecipeViewSet.GetDetail pk' | RecipeViewSet.PutDetail pk' _
  | RecipeViewSet.PatchDetail pk' _ | RecipeViewSet.DeleteDetail pk'
  | RecipeViewSet.PostUploadImage pk' _ => pk' = pk
  | _ => False
  end.

Definition attr_write_call (pk : Z) (c : BaseRecipeAttributesViewSet.Call) : Prop :=
  match c with
  | BaseRecipeAttributesViewSet.PutDetail pk' _
  | BaseRecipeAttributesViewSet.PatchDetail pk' _
  | BaseRecipeAttributesViewSet.DeleteDetail pk' => pk' = pk
  | _ => False
  end.

(** ** A sample store

    Users 1 and 2; user 1 owns recipes 1 and 2 and the tags Vegan (1) and
    Dessert (3), user 2 owns recipe 3 and the tag Vegan (2); recipes 1
    and 2 both carry tag 1, recipe 2 also carries tag 3. *)
Definition sample_user (i : Z) (e : string) : User.t :=
  {| User.id := i; User.email := e; User.password := Hashed "test123";
     User.name := "Test name" |}.

Definition sample_recipe (i u : Z) (t : string) : Recipe.t :=
  {| Recipe.id := i; Recipe.user := u; Recipe.title := t;
     Recipe.description := EmptyString; Recipe.time_minutes := 22;
     Recipe.price := 521; Recipe.link := EmptyString; Recipe.image := None |}.

Definition sample_attr (i u : Z) (n : string) : Attribute.t :=
  {| Attribute.id := i; Attribute.user := u; Attribute.name := n |}.

Definition sample_db : DB :=
  {| users := {| rows := [sample_user 1 "test@eveil.com"; sample_user 2 "other@eveil.com"];
                 next_id := 3 |};
     recipes := {| rows := [sample_recipe 1 1 "Curry"; sample_recipe 2 1 "Tahini";
                            sample_recipe 3 2 "Fish"];
                   next_id := 4 |};
     tags := {| rows := [sample_attr 1 1 "Vegan"; sample_attr 2 2 "Vegan";
                         sample_attr 3 1 "Dessert"];
                next_id := 4 |};
     ingredients := {| rows := [sample_attr 1 1 "Salt"]; next_id := 2 |};
     recipe_tags := [(1, 1); (2, 1); (2, 3); (3, 2)];
     recipe_ingredients := [(1, 1)] |}.

Definition registration (e pw n : string) : UserSerializer.Input :=
  {| UserSerializer.in_email := Valid e;
     UserSerializer.in_password := Some pw;
     UserSerializer.in_name := Valid n |}.

Definition request {Call} (u : Z) (qp : list (string * string)) (c : Call)
  : Request Call :=
  {| user := Some u; query_params := qp; call := c |}.

(** ** The serializer's create and update, phase by phase *)

Definition inserted_recipe (user : Z) (vd : RecipeData) (s : DB) : Recipe.t :=
  RecipeSerializer.new_recipe user vd (next_id (recipes s)).

Definition with_recipe (user : Z) (vd : RecipeData) (s : DB) : DB :=
  Orm.set_recipes
    {| rows := rows (recipes s) ++ [inserted_recipe user vd s];
       next_id := next_id (recipes s) + 1 |} s.

(** The store after the tag phase and after the ingredient phase of [update]. *)
Definition attr_phase (m : AttrModel) (auth rid : Z) (field : option (list AttrItem))
  : M unit :=
  match field with
  | Some items => fun s => reconcile m auth items rid (Orm.cleared m rid s)
  | None => ret tt
  end.

(** ** Sample payloads *)

Definition clear_tags_data : RecipeData :=
  {| v_title := None; v_description := None; v_time_minutes := None;
     v_price := None; v_link := None; v_image := None;
     v_tags := Some []; v_ingredients := None |}.

Definition clear_ingredients_data : RecipeData :=
  {| v_title := Some "new title"%string; v_description := None; v_time_minutes := None;
     v_price := None; v_link := None; v_image := None;
     v_tags := None; v_ingredients := Some [] |}.

Definition repeated_items : list AttrItem :=
  [ {| item_name := "Vegan" |}; {| item_name := "Thai" |}; {| item_name := "Vegan" |};
    {| item_name := "Thai" |} ].

Definition dinner_breakfast_data : RecipeData :=
  {| v_title := Some "Recipe title"%string; v_description := None;
     v_time_minutes := Some 22; v_price := Some 521; v_link := None; v_image := None;
     v_tags := Some [ {| item_name := "Vegan" |}; {| item_name := "Breakfast" |} ];
     v_ingredients := None |}.

(** The request with which user 1 renames the tag Dessert (3) to Vegan,
    and the sample store after it: user 1 then owns two tags named Vegan. *)
Definition rename_dessert : Request BaseRecipeAttributesViewSet.Call :=
  request 1 [] (BaseRecipeAttributesViewSet.PatchDetail 3
                  (Valid {| v_name := Some "Vegan"%string |})).

Definition renamed_db : DB := (TagViewSet rename_dessert sample_db).2.

Definition vegan_no_ingredients_data : RecipeData :=
  {| v_title := None; v_description := None; v_time_minutes := None;
     v_price := None; v_link := None; v_image := None;
     v_tags := Some [ {| item_name := "Vegan" |} ]; v_ingredients := Some [] |}.



(** A password of 129 characters. *)
Definition long_password : string := string_of_list_ascii (replicate 129 "a"%char).

(** ** core/management/commands/wait_for_db.py *)

Module WaitForDb.

(** What one call of [self.check(databases=["default"])] does: it
    returns, or raises one of the two errors the command catches, or
    raises something else. *)
Inductive CheckOutcome :=
| Passes
| Psycopg2Error
| OperationalError
| OtherError.

(** What the command does, in order. *)
Inductive Effect :=
| Write (msg : string)
| WriteSuccess (msg : string)
| Check
| Sleep (seconds : Z).

#[global] Instance Effect_eq_dec : EqDecision Effect.
Proof. solve_decision. Defined.

(** How a run ends: the command returns, an exception leaves it, or it
    is still in its loop when the given outcomes are used up. *)
Inductive Ending :=
| Returned
| Raised
| Waiting.

Definition wait_time : Z := 2.
Definition error_message : string := "Database not available,".
Definition wait_messge : string := " waiting " +:+ Py.str wait_time +:+ "s ...".

(** [while not database_up: ...], over the outcomes of the successive
    checks. *)
Fixpoint loop (outcomes : list CheckOutcome) (done : list Effect)
  : Ending * list Effect :=
  match outcomes with
  | [] => (Waiting, done)
  | outcome :: rest =>
      match outcome with
      | Passes => (Returned, done ++ [Check; WriteSuccess "Database available!"])
      | Psycopg2Error | OperationalError =>
          loop rest (done ++ [Check; Write (error_message +:+ wait_messge);
                              Sleep wait_time])
      | OtherError => (Raised, done ++ [Check])
      end
  end.

Definition handle (outcomes : list CheckOutcome) : Ending * list Effect :=
  loop outcomes [Write "Waiting for database ..."].

Definition retried (o : CheckOutcome) : Prop :=
  o = Psycopg2Error \/ o = OperationalError.

(** The number of checks made and the seconds slept in a run. *)
Definition checks (done : list Effect) : nat :=
  length (filter (fun e => e = Check) done).

Fixpoint slept (done : list Effect) : Z :=
  match done with
  | [] => 0
  | Sleep n :: rest => n + slept rest
  | _ :: rest => slept rest
  end.

End WaitForDb.

(** ** Vocabulary of the further properties *)

(** A query parameter is absent or empty. *)
Definition blank_param (key : string) (qp : list (string * string)) : Prop :=
  Drf.query_get key qp = None \/ Drf.query_get key qp = Some EmptyString.

(** The recipe listing is not filtered. *)
Definition unfiltered (qp : list (string * string)) : Prop :=
  blank_param "tags" qp /\ blank_param "ingredients" qp.

(** The names of a payload. *)
Definition names (items : list AttrItem) : list string := item_name <$> items.

(** The recipe passes the filter that the query parameter [key] puts on
    its related rows of model [m]: none when the parameter is absent or
    empty, otherwise some related row has one of the listed ids. *)
Definition passes_filter (m : AttrModel) (key : string) (qp : list (string * string))
    (s : DB) (r : Recipe.t) : Prop :=
  match Drf.query_get key qp with
  | Some v =>
      if Py.truthy v then
        match RecipeViewSet._params_to_ints v with
        | Ok ids => exists a, a ∈ ids /\ (Recipe.id r, a) ∈ Orm.through m s
        | Raise _ => False
        end
      else True
  | None => True
  end.

(** The flag that the [assigned_only] parameter sets: any integer but 0. *)
Definition assigned_only (qp : list (string * string)) : bool :=
  match Drf.query_get "assigned_only" qp with
  | Some v => match Py.int v with Some n => negb (n =? 0) | None => false end
  | None => false
  end.

(** The recipe row with the image replaced. *)
Definition with_image (r : Recipe.t) (image : option string) : Recipe.t :=
  {| Recipe.id := Recipe.id r; Recipe.user := Recipe.user r;
     Recipe.title := Recipe.title r; Recipe.description := Recipe.description r;
     Recipe.time_minutes := Recipe.time_minutes r; Recipe.price := Recipe.price r;
     Recipe.link := Recipe.link r; Recipe.image := image |}.

(** The attribute row with the name replaced. *)
Definition renamed (a : Attribute.t) (name : string) : Attribute.t :=
  {| Attribute.id := Attribute.id a; Attribute.user := Attribute.user a;
     Attribute.name := name |}.

(** ** Sequences of requests to the three routes of recipe/urls.py *)

Inductive ApiRequest :=
| ToRecipes (request : Request RecipeViewSet.Call)
| ToTags (request : Request BaseRecipeAttributesViewSet.Call)
| ToIngredients (request : Request BaseRecipeAttributesViewSet.Call).

Definition serve (r : ApiRequest) (s : DB) : Response * DB :=
  match r with
  | ToRecipes request => RecipeViewSet.view request s
  | ToTags request => TagViewSet request s
  | ToIngredients request => IngredientViewSet request s
  end.

(** The store after the requests were served one after the other. *)
Fixpoint serve_all (rs : list ApiRequest) (s : DB) : DB :=
  match rs with
  | [] => s
  | r :: rs => serve_all rs (serve r s).2
  end.

(** ** The reconciliation loops, for either field *)

Definition get_or_create_attrs (m : AttrModel)
  : Z -> list AttrItem -> Recipe.t -> M unit :=
  match m with
  | Tag => RecipeSerializer._get_or_create_tags
  | Ingredient => RecipeSerializer._get_or_create_ingredients
  end.

(** The items that the validated data holds for the field of model [m]. *)
Definition payload (m : AttrModel) (vd : RecipeData) : option (list AttrItem) :=
  match m with Tag => v_tags vd | Ingredient => v_ingredients vd end.

(** What a run over [items] for the recipe may add from [s] to [s']:
    rows of the user that carry a name of the payload and an id the table
    had not given out, and associations of the recipe with rows of the
    user that carry a name of the payload. *)
Definition adds_only (m : AttrModel) (auth_user recipe_id : Z) (items : list AttrItem)
    (s s' : DB) : Prop :=
  next_id (Orm.objects m s) <= next_id (Orm.objects m s') /\
  (forall t, t ∈ rows (Orm.objects m s') ->
     t ∈ rows (Orm.objects m s) \/
     (Attribute.user t = auth_user /\ Attribute.name t ∈ names items /\
      next_id (Orm.objects m s) <= Attribute.id t < next_id (Orm.objects m s'))) /\
  (forall p, p ∈ Orm.through m s' ->
     p ∈ Orm.through m s \/
     (p.1 = recipe_id /\
      exists t, t ∈ rows (Orm.objects m s') /\ Attribute.id t = p.2 /\
                Attribute.user t = auth_user /\ Attribute.name t ∈ names items)).

(** A GET, on the list or the detail route. *)
Definition is_read (r : ApiRequest) : Prop :=
  match r with
  | ToRecipes request =>
      match call request with
      | RecipeViewSet.GetList | RecipeViewSet.GetDetail _ => True
      | _ => False
      end
  | ToTags request | ToIngredients request =>
      match call request with
      | BaseRecipeAttributesViewSet.GetList
      | BaseRecipeAttributesViewSet.GetDetail _ => True
      | _ => False
      end
  end.

(** ** Vocabulary for the profile update and for wait_for_db *)

(** The hash a profile update leaves: that of a password that is given
    and not empty, otherwise the stored one. *)
Definition password_after (instance : User.t) (validated_data : UserSerializer.Patch)
  : PasswordHash :=
  match UserSerializer.p_password validated_data with
  | Some password =>
      if Py.truthy password then Hashed password else User.password instance
  | None => User.password instance
  end.

(** What one failed check adds to the run of the command. *)
Definition retry_effects : list WaitForDb.Effect :=
  [WaitForDb.Check; WaitForDb.Write "Database not available, waiting 2s ...";
   WaitForDb.Sleep 2].

Definition retries (failures : list WaitForDb.CheckOutcome) : list WaitForDb.Effect :=
  failures ≫= fun _ => retry_effects.

(** The user a request comes from, if it is authenticated. *)
Definition requester (r : ApiRequest) : option Z :=
  match r with
  | ToRecipes request => user request
  | ToTags request | ToIngredients request => user request
  end.

(** What a request of user [u] to the recipe routes may do to the store:
    users stay; tag and ingredient rows stay in place; a recipe of another
    user stays, with its associations; and a recipe that is stored
    afterwards has the id and the owner of a recipe stored before, or is
    new and owned by [u]. *)
Definition recipe_footprint (u : Z) (s s' : DB) : Prop :=
  users s' = users s /\
  (forall m, rows (Orm.objects m s) `prefix_of` rows (Orm.objects m s')) /\
  (forall R, R ∈ rows (recipes s) -> Recipe.user R <> u ->
     R ∈ rows (recipes s') /\
     forall m a, (Recipe.id R, a) ∈ Orm.through m s' <-> (Recipe.id R, a) ∈ Orm.through m s) /\
  (forall r', r' ∈ rows (recipes s') ->
     (exists r0, r0 ∈ rows (recipes s) /\ Recipe.id r0 = Recipe.id r' /\
                 Recipe.user r0 = Recipe.user r') \/
     (Recipe.id r' = next_id (recipes s) /\ Recipe.user r' = u)).

(** What a request to the routes of model [m] may do to the store:
    recipes, users and the other model stay; no row and no association is
    added; a row that is stored afterwards has the id and the owner of a
    row stored before. *)
Definition attr_footprint (m : AttrModel) (s s' : DB) : Prop :=
  recipes s' = recipes s /\ users s' = users s /\
  (forall m', m' <> m ->
     Orm.objects m' s' = Orm.objects m' s /\ Orm.through m' s' = Orm.through m' s) /\
  next_id (Orm.objects m s') = next_id (Orm.objects m s) /\
  (forall a, a ∈ rows (Orm.objects m s') ->
     exists a0, a0 ∈ rows (Orm.objects m s) /\ Attribute.id a0 = Attribute.id a /\
                Attribute.user a0 = Attribute.user a) /\
  (forall p, p ∈ Orm.through m s' -> p ∈ Orm.through m s).
(** * Properties *)

Example split_two : Py.split ","%char "1,2"%string = ["1"%string; "2"%string].
Proof. reflexivity. Qed.

Example split_trailing : Py.split ","%char "1,"%string = ["1"%string; EmptyString].
Proof. reflexivity. Qed.

Example int_plain : Py.int "42" = Some 42.
Proof. reflexivity. Qed.

Example int_padded : Py.int " -1_000 " = Some (-1000).
Proof. reflexivity. Qed.

Example int_word : Py.int "abc" = None.
Proof. reflexivity. Qed.

Example int_empty : Py.int EmptyString = None.
Proof. reflexivity. Qed.

Example int_double_underscore : Py.int "1__0" = None.
Proof. reflexivity. Qed.

Example str_samples :
  Py.str 0 = "0"%string /\ Py.str 7 = "7"%string /\ Py.str 1024 = "1024"%string /\
  Py.str (-35) = "-35"%string.
Proof. repeat split; reflexivity. Qed.

(** ** Printing and reading integers *)

Lemma digit_char_spec d :
  0 <= d < 10 -> Py.is_digit (Py.digit_char d) = true /\ Py.digit_value (Py.digit_char d) = d.
Proof.
  intros Hd.
  assert (d = 0 \/ d = 1 \/ d = 2 \/ d = 3 \/ d = 4 \/ d = 5 \/ d = 6 \/ d = 7 \/
          d = 8 \/ d = 9) as Hcases by lia.
  repeat (destruct Hcases as [-> | Hcases]; [by vm_compute|]). subst d. by vm_compute.
Qed.

Lemma is_digit_not_space c : Py.is_digit c = true -> Py.is_space c = false.
Proof.
  unfold Py.is_digit, Py.is_space. intros [H1 H2]%andb_true_iff.
  apply Z.leb_le in H1. apply Z.leb_le in H2.
  apply orb_false_iff. split.
  - apply andb_false_iff. right. apply Z.leb_gt. lia.
  - apply Z.eqb_neq. lia.
Qed.

Lemma is_digit_not_char c (x : ascii) :
  Py.is_digit x = false -> Py.is_digit c = true -> Ascii.eqb c x = false.
Proof. intros Hx Hc. apply Ascii.eqb_neq. intros ->. congruence. Qed.

(** Reading the digits that [digits] writes continues from the
    accumulator shifted by them. *)
Lemma int_digits_digits fuel n a rest :
  0 <= n < 2 ^ Z.of_nat (S fuel) ->
  exists k, (0 <= k) /\
    Py.int_digits a (Py.digits (S fuel) n rest) = Py.int_digits (a * 10 ^ k + n) rest.
Proof.
  revert n a rest. induction fuel as [|fuel IH]; intros n a rest Hn.
  - exists 1. split; [lia|]. simpl in Hn.
    assert ((n <? 10) = true) as Hlt by (apply Z.ltb_lt; lia).
    simpl. rewrite Hlt. simpl. destruct (digit_char_spec n ltac:(lia)) as [-> ->].
    f_equal. lia.
  - change (Py.digits (S (S fuel)) n rest) with
      (if n <? 10 then Py.digit_char n :: rest
       else Py.digits (S fuel) (n / 10) (Py.digit_char (n mod 10) :: rest)).
    destruct (n <? 10) eqn:Hlt.
    + apply Z.ltb_lt in Hlt. exists 1. split; [lia|]. simpl.
      destruct (digit_char_spec n ltac:(lia)) as [-> ->]. f_equal. lia.
    + apply Z.ltb_ge in Hlt.
      assert (Hpow : 2 ^ Z.of_nat (S (S fuel)) = 2 * 2 ^ Z.of_nat (S fuel)).
      { rewrite (Nat2Z.inj_succ (S fuel)), Z.pow_succ_r by lia. done. }
      assert (0 <= n / 10 < 2 ^ Z.of_nat (S fuel)) as Hq.
      { split; [apply Z.div_pos; lia|]. apply Z.div_lt_upper_bound; lia. }
      destruct (IH (n / 10) a (Py.digit_char (n mod 10) :: rest) Hq) as (k & Hk & ->).
      exists (k + 1). split; [lia|]. simpl.
      pose proof (Z.mod_pos_bound n 10 ltac:(lia)) as Hm.
      destruct (digit_char_spec (n mod 10) Hm) as [-> ->]. f_equal.
      rewrite Z.pow_add_r by lia. pose proof (Z.div_mod n 10 ltac:(lia)). lia.
Qed.

Lemma digits_all_digits fuel n acc :
  0 <= n -> Forall (fun c => Py.is_digit c = true) acc ->
  Forall (fun c => Py.is_digit c = true) (Py.digits fuel n acc).
Proof.
  revert n acc. induction fuel as [|fuel IH]; intros n acc Hn Hacc; [done|]. simpl.
  destruct (n <? 10) eqn:Hlt.
  - apply Z.ltb_lt in Hlt. constructor; [|done]. by apply digit_char_spec.
  - apply IH; [apply Z.div_pos; lia|]. constructor; [|done].
    apply digit_char_spec. apply Z.mod_pos_bound. lia.
Qed.

Lemma digits_not_nil fuel n acc : Py.digits (S fuel) n acc <> [].
Proof.
  revert n acc. induction fuel as [|fuel IH]; intros n acc.
  - simpl. by destruct (n <? 10).
  - change (Py.digits (S (S fuel)) n acc) with
      (if n <? 10 then Py.digit_char n :: acc
       else Py.digits (S fuel) (n / 10) (Py.digit_char (n mod 10) :: acc)).
    destruct (n <? 10); [done|apply IH].
Qed.

Lemma lstrip_no_space cs :
  Forall (fun c => Py.is_space c = false) cs -> Py.lstrip cs = cs.
Proof. destruct 1 as [|c cs Hc _]; simpl; [done|by rewrite Hc]. Qed.

Lemma strip_no_space cs :
  Forall (fun c => Py.is_space c = false) cs -> Py.strip cs = cs.
Proof.
  intros H. unfold Py.strip. rewrite (lstrip_no_space cs H).
  rewrite lstrip_no_space by (by apply Forall_reverse). apply reverse_involutive.
Qed.

Lemma int_literal_digits cs :
  Forall (fun c => Py.is_digit c = true) cs -> cs <> [] ->
  Py.int_literal cs = Py.int_digits 0 cs.
Proof. destruct 1 as [|c cs Hc _]; intros Hne; simpl; [done|by rewrite Hc]. Qed.

Lemma abs_below_pow n : 0 <= Z.abs n < 2 ^ Z.of_nat (S (Z.to_nat (Z.log2 (Z.abs n)))).
Proof.
  split; [lia|]. rewrite Nat2Z.inj_succ, Z2Nat.id by apply Z.log2_nonneg.
  destruct (decide (Z.abs n = 0)) as [->|Hne]; [done|].
  apply Z.log2_spec. lia.
Qed.

(** [int(str(n))] is [n]. *)
Lemma int_str n : Py.int (Py.str n) = Some n.
Proof.
  unfold Py.int, Py.str.
  set (ds := Py.digits (S (Z.to_nat (Z.log2 (Z.abs n)))) (Z.abs n) []).
  assert (Hds : Forall (fun c => Py.is_digit c = true) ds)
    by (apply digits_all_digits; [lia|constructor]).
  assert (Hne : ds <> []) by apply digits_not_nil.
  assert (Hval : Py.int_literal ds = Some (Z.abs n)).
  { rewrite int_literal_digits by done.
    destruct (int_digits_digits _ (Z.abs n) 0 [] (abs_below_pow n)) as (k & _ & Hk).
    unfold ds. rewrite Hk. simpl. f_equal. }
  assert (Hsp : Forall (fun c => Py.is_space c = false) ds).
  { eapply Forall_impl; [exact Hds|]. apply is_digit_not_space. }
  rewrite list_ascii_of_string_of_list_ascii.
  destruct (n <? 0) eqn:Hneg.
  - apply Z.ltb_lt in Hneg. rewrite strip_no_space by (by constructor).
    simpl. rewrite Hval. simpl. f_equal. lia.
  - apply Z.ltb_ge in Hneg. rewrite strip_no_space by done.
    destruct ds as [|c cs]; [done|].
    apply Forall_cons in Hds as [Hc _].
    rewrite !(is_digit_not_char c) by done.
    rewrite Hval. f_equal. lia.
Qed.

Lemma split_app_sep sep (s1 s2 : string) :
  Forall (fun c => Ascii.eqb c sep = false) (list_ascii_of_string s1) ->
  Py.split sep (s1 +:+ String sep s2) = s1 :: Py.split sep s2.
Proof.
  induction s1 as [|c s1 IH]; simpl; intros H.
  - by rewrite Ascii.eqb_refl.
  - apply Forall_cons in H as [Hc H]. rewrite Hc, IH by done. done.
Qed.

Lemma split_no_sep sep (s : string) :
  Forall (fun c => Ascii.eqb c sep = false) (list_ascii_of_string s) ->
  Py.split sep s = [s].
Proof.
  induction s as [|c s IH]; simpl; intros H; [done|].
  apply Forall_cons in H as [Hc H]. by rewrite Hc, IH.
Qed.

Lemma str_no_comma n :
  Forall (fun c => Ascii.eqb c ","%char = false) (list_ascii_of_string (Py.str n)).
Proof.
  unfold Py.str. rewrite list_ascii_of_string_of_list_ascii.
  assert (Hds : Forall (fun c => Ascii.eqb c ","%char = false)
                  (Py.digits (S (Z.to_nat (Z.log2 (Z.abs n)))) (Z.abs n) [])).
  { eapply Forall_impl; [apply digits_all_digits; [lia|constructor]|].
    intros c. by apply is_digit_not_char. }
  destruct (n <? 0); [by constructor|done].
Qed.

(** The id list that a client writes for two ids reads back as them. *)
Lemma params_to_ints_str id1 id2 :
  RecipeViewSet._params_to_ints (Py.str id1 +:+ "," +:+ Py.str id2) = Ok [id1; id2].
Proof.
  unfold RecipeViewSet._params_to_ints.
  change ("," +:+ Py.str id2)%string with (String ","%char (Py.str id2)).
  rewrite split_app_sep by apply str_no_comma.
  rewrite split_no_sep by apply str_no_comma.
  simpl. by rewrite !int_str.
Qed.

(** ** The store accessors *)

Section Accessors.
Context (s : DB).

Lemma objects_set_objects m m' t :
  Orm.objects m (Orm.set_objects m' t s) = if decide (m = m') then t else Orm.objects m s.
Proof. destruct m, m'; reflexivity. Qed.

Lemma through_set_objects m m' t :
  Orm.through m (Orm.set_objects m' t s) = Orm.through m s.
Proof. destruct m, m'; reflexivity. Qed.

Lemma recipes_set_objects m t : recipes (Orm.set_objects m t s) = recipes s.
Proof. destruct m; reflexivity. Qed.

Lemma users_set_objects m t : users (Orm.set_objects m t s) = users s.
Proof. destruct m; reflexivity. Qed.

Lemma through_set_through m m' l :
  Orm.through m (Orm.set_through m' l s) = if decide (m = m') then l else Orm.through m s.
Proof. destruct m, m'; reflexivity. Qed.

Lemma objects_set_through m m' l :
  Orm.objects m (Orm.set_through m' l s) = Orm.objects m s.
Proof. destruct m, m'; reflexivity. Qed.

Lemma recipes_set_through m l : recipes (Orm.set_through m l s) = recipes s.
Proof. destruct m; reflexivity. Qed.

Lemma users_set_through m l : users (Orm.set_through m l s) = users s.
Proof. destruct m; reflexivity. Qed.

Lemma objects_set_recipes m t : Orm.objects m (Orm.set_recipes t s) = Orm.objects m s.
Proof. destruct m; reflexivity. Qed.

Lemma through_set_recipes m t : Orm.through m (Orm.set_recipes t s) = Orm.through m s.
Proof. destruct m; reflexivity. Qed.
End Accessors.

Create Rewrite HintDb db.
#[local] Hint Rewrite objects_set_objects through_set_objects recipes_set_objects
  users_set_objects through_set_through objects_set_through recipes_set_through
  users_set_through objects_set_recipes through_set_recipes : db.

Ltac db_simpl := autorewrite with db in *; repeat case_decide; try congruence.

(** ** The store monad *)

Lemma bind_ok {A B} (m : M A) (k : A -> M B) s a s1 :
  m s = (Ok a, s1) -> bind m k s = k a s1.
Proof. intros H. unfold bind. by rewrite H. Qed.

Lemma bind_raise {A B} (m : M A) (k : A -> M B) s e s1 :
  m s = (Raise e, s1) -> bind m k s = (Raise e, s1).
Proof. intros H. unfold bind. by rewrite H. Qed.

Lemma bind_inv_ok {A B} (m : M A) (k : A -> M B) s b s2 :
  bind m k s = (Ok b, s2) -> exists a s1, m s = (Ok a, s1) /\ k a s1 = (Ok b, s2).
Proof.
  unfold bind. destruct (m s) as [[a|e] s1]; intros H; [eauto|discriminate].
Qed.

Lemma for_each_cons {A} (x : A) l body s :
  for_each (x :: l) body s =
    match body x s with
    | (Ok _, s1) => for_each l body s1
    | (Raise e, s1) => (Raise e, s1)
    end.
Proof. reflexivity. Qed.

(** A property that every iteration keeps, whether it returns or raises,
    holds of the store the loop leaves. *)
Lemma for_each_inv {A} (I : DB -> Prop) (l : list A) body :
  (forall x s r s', x ∈ l -> I s -> body x s = (r, s') -> I s') ->
  forall s r s', I s -> for_each l body s = (r, s') -> I s'.
Proof.
  induction l as [|x l IH]; intros Hbody s r s' HI Hrun.
  - inversion Hrun; by subst.
  - rewrite for_each_cons in Hrun.
    destruct (body x s) as [[[]|e] s1] eqn:Hx.
    + eapply IH; [|eapply Hbody; [left|done..]|done].
      intros ????? ; eapply Hbody. by right.
    + inversion Hrun; subst. eapply Hbody; [left|done..].
Qed.

(** ** Get-or-create and the reconciliation step *)

Section Reconcile.
Context (m : AttrModel) (u rid : Z).

Lemma reconcile_item_spec item s :
  item_spec m u rid (item_name item) s (reconcile_item m u rid item s).
Proof.
  unfold reconcile_item, bind, Orm.get_or_create, Orm.add, modify.
  destruct (Orm.matching u (item_name item) (rows (Orm.objects m s)))
    as [|t1 [|t2 l]] eqn:Hm; simpl.
  - by apply item_created.
  - by apply item_found.
  - by eapply item_many.
Qed.

Lemma through_link a s :
  Orm.through m (Orm.link m rid a s) =
    if decide ((rid, a) ∈ Orm.through m s) then Orm.through m s
    else Orm.through m s ++ [(rid, a)].
Proof. unfold Orm.link. case_decide; [done|]. by db_simpl. Qed.

Lemma elem_of_through_link a s p :
  p ∈ Orm.through m (Orm.link m rid a s) <-> p ∈ Orm.through m s \/ p = (rid, a).
Proof.
  rewrite through_link. case_decide.
  - split; [tauto|]. intros [?| ->]; done.
  - rewrite elem_of_app, list_elem_of_singleton. tauto.
Qed.

Lemma objects_link m' a s : Orm.objects m' (Orm.link m rid a s) = Orm.objects m' s.
Proof. unfold Orm.link. case_decide; [done|]. by db_simpl. Qed.

Lemma link_frame a s : attr_frame m s (Orm.link m rid a s).
Proof.
  unfold Orm.link, attr_frame. case_decide; [by auto|].
  repeat split; db_simpl.
Qed.

Lemma grown_frame n s : attr_frame m s (grown m u n s).
Proof. unfold grown, attr_frame. repeat split; db_simpl. Qed.

End Reconcile.

Section Settled.
Context (m : AttrModel) (u rid : Z).

Lemma matching_app n (l l' : list Attribute.t) :
  Orm.matching u n (l ++ l') = Orm.matching u n l ++ Orm.matching u n l'.
Proof. apply filter_app. Qed.

Lemma matching_created n n' s :
  Orm.matching u n [created m u n' s] =
    if decide (n' = n) then [created m u n' s] else [].
Proof.
  unfold Orm.matching. rewrite filter_cons, filter_nil. simpl.
  destruct (decide (n' = n)) as [->|Hn].
  - by rewrite decide_True.
  - rewrite decide_False; [done|]. by intros [_ ?].
Qed.

Lemma objects_grown n s :
  rows (Orm.objects m (grown m u n s)) = rows (Orm.objects m s) ++ [created m u n s].
Proof. unfold grown. by db_simpl. Qed.

Lemma through_grown m' n s : Orm.through m' (grown m u n s) = Orm.through m' s.
Proof. unfold grown. by db_simpl. Qed.

(** An iteration that returns leaves its item settled. *)
Lemma item_ok_settled item s s' :
  reconcile_item m u rid item s = (Ok tt, s') ->
  settled m u rid (item_name item) s'.
Proof.
  intros Hrun. pose proof (reconcile_item_spec m u rid item s) as Hspec.
  rewrite Hrun in Hspec. inversion Hspec as [t Hm| Hm |]; subst.
  - exists t. rewrite objects_link. split; [done|].
    apply elem_of_through_link. by right.
  - exists (created m u (item_name item) s).
    rewrite objects_link, objects_grown, matching_app, Hm, matching_created.
    rewrite decide_True by done. split; [done|].
    apply elem_of_through_link. by right.
Qed.

(** On a settled item the iteration changes nothing. *)
Lemma settled_item_id item s :
  settled m u rid (item_name item) s ->
  reconcile_item m u rid item s = (Ok tt, s).
Proof.
  intros (t & Hm & Hin).
  destruct (reconcile_item_spec m u rid item s) as [t' Hm'| Hm' |]; try congruence.
  assert (t' = t) as -> by congruence.
  unfold Orm.link. by rewrite decide_True.
Qed.

(** Whatever an iteration does, what was settled stays settled. *)
Lemma item_keeps_settled n item s r s' :
  settled m u rid n s ->
  reconcile_item m u rid item s = (r, s') ->
  settled m u rid n s'.
Proof.
  intros (t & Hm & Hin) Hrun.
  pose proof (reconcile_item_spec m u rid item s) as Hspec.
  rewrite Hrun in Hspec. inversion Hspec as [t' Hm'| Hm' |]; subst.
  - exists t. rewrite objects_link. split; [done|].
    apply elem_of_through_link. by left.
  - exists t.
    rewrite objects_link, objects_grown, matching_app, Hm, matching_created.
    case_decide as Hn; [subst; congruence|]. split; [done|].
    apply elem_of_through_link. left. by rewrite through_grown.
  - by exists t.
Qed.

Lemma reconcile_cons item l s :
  reconcile m u (item :: l) rid s =
    match reconcile_item m u rid item s with
    | (Ok _, s1) => reconcile m u l rid s1
    | (Raise e, s1) => (Raise e, s1)
    end.
Proof. reflexivity. Qed.



(** A loop that returns leaves every item of its payload settled. *)
Lemma reconcile_ok_settled l s s' :
  reconcile m u l rid s = (Ok tt, s') ->
  forall item, item ∈ l -> settled m u rid (item_name item) s'.
Proof.
  revert s. induction l as [|x l IH]; intros s Hrun item Hin.
  - by apply elem_of_nil in Hin.
  - rewrite reconcile_cons in Hrun.
    destruct (reconcile_item m u rid x s) as [[[]|e] s1] eqn:Hx; [|done].
    apply elem_of_cons in Hin as [->|Hin]; [|by eapply IH].
    apply item_ok_settled in Hx.
    unfold reconcile in Hrun.
    eapply (for_each_inv (settled m u rid (item_name x))); [|exact Hx|exact Hrun].
    intros y s2 r s3 _ Hs Hy. by eapply item_keeps_settled.
Qed.

End Settled.

(** ** Well-formedness and ownership along a reconciliation *)

Lemma NoDup_fmap_eq {A B} (f : A -> B) (l : list A) x y :
  NoDup (f <$> l) -> x ∈ l -> y ∈ l -> f x = f y -> x = y.
Proof.
  induction l as [|z l IH]; intros Hnd Hx Hy Hf.
  - by apply elem_of_nil in Hx.
  - rewrite fmap_cons in Hnd. apply NoDup_cons in Hnd as [Hz Hnd].
    apply elem_of_cons in Hx as [->|Hx]; apply elem_of_cons in Hy as [->|Hy].
    + done.
    + exfalso. apply Hz. rewrite Hf. by apply list_elem_of_fmap_2.
    + exfalso. apply Hz. rewrite <- Hf. by apply list_elem_of_fmap_2.
    + by apply IH.
Qed.

Lemma table_wf_lt {Row} (pk : Row -> Z) (t : Table Row) r :
  table_wf pk t -> r ∈ rows t -> pk r < next_id t.
Proof. intros [_ Hlt] Hin. by eapply Forall_forall in Hlt. Qed.

Section Consistency.
Context (m : AttrModel) (u rid : Z).

Lemma link_keeps_consistent t s :
  consistent s -> owns u rid s ->
  t ∈ rows (Orm.objects m s) -> Attribute.user t = u ->
  consistent (Orm.link m rid (Attribute.id t) s).
Proof.
  intros [(Hr & Ho & Ht) Hso] (r & Hrin & Hrid & Hru) Htin Htu.
  destruct (link_frame m rid (Attribute.id t) s) as (Hfr & _ & Hfm).
  split; [split; [|split]|].
  - by rewrite Hfr.
  - intros m'. rewrite objects_link. apply Ho.
  - intros m'. unfold through_wf. rewrite Hfr, objects_link.
    destruct (decide (m' = m)) as [->|Hne].
    + rewrite through_link. case_decide; [apply Ht|].
      apply Forall_app; split; [apply Ht|].
      apply Forall_singleton. simpl. split.
      * rewrite <- Hrid. by apply list_elem_of_fmap_2.
      * by apply list_elem_of_fmap_2.
    + destruct (Hfm m' Hne) as [_ ->]. apply Ht.
  - intros m' r' a' Hr' Ha' Hp. rewrite Hfr in Hr'. rewrite objects_link in Ha'.
    destruct (decide (m' = m)) as [->|Hne].
    + apply elem_of_through_link in Hp as [Hp|Hp]; [by eapply Hso|].
      injection Hp as Hid1 Hid2.
      assert (r' = r) as ->.
      { eapply (NoDup_fmap_eq Recipe.id); [apply Hr|done..|congruence]. }
      assert (a' = t) as ->.
      { eapply (NoDup_fmap_eq Attribute.id); [apply (Ho m)|done..]. }
      congruence.
    + destruct (Hfm m' Hne) as [_ Hth]. rewrite Hth in Hp. by eapply Hso.
Qed.

Lemma grown_keeps_consistent n s : consistent s -> consistent (grown m u n s).
Proof.
  intros [(Hr & Ho & Ht) Hso].
  assert (Hsub : forall m' x, x ∈ Attribute.id <$> rows (Orm.objects m' s) ->
                   x ∈ Attribute.id <$> rows (Orm.objects m' (grown m u n s))).
  { intros m' x Hx. unfold grown. rewrite objects_set_objects.
    case_decide; [subst; simpl|done]. rewrite fmap_app. apply elem_of_app. by left. }
  split; [split; [|split]|].
  - unfold grown. by rewrite recipes_set_objects.
  - intros m'. unfold grown. rewrite objects_set_objects.
    case_decide; [subst m'|apply Ho]. destruct (Ho m) as [Hnd Hlt].
    split; simpl.
    + rewrite fmap_app. apply NoDup_app. split; [done|]. split; [|apply NoDup_singleton].
      intros x Hx Hx'. apply list_elem_of_singleton in Hx'. subst x.
      apply list_elem_of_fmap in Hx as (a & Ha & Hin).
      eapply Forall_forall in Hlt; [|exact Hin]. simpl in Ha. lia.
    + apply Forall_app. split.
      * eapply Forall_impl; [exact Hlt|]. simpl. intros; lia.
      * apply Forall_singleton. simpl. lia.
  - intros m'. unfold through_wf. rewrite through_grown.
    eapply Forall_impl; [apply (Ht m')|]. simpl. intros p [Hp1 Hp2]. split.
    + unfold grown. by rewrite recipes_set_objects.
    + by apply Hsub.
  - intros m' r a Hrin Hain Hp. rewrite through_grown in Hp.
    unfold grown in Hrin, Hain. rewrite recipes_set_objects in Hrin.
    rewrite objects_set_objects in Hain.
    case_decide; [subst m'; simpl in Hain|by eapply Hso].
    apply elem_of_app in Hain as [Hain|Hain]; [by eapply Hso|].
    apply list_elem_of_singleton in Hain. subst a. exfalso.
    pose proof (Ht m) as Hfk. eapply Forall_forall in Hfk; [|exact Hp].
    destruct Hfk as [_ Hfk]. simpl in Hfk.
    apply list_elem_of_fmap in Hfk as (a & Ha & Hin).
    pose proof (table_wf_lt _ _ _ (Ho m) Hin). lia.
Qed.

Lemma grown_owns n s : owns u rid s -> owns u rid (grown m u n s).
Proof. unfold owns, grown. by rewrite recipes_set_objects. Qed.

Lemma link_owns a s : owns u rid s -> owns u rid (Orm.link m rid a s).
Proof.
  destruct (link_frame m rid a s) as (Hfr & _). unfold owns. by rewrite Hfr.
Qed.

Lemma matching_elem n (l : list Attribute.t) t :
  t ∈ Orm.matching u n l <-> (Attribute.user t = u /\ Attribute.name t = n) /\ t ∈ l.
Proof. unfold Orm.matching. by rewrite list_elem_of_filter. Qed.

(** One iteration keeps the store well formed and the associations
    within the owner's rows, whether it returns or raises. *)
Lemma item_keeps_consistent item s r s' :
  consistent s /\ owns u rid s ->
  reconcile_item m u rid item s = (r, s') ->
  consistent s' /\ owns u rid s'.
Proof.
  intros [Hc Ho] Hrun. pose proof (reconcile_item_spec m u rid item s) as Hspec.
  rewrite Hrun in Hspec. inversion Hspec as [t Hm| Hm |]; subst.
  - assert (t ∈ Orm.matching u (item_name item) (rows (Orm.objects m s))) as Hin
      by (rewrite Hm; apply list_elem_of_singleton; done).
    apply matching_elem in Hin as [[Hu _] Hin].
    split; [by apply link_keeps_consistent|by apply link_owns].
  - split; [|by apply link_owns, grown_owns].
    apply (link_keeps_consistent (created m u (item_name item) s)).
    + by apply grown_keeps_consistent.
    + by apply grown_owns.
    + rewrite objects_grown. apply elem_of_app. right. by apply list_elem_of_singleton.
    + done.
  - done.
Qed.

Lemma reconcile_keeps_consistent l s r s' :
  consistent s /\ owns u rid s ->
  reconcile m u l rid s = (r, s') ->
  consistent s' /\ owns u rid s'.
Proof.
  intros HI Hrun. unfold reconcile in Hrun.
  eapply (for_each_inv (fun s => consistent s /\ owns u rid s)); [|exact HI|exact Hrun].
  intros x s1 r1 s2 _ H1 Hx. by eapply item_keeps_consistent.
Qed.

End Consistency.

Section Frames.
Context (m : AttrModel) (u rid : Z).

Lemma attr_frame_refl s : attr_frame m s s.
Proof. by repeat split. Qed.

Lemma attr_frame_trans s1 s2 s3 :
  attr_frame m s1 s2 -> attr_frame m s2 s3 -> attr_frame m s1 s3.
Proof.
  intros (Hr1 & Hu1 & Hm1) (Hr2 & Hu2 & Hm2). repeat split; try congruence.
  - destruct (Hm1 m' H), (Hm2 m' H). congruence.
  - destruct (Hm1 m' H), (Hm2 m' H). congruence.
Qed.

Lemma item_frame item s r s' :
  reconcile_item m u rid item s = (r, s') -> attr_frame m s s'.
Proof.
  intros Hrun. pose proof (reconcile_item_spec m u rid item s) as Hspec.
  rewrite Hrun in Hspec. inversion Hspec; subst.
  - apply link_frame.
  - eapply attr_frame_trans; [apply grown_frame|].
    apply (link_frame m rid (Attribute.id (created m u (item_name item) s))).
  - apply attr_frame_refl.
Qed.

Lemma reconcile_frame l s r s' :
  reconcile m u l rid s = (r, s') -> attr_frame m s s'.
Proof.
  intros Hrun. unfold reconcile in Hrun.
  eapply (for_each_inv (attr_frame m s)); [|apply attr_frame_refl|exact Hrun].
  intros x s1 r1 s2 _ H1 Hx. eapply attr_frame_trans; [exact H1|].
  by eapply item_frame.
Qed.

Lemma item_extends item s r s' :
  reconcile_item m u rid item s = (r, s') -> extends m s s'.
Proof.
  intros Hrun. pose proof (reconcile_item_spec m u rid item s) as Hspec.
  rewrite Hrun in Hspec. inversion Hspec; subst; split.
  - by rewrite objects_link.
  - intros p Hp. apply elem_of_through_link. by left.
  - rewrite objects_link, objects_grown. by apply prefix_app_r.
  - intros p Hp.
    apply (elem_of_through_link m rid (Attribute.id (created m u (item_name item) s))).
    left. by rewrite through_grown.
  - done.
  - done.
Qed.

Lemma reconcile_extends l s r s' :
  reconcile m u l rid s = (r, s') -> extends m s s'.
Proof.
  intros Hrun. unfold reconcile in Hrun.
  eapply (for_each_inv (extends m s)); [| |exact Hrun].
  - intros x s1 r1 s2 _ [Hp1 Ht1] Hx. apply item_extends in Hx as [Hp2 Ht2].
    split; [by etrans|auto].
  - by split.
Qed.

(** With no ambiguous lookup the loop returns. *)
Lemma item_unambiguous l item s r s' :
  unambiguous m u l s ->
  reconcile_item m u rid item s = (r, s') ->
  unambiguous m u l s'.
Proof.
  intros Hun Hrun. pose proof (reconcile_item_spec m u rid item s) as Hspec.
  rewrite Hrun in Hspec. inversion Hspec as [t Hm| Hm |]; subst; [| |done].
  - intros x Hx. rewrite objects_link. by apply Hun.
  - intros x Hx. rewrite objects_link, objects_grown, matching_app, matching_created.
    case_decide as Hn.
    + rewrite <- Hn, Hm. simpl. lia.
    + rewrite app_nil_r. by apply Hun.
Qed.

Lemma reconcile_returns l s :
  unambiguous m u l s -> exists s', reconcile m u l rid s = (Ok tt, s').
Proof.
  revert s. induction l as [|x l IH]; intros s Hun; [by eexists|].
  rewrite reconcile_cons.
  destruct (reconcile_item_spec m u rid x s) as [t Hm| Hm |t1 t2 k Hm].
  - apply IH. intros y Hy. rewrite objects_link. apply Hun. by right.
  - apply IH. intros y Hy.
    rewrite objects_link, objects_grown, matching_app, matching_created.
    case_decide as Hn.
    + rewrite <- Hn, Hm. simpl. lia.
    + rewrite app_nil_r. apply Hun. by right.
  - exfalso. specialize (Hun x (list_elem_of_here _ _)). rewrite Hm in Hun.
    simpl in Hun. lia.
Qed.

End Frames.

(** ** The serializer's create and update, step by step *)

Lemma get_or_create_tags_reconcile auth items recipe :
  RecipeSerializer._get_or_create_tags auth items recipe =
    reconcile Tag auth items (Recipe.id recipe).
Proof. reflexivity. Qed.

Lemma get_or_create_ingredients_reconcile auth items recipe :
  RecipeSerializer._get_or_create_ingredients auth items recipe =
    reconcile Ingredient auth items (Recipe.id recipe).
Proof. reflexivity. Qed.

#[local] Arguments RecipeSerializer._get_or_create_tags : simpl never.
#[local] Arguments RecipeSerializer._get_or_create_ingredients : simpl never.
#[local] Arguments reconcile : simpl never.

Lemma create_run auth user vd s :
  RecipeSerializer.create auth user vd s =
    let r := inserted_recipe user vd s in
    match reconcile Tag auth (default [] (v_tags vd)) (Recipe.id r)
            (with_recipe user vd s) with
    | (Ok _, s2) =>
        match reconcile Ingredient auth (default [] (v_ingredients vd))
                (Recipe.id r) s2 with
        | (Ok _, s3) => (Ok r, s3)
        | (Raise e, s3) => (Raise e, s3)
        end
    | (Raise e, s2) => (Raise e, s2)
    end.
Proof. reflexivity. Qed.

Lemma update_run auth instance vd s :
  RecipeSerializer.update auth instance vd s =
    match attr_phase Tag auth (Recipe.id instance) (v_tags vd) s with
    | (Ok _, s1) =>
        match attr_phase Ingredient auth (Recipe.id instance) (v_ingredients vd) s1 with
        | (Ok _, s2) =>
            (Ok (RecipeSerializer.setattrs instance vd),
             Orm.saved_recipe (RecipeSerializer.setattrs instance vd) s2)
        | (Raise e, s2) => (Raise e, s2)
        end
    | (Raise e, s1) => (Raise e, s1)
    end.
Proof.
  unfold RecipeSerializer.update, attr_phase.
  destruct (v_tags vd) as [tags|], (v_ingredients vd) as [ings|]; reflexivity.
Qed.

Lemma objects_cleared m m' rid s : Orm.objects m (Orm.cleared m' rid s) = Orm.objects m s.
Proof. unfold Orm.cleared. by db_simpl. Qed.

Lemma recipes_cleared m rid s : recipes (Orm.cleared m rid s) = recipes s.
Proof. unfold Orm.cleared. by db_simpl. Qed.

Lemma through_cleared m m' rid s :
  Orm.through m (Orm.cleared m' rid s) =
    if decide (m = m') then filter (fun p => p.1 <> rid) (Orm.through m s)
    else Orm.through m s.
Proof. unfold Orm.cleared. by db_simpl. Qed.

Lemma objects_saved_recipe m r s : Orm.objects m (Orm.saved_recipe r s) = Orm.objects m s.
Proof. unfold Orm.saved_recipe. by db_simpl. Qed.

Lemma through_saved_recipe m r s : Orm.through m (Orm.saved_recipe r s) = Orm.through m s.
Proof. unfold Orm.saved_recipe. by db_simpl. Qed.

Lemma objects_with_recipe m user vd s :
  Orm.objects m (with_recipe user vd s) = Orm.objects m s.
Proof. unfold with_recipe. by db_simpl. Qed.

Lemma through_with_recipe m user vd s :
  Orm.through m (with_recipe user vd s) = Orm.through m s.
Proof. unfold with_recipe. by db_simpl. Qed.

(** What a phase of [update] leaves alone, and what it does to the
    field's own associations. *)
Lemma attr_phase_frame m auth rid field s r s' :
  attr_phase m auth rid field s = (r, s') ->
  recipes s' = recipes s /\
  forall m', m' <> m ->
    Orm.objects m' s' = Orm.objects m' s /\ Orm.through m' s' = Orm.through m' s.
Proof.
  destruct field as [items|]; simpl; intros Hrun.
  - apply reconcile_frame in Hrun as (Hr & _ & Hm). split.
    + by rewrite Hr, recipes_cleared.
    + intros m' Hne. destruct (Hm m' Hne) as [-> ->].
      rewrite objects_cleared, through_cleared. by rewrite decide_False.
  - inversion Hrun; by subst.
Qed.

Lemma attr_phase_absent m auth rid s r s' :
  attr_phase m auth rid None s = (r, s') -> s' = s.
Proof. intros Hrun. by inversion Hrun. Qed.

Lemma attr_phase_empty m auth rid s :
  attr_phase m auth rid (Some []) s = (Ok tt, Orm.cleared m rid s).
Proof. reflexivity. Qed.

Lemma not_elem_of_through_cleared m rid a s :
  (rid, a) ∉ Orm.through m (Orm.cleared m rid s).
Proof.
  rewrite through_cleared, decide_True by done.
  rewrite list_elem_of_filter. simpl. tauto.
Qed.

Lemma associations_cleared m rid s : associations m rid (Orm.cleared m rid s) = [].
Proof.
  unfold associations. rewrite through_cleared, decide_True by done.
  induction (Orm.through m s) as [|p l IH]; [done|].
  rewrite filter_cons. case_decide as Hp.
  - rewrite filter_cons, decide_False by done. exact IH.
  - exact IH.
Qed.

Lemma associations_eq m rid s s' :
  Orm.through m s' = Orm.through m s -> associations m rid s' = associations m rid s.
Proof. unfold associations. by intros ->. Qed.

(** ** Clearing and keeping associations on update *)


(** ** Repeated names in a payload *)


Lemma unambiguous_dedup m auth items s :
  unambiguous m auth items s -> unambiguous m auth (dedup_first items) s.
Proof.
  intros Hun item Hin. apply Hun. clear Hun. revert Hin.
  induction items as [|x l IH]; [done|]. simpl.
  intros [->|Hin]%elem_of_cons; [by left|].
  apply list_elem_of_filter in Hin as [_ Hin]. right. by apply IH.
Qed.


Example repeated_items_dedup :
  dedup_first repeated_items = [ {| item_name := "Vegan" |}; {| item_name := "Thai" |} ].
Proof. reflexivity. Qed.

Example repeated_items_associations :
  recipe_tags (RecipeSerializer._get_or_create_tags 1 repeated_items
                 (sample_recipe 2 1 "Tahini") sample_db).2
  = [(1, 1); (2, 1); (2, 3); (3, 2); (2, 4)].
Proof. reflexivity. Qed.

(** ** Reuse of stored rows, creation of missing ones *)

Lemma prefix_elem_of {A} (l k : list A) x : l `prefix_of` k -> x ∈ l -> x ∈ k.
Proof. intros [k' ->] Hx. apply elem_of_app. by left. Qed.

Lemma reconcile_reused_or_created m auth rid items s s' item :
  reconcile m auth items rid s = (Ok tt, s') ->
  item ∈ items ->
  reused_or_created m auth rid (item_name item) s s'.
Proof.
  intros Hrun Hin.
  destruct (reconcile_ok_settled _ _ _ _ _ _ Hrun item Hin) as (t0 & Hm & Hlink).
  destruct (reconcile_extends _ _ _ _ _ _ _ Hrun) as [Hpre _].
  assert (Ht0 : t0 ∈ Orm.matching auth (item_name item) (rows (Orm.objects m s')))
    by (rewrite Hm; by apply list_elem_of_singleton).
  apply matching_elem in Ht0 as [[Hu0 Hn0] Hin0].
  split.
  - intros t Ht Hu Hn.
    assert (t ∈ Orm.matching auth (item_name item) (rows (Orm.objects m s'))) as Ht'.
    { apply matching_elem. split; [done|]. by eapply prefix_elem_of. }
    rewrite Hm in Ht'. apply list_elem_of_singleton in Ht'. by subst t.
  - intros Hnone. exists t0. split; [done|]. split; [|done].
    intros Hold. by apply (Hnone t0 Hold).
Qed.

Lemma reused_or_created_proper m auth rid n s1 s2 s1' s2' :
  Orm.objects m s1' = Orm.objects m s1 ->
  Orm.objects m s2' = Orm.objects m s2 ->
  Orm.through m s2' = Orm.through m s2 ->
  reused_or_created m auth rid n s1 s2 ->
  reused_or_created m auth rid n s1' s2'.
Proof. unfold reused_or_created. by intros -> -> ->. Qed.

Lemma unambiguous_proper m auth items s s' :
  Orm.objects m s' = Orm.objects m s ->
  unambiguous m auth items s -> unambiguous m auth items s'.
Proof. unfold unambiguous. by intros ->. Qed.

Lemma attr_phase_returns m auth rid field s :
  unambiguous m auth (default [] field) s ->
  exists s', attr_phase m auth rid field s = (Ok tt, s').
Proof.
  destruct field as [items|]; simpl; intros Hun; [|by eexists].
  apply reconcile_returns. eapply unambiguous_proper; [|exact Hun].
  apply objects_cleared.
Qed.

(** With no ambiguous lookup, [create] and [update] return. *)
Lemma create_returns auth user vd s :
  unambiguous Tag auth (default [] (v_tags vd)) s ->
  unambiguous Ingredient auth (default [] (v_ingredients vd)) s ->
  exists r s', RecipeSerializer.create auth user vd s = (Ok r, s').
Proof.
  intros Ht Hi. rewrite create_run. simpl.
  destruct (reconcile_returns Tag auth (next_id (recipes s)) (default [] (v_tags vd))
              (with_recipe user vd s)) as [s2 H2].
  { eapply unambiguous_proper; [|exact Ht]. apply objects_with_recipe. }
  rewrite H2. apply reconcile_frame in H2 as (_ & _ & Hf).
  destruct (Hf Ingredient ltac:(done)) as [Ho _].
  destruct (reconcile_returns Ingredient auth (next_id (recipes s))
              (default [] (v_ingredients vd)) s2) as [s3 H3].
  { eapply unambiguous_proper; [|exact Hi]. by rewrite Ho, objects_with_recipe. }
  rewrite H3. eauto.
Qed.

Lemma update_returns auth instance vd s :
  unambiguous Tag auth (default [] (v_tags vd)) s ->
  unambiguous Ingredient auth (default [] (v_ingredients vd)) s ->
  exists r s', RecipeSerializer.update auth instance vd s = (Ok r, s').
Proof.
  intros Ht Hi. rewrite update_run.
  destruct (attr_phase_returns Tag auth (Recipe.id instance) (v_tags vd) s Ht)
    as [s1 H1].
  rewrite H1. apply attr_phase_frame in H1 as [_ Hf].
  destruct (Hf Ingredient ltac:(done)) as [Ho _].
  destruct (attr_phase_returns Ingredient auth (Recipe.id instance)
              (v_ingredients vd) s1) as [s2 H2].
  { eapply unambiguous_proper; [|exact Hi]. exact Ho. }
  rewrite H2. eauto.
Qed.

Lemma reconciled_tags_reused_or_created auth n s :
  (forall user vd r s',
     RecipeSerializer.create auth user vd s = (Ok r, s') ->
     {| item_name := n |} ∈ default [] (v_tags vd) ->
     reused_or_created Tag auth (Recipe.id r) n s s') /\
  (forall instance vd tags r s',
     RecipeSerializer.update auth instance vd s = (Ok r, s') ->
     v_tags vd = Some tags ->
     {| item_name := n |} ∈ tags ->
     reused_or_created Tag auth (Recipe.id instance) n s s').
Proof.
  split.
  - intros user vd r s' Hrun Hin. rewrite create_run in Hrun. simpl in Hrun.
    destruct (reconcile Tag _ _ _ _) as [[[]|e] s2] eqn:H1; [|done].
    destruct (reconcile Ingredient _ _ _ _) as [[[]|e] s3] eqn:H2; [|done].
    inversion Hrun; subst r s'. clear Hrun.
    apply reconcile_frame in H2 as (_ & _ & Hf).
    destruct (Hf Tag ltac:(done)) as [Ho Ht].
    eapply reused_or_created_proper;
      [apply (objects_with_recipe Tag user vd s) | exact Ho | exact Ht |].
    by apply (reconcile_reused_or_created _ _ _ _ _ _ _ H1 Hin).
  - intros instance vd tags r s' Hrun Htags Hin. rewrite update_run, Htags in Hrun.
    simpl in Hrun.
    destruct (reconcile Tag _ _ _ _) as [[[]|e] s1] eqn:H1; [|done].
    destruct (attr_phase Ingredient _ _ _ _) as [[[]|e] s2] eqn:H2; [|done].
    inversion Hrun; subst r s'. clear Hrun.
    apply attr_phase_frame in H2 as [_ Hf].
    destruct (Hf Tag ltac:(done)) as [Ho Ht].
    eapply reused_or_created_proper;
      [apply (objects_cleared Tag Tag (Recipe.id instance) s) | |
       | apply (reconcile_reused_or_created _ _ _ _ _ _ _ H1 Hin)].
    + by rewrite objects_saved_recipe.
    + by rewrite through_saved_recipe.
Qed.


Example create_reuses_vegan :
  tags (RecipeSerializer.create 1 1 dinner_breakfast_data sample_db).2
  = {| rows := rows (tags sample_db) ++ [sample_attr 4 1 "Breakfast"]; next_id := 5 |}
  /\ recipe_tags (RecipeSerializer.create 1 1 dinner_breakfast_data sample_db).2
     = recipe_tags sample_db ++ [(4, 1); (4, 4)].
Proof. split; reflexivity. Qed.

(** ** Querysets *)

Lemma filter_none {A} (P : A -> Prop) `{forall x, Decision (P x)} (l : list A) :
  (forall x, x ∈ l -> ~ P x) -> filter P l = [].
Proof.
  induction l as [|x l IH]; intros Hno; [done|].
  rewrite filter_cons_False by (apply Hno; left).
  apply IH. intros y Hy. apply Hno. by right.
Qed.

Lemma elem_of_filter_related m ids s qs r :
  r ∈ Orm.filter_related_id_in m ids s qs <->
  r ∈ qs /\ exists a, a ∈ ids /\ (Recipe.id r, a) ∈ Orm.through m s.
Proof.
  unfold Orm.filter_related_id_in. rewrite list_elem_of_bind. split.
  - intros (r' & Hin & Hr'). apply list_elem_of_bind in Hin as ([i a] & Hin & Hp).
    case_decide as Hd; [|by apply elem_of_nil in Hin].
    apply list_elem_of_singleton in Hin. subst r'. simpl in Hd. destruct Hd as [-> Ha].
    eauto.
  - intros (Hr & a & Ha & Hp). exists r. split; [|done].
    apply list_elem_of_bind. exists (Recipe.id r, a). split; [|done].
    rewrite decide_True by done. by apply list_elem_of_singleton.
Qed.

Lemma elem_of_filter_recipe_notnull m s qs a :
  a ∈ Orm.filter_recipe_notnull m s qs <->
  a ∈ qs /\ exists rid, (rid, Attribute.id a) ∈ Orm.through m s.
Proof.
  unfold Orm.filter_recipe_notnull. rewrite list_elem_of_bind. split.
  - intros (a' & Hin & Ha'). apply list_elem_of_bind in Hin as ([i j] & Hin & Hp).
    case_decide as Hd; [|by apply elem_of_nil in Hin].
    apply list_elem_of_singleton in Hin. subst a'. simpl in Hd. subst j. eauto.
  - intros (Ha & rid & Hp). exists a. split; [|done].
    apply list_elem_of_bind. exists (rid, Attribute.id a). split; [|done].
    rewrite decide_True by done. by apply list_elem_of_singleton.
Qed.

Lemma elem_of_order_by_id_desc qs r : r ∈ Orm.order_by_id_desc qs <-> r ∈ qs.
Proof. unfold Orm.order_by_id_desc. by rewrite merge_sort_Permutation. Qed.

Lemma elem_of_order_by_name qs a : a ∈ Orm.order_by_name qs <-> a ∈ qs.
Proof. unfold Orm.order_by_name. by rewrite merge_sort_Permutation. Qed.

Lemma NoDup_order_by_id_desc qs : NoDup qs -> NoDup (Orm.order_by_id_desc qs).
Proof. unfold Orm.order_by_id_desc. by rewrite merge_sort_Permutation. Qed.

Lemma NoDup_order_by_name qs : NoDup qs -> NoDup (Orm.order_by_name qs).
Proof. unfold Orm.order_by_name. by rewrite merge_sort_Permutation. Qed.

(** The list comprehension fails with [ValueError] only, and does so
    exactly when [int] rejects a token. *)
Lemma ints_spec tokens :
  match RecipeViewSet.ints tokens with
  | Ok ns => Forall2 (fun tok n => Py.int tok = Some n) tokens ns
  | Raise e => e = ValueError /\ Exists (fun tok => Py.int tok = None) tokens
  end.
Proof.
  induction tokens as [|tok l IH]; simpl; [constructor|].
  destruct (Py.int tok) as [n|] eqn:Hn.
  - destruct (RecipeViewSet.ints l) as [ns|e]; simpl.
    + by constructor.
    + destruct IH as [-> Hex]. split; [done|]. by apply Exists_cons_tl.
  - split; [done|]. by apply Exists_cons_hd.
Qed.

(** The recipes a user's queryset holds, for whatever filters. *)
Lemma recipe_queryset_cases u qp s :
  if filters_parse qp then
    exists Q, RecipeViewSet.get_queryset u qp s =
                Ok (Orm.order_by_id_desc
                      (Orm.distinct (filter (fun r => Recipe.user r = u) Q))) /\
              forall r, r ∈ Q -> r ∈ rows (recipes s)
  else RecipeViewSet.get_queryset u qp s = Raise ValueError.
Proof.
  unfold filters_parse, id_list_parses, RecipeViewSet.get_queryset.
  assert (Hints : forall v, match RecipeViewSet._params_to_ints v with
                            | Ok _ => True | Raise e => e = ValueError end).
  { intros v. unfold RecipeViewSet._params_to_ints.
    pose proof (ints_spec (Py.split "," v)) as H.
    destruct (RecipeViewSet.ints _); [done|by destruct H]. }
  destruct (Drf.query_get "tags" qp) as [tv|]; [destruct (Py.truthy tv)|];
    (destruct (Drf.query_get "ingredients" qp) as [iv|]; [destruct (Py.truthy iv)|]);
    simpl;
    repeat match goal with
      | |- context [RecipeViewSet._params_to_ints ?v] =>
          let H := fresh in
          pose proof (Hints v) as H;
          destruct (RecipeViewSet._params_to_ints v); [|subst]; simpl
      end;
    try done;
    try (eexists; split; [reflexivity|]; intros r Hr;
         repeat (apply elem_of_filter_related in Hr as [Hr _]); exact Hr).
Qed.

Lemma recipe_queryset_owned u qp s qs r :
  RecipeViewSet.get_queryset u qp s = Ok qs ->
  r ∈ qs -> r ∈ rows (recipes s) /\ Recipe.user r = u.
Proof.
  intros Hqs Hr. pose proof (recipe_queryset_cases u qp s) as Hc.
  destruct (filters_parse qp); [|congruence].
  destruct Hc as (Q & HQ & Hsub). rewrite HQ in Hqs. inversion Hqs; subst qs.
  rewrite elem_of_order_by_id_desc in Hr. unfold Orm.distinct in Hr.
  rewrite elem_of_remove_dups, list_elem_of_filter in Hr. destruct Hr; auto.
Qed.

Lemma attr_queryset_cases m u qp s :
  if assigned_only_parses qp then
    exists Q, BaseRecipeAttributesViewSet.get_queryset m u qp s =
                Ok (Orm.order_by_name
                      (Orm.distinct (filter (fun a => Attribute.user a = u) Q))) /\
              forall a, a ∈ Q -> a ∈ rows (Orm.objects m s)
  else BaseRecipeAttributesViewSet.get_queryset m u qp s = Raise ValueError.
Proof.
  unfold assigned_only_parses, BaseRecipeAttributesViewSet.get_queryset.
  destruct (Drf.query_get "assigned_only" qp) as [v|]; simpl.
  - destruct (Py.int v) as [n|]; simpl.
    + destruct (negb (n =? 0)); eexists; (split; [reflexivity|]); intros a Ha; [|done].
      by apply elem_of_filter_recipe_notnull in Ha as [Ha _].
    + done.
  - by eexists.
Qed.

Lemma attr_queryset_owned m u qp s qs a :
  BaseRecipeAttributesViewSet.get_queryset m u qp s = Ok qs ->
  a ∈ qs -> a ∈ rows (Orm.objects m s) /\ Attribute.user a = u.
Proof.
  intros Hqs Ha. pose proof (attr_queryset_cases m u qp s) as Hc.
  destruct (assigned_only_parses qp); [|congruence].
  destruct Hc as (Q & HQ & Hsub). rewrite HQ in Hqs. inversion Hqs; subst qs.
  rewrite elem_of_order_by_name in Ha. unfold Orm.distinct in Ha.
  rewrite elem_of_remove_dups, list_elem_of_filter in Ha. destruct Ha; auto.
Qed.

(** ** Detail requests on rows of another user *)

Lemma recipe_get_object_foreign s u qp R :
  wf s -> R ∈ rows (recipes s) -> Recipe.user R <> u ->
  RecipeViewSet.get_object u qp (Recipe.id R) s =
    (Raise (if filters_parse qp then Http404 else ValueError), s).
Proof.
  intros (Hr & _) HR Hu. unfold RecipeViewSet.get_object, bind, get, lift.
  pose proof (recipe_queryset_cases u qp s) as Hc.
  destruct (filters_parse qp); [|by rewrite Hc].
  destruct Hc as (Q & HQ & _).
  destruct (RecipeViewSet.get_queryset u qp s) as [qs|e] eqn:Hqs; [|done].
  unfold Drf.get_object_or_404. rewrite filter_none; [done|].
  intros r Hin Hid. destruct (recipe_queryset_owned _ _ _ _ _ Hqs Hin) as [Hrin Hru].
  assert (r = R) as -> by (eapply (NoDup_fmap_eq Recipe.id); [apply Hr|done..]).
  done.
Qed.

Lemma attr_get_object_foreign m s u qp A :
  wf s -> A ∈ rows (Orm.objects m s) -> Attribute.user A <> u ->
  BaseRecipeAttributesViewSet.get_object m u qp (Attribute.id A) s =
    (Raise (if assigned_only_parses qp then Http404 else ValueError), s).
Proof.
  intros (_ & Ho & _) HA Hu. unfold BaseRecipeAttributesViewSet.get_object, bind, get, lift.
  pose proof (attr_queryset_cases m u qp s) as Hc.
  destruct (assigned_only_parses qp); [|by rewrite Hc].
  destruct Hc as (Q & HQ & _).
  destruct (BaseRecipeAttributesViewSet.get_queryset m u qp s) as [qs|e] eqn:Hqs; [|done].
  unfold Drf.get_object_or_404. rewrite filter_none; [done|].
  intros a Hin Hid. destruct (attr_queryset_owned _ _ _ _ _ _ Hqs Hin) as [Hain Hau].
  assert (a = A) as -> by (eapply (NoDup_fmap_eq Attribute.id); [apply (Ho m)|done..]).
  done.
Qed.

Lemma recipe_view_foreign s u qp R c :
  wf s -> R ∈ rows (recipes s) -> Recipe.user R <> u ->
  recipe_detail_call (Recipe.id R) c ->
  RecipeViewSet.view (request u qp c) s =
    (Drf.handle_exception (if filters_parse qp then Http404 else ValueError), s).
Proof.
  intros Hwf HR Hu Hc.
  pose proof (recipe_get_object_foreign s u qp R Hwf HR Hu) as Hget.
  unfold RecipeViewSet.view, Drf.dispatch, request. simpl.
  destruct c as [| |pk|pk d|pk d|pk|pk d|]; simpl in Hc; try done; subst pk; simpl;
    unfold RecipeViewSet.retrieve, RecipeViewSet.update, RecipeViewSet.destroy,
      RecipeViewSet.upload_image;
    by erewrite bind_raise by exact Hget.
Qed.

Lemma attr_view_foreign m s u qp A c :
  wf s -> A ∈ rows (Orm.objects m s) -> Attribute.user A <> u ->
  attr_write_call (Attribute.id A) c ->
  BaseRecipeAttributesViewSet.view m (request u qp c) s =
    (Drf.handle_exception (if assigned_only_parses qp then Http404 else ValueError), s).
Proof.
  intros Hwf HA Hu Hc.
  pose proof (attr_get_object_foreign m s u qp A Hwf HA Hu) as Hget.
  unfold BaseRecipeAttributesViewSet.view, Drf.dispatch, request. simpl.
  destruct c as [|d|pk|pk d|pk d|pk]; simpl in Hc; try done; subst pk; simpl;
    unfold BaseRecipeAttributesViewSet.update, BaseRecipeAttributesViewSet.destroy;
    by erewrite bind_raise by exact Hget.
Qed.

(** C1, as the code has it: a detail request on a recipe of another
    user (retrieve, update, partial update, delete, image upload) changes
    nothing and is answered 404 whenever the [tags] and [ingredients] query
    parameters are usable, and 500 otherwise; the same holds for the update
    and delete requests on a tag or ingredient of another user, with the
    [assigned_only] parameter; in no case is the answer 403.  The tag and
    ingredient views have no retrieve action: a GET on their detail route
    is answered 405, whoever owns the row. *)
Theorem foreign_detail_request_not_found s u :
  wf s ->
  (forall R qp c,
     R ∈ rows (recipes s) -> Recipe.user R <> u ->
     recipe_detail_call (Recipe.id R) c ->
     (RecipeViewSet.view (request u qp c) s).2 = s /\
     status (RecipeViewSet.view (request u qp c) s).1 <> HTTP_403_FORBIDDEN /\
     status (RecipeViewSet.view (request u qp c) s).1 =
       if filters_parse qp then HTTP_404_NOT_FOUND
       else HTTP_500_INTERNAL_SERVER_ERROR) /\
  (forall m A qp c,
     A ∈ rows (Orm.objects m s) -> Attribute.user A <> u ->
     attr_write_call (Attribute.id A) c ->
     (BaseRecipeAttributesViewSet.view m (request u qp c) s).2 = s /\
     status (BaseRecipeAttributesViewSet.view m (request u qp c) s).1
       <> HTTP_403_FORBIDDEN /\
     status (BaseRecipeAttributesViewSet.view m (request u qp c) s).1 =
       if assigned_only_parses qp then HTTP_404_NOT_FOUND
       else HTTP_500_INTERNAL_SERVER_ERROR) /\
  (forall m qp pk,
     BaseRecipeAttributesViewSet.view m
       (request u qp (BaseRecipeAttributesViewSet.GetDetail pk)) s =
     ({| data := ErrorData; status := HTTP_405_METHOD_NOT_ALLOWED |}, s)).
Proof.
  intros Hwf. repeat split.
  - by rewrite (recipe_view_foreign s u qp R c).
  - rewrite (recipe_view_foreign s u qp R c) by done.
    by destruct (filters_parse qp).
  - rewrite (recipe_view_foreign s u qp R c) by done.
    by destruct (filters_parse qp).
  - by rewrite (attr_view_foreign m s u qp A c).
  - rewrite (attr_view_foreign m s u qp A c) by done.
    by destruct (assigned_only_parses qp).
  - rewrite (attr_view_foreign m s u qp A c) by done.
    by destruct (assigned_only_parses qp).
Qed.

(** Closes a decidable goal on concrete data by evaluation. *)
Ltac by_decide :=
  match goal with
  | |- ?P => apply (@bool_decide_unpack P _); vm_compute; exact I
  end.

Lemma sample_db_wf : wf sample_db.
Proof.
  split; [|split].
  - split; by_decide.
  - intros []; split; by_decide.
  - intros []; by_decide.
Qed.

Lemma foreign_detail_request_not_found_witness :
  status (RecipeViewSet.view (request 1 [] (RecipeViewSet.GetDetail 3)) sample_db).1
    = HTTP_404_NOT_FOUND /\
  status (TagViewSet (request 1 [] (BaseRecipeAttributesViewSet.DeleteDetail 2))
            sample_db).1 = HTTP_404_NOT_FOUND.
Proof.
  destruct (foreign_detail_request_not_found sample_db 1 sample_db_wf) as (Hr & Ha & _).
  split.
  - refine (proj2 (proj2 (Hr (sample_recipe 3 2 "Fish") [] (RecipeViewSet.GetDetail 3)
                            _ _ _))).
    + by_decide.
    + by_decide.
    + reflexivity.
  - refine (proj2 (proj2 (Ha Tag (sample_attr 2 2 "Vegan") []
                            (BaseRecipeAttributesViewSet.DeleteDetail 2) _ _ _))).
    + by_decide.
    + by_decide.
    + reflexivity.
Defined.

(** C1 as stated fails for the read of a tag: user 1 reads tag 2, which
    user 2 owns, and is answered 405, not 404. *)
Lemma foreign_tag_read_is_method_not_allowed :
  sample_attr 2 2 "Vegan" ∈ rows (tags sample_db) /\
  Attribute.user (sample_attr 2 2 "Vegan") <> 1 /\
  status (TagViewSet (request 1 [] (BaseRecipeAttributesViewSet.GetDetail 2))
            sample_db).1 = HTTP_405_METHOD_NOT_ALLOWED /\
  status (TagViewSet (request 1 [] (BaseRecipeAttributesViewSet.GetDetail 2))
            sample_db).1 <> HTTP_404_NOT_FOUND.
Proof.
  split; [by_decide|]. split; [by_decide|].
  split; [reflexivity|]. by_decide.
Qed.

(** A detail request with an unusable filter parameter ends as a server
    error before the lookup. *)
Example foreign_recipe_read_bad_filter :
  status (RecipeViewSet.view
            (request 1 [("tags", "x")]%string (RecipeViewSet.GetDetail 3)) sample_db).1
  = HTTP_500_INTERNAL_SERVER_ERROR.
Proof. reflexivity. Qed.

(** ** Unusable id lists *)

Lemma non_numeric_token_raises v :
  has_non_numeric_token v -> RecipeViewSet._params_to_ints v = Raise ValueError.
Proof.
  unfold has_non_numeric_token, RecipeViewSet._params_to_ints. intros Hex.
  pose proof (ints_spec (Py.split "," v)) as Hspec.
  destruct (RecipeViewSet.ints (Py.split "," v)) as [ns|e].
  - exfalso. revert Hex. induction Hspec as [|tok n l ns Hn _ IH]; intros Hex.
    + by apply Exists_nil in Hex.
    + apply Exists_cons in Hex as [Hex|Hex]; [congruence|by apply IH].
  - by destruct Hspec as [-> _].
Qed.

Lemma recipe_list_unparsable s u qp :
  filters_parse qp = false ->
  RecipeViewSet.view (request u qp RecipeViewSet.GetList) s =
    ({| data := ErrorData; status := HTTP_500_INTERNAL_SERVER_ERROR |}, s).
Proof.
  intros Hp. pose proof (recipe_queryset_cases u qp s) as Hc. rewrite Hp in Hc.
  unfold RecipeViewSet.view, Drf.dispatch, request. simpl.
  unfold RecipeViewSet.list_, bind, get, lift. by rewrite Hc.
Qed.

(** C8, as the code has it: when the [tags] or the [ingredients] query
    parameter of a recipe listing is non-empty and holds a token that
    [int] rejects, the [ValueError] leaves the view unhandled: the request
    ends as a server error (500), which is not a client error, and the
    store is unchanged. *)
Theorem non_numeric_id_list_is_server_error s u qp key v :
  key = "tags"%string \/ key = "ingredients"%string ->
  Drf.query_get key qp = Some v ->
  Py.truthy v = true ->
  has_non_numeric_token v ->
  RecipeViewSet.view (request u qp RecipeViewSet.GetList) s =
    ({| data := ErrorData; status := HTTP_500_INTERNAL_SERVER_ERROR |}, s) /\
  ~ is_client_error (status (RecipeViewSet.view (request u qp RecipeViewSet.GetList) s).1).
Proof.
  intros Hkey Hget Htruthy Htok.
  assert (Hp : filters_parse qp = false).
  { unfold filters_parse. apply non_numeric_token_raises in Htok.
    destruct Hkey as [-> | ->]; rewrite Hget; simpl; rewrite Htruthy, Htok; simpl.
    - done.
    - apply andb_false_r. }
  rewrite (recipe_list_unparsable s u qp Hp). split; [done|].
  unfold is_client_error, HTTP_500_INTERNAL_SERVER_ERROR. simpl. lia.
Qed.

Lemma non_numeric_id_list_is_server_error_witness :
  RecipeViewSet.view (request 1 [("ingredients", "1,salt")]%string RecipeViewSet.GetList)
    sample_db =
  ({| data := ErrorData; status := HTTP_500_INTERNAL_SERVER_ERROR |}, sample_db).
Proof.
  refine (proj1 (non_numeric_id_list_is_server_error sample_db 1
                   [("ingredients", "1,salt")]%string "ingredients" "1,salt" _ _ _ _)).
  - by right.
  - reflexivity.
  - reflexivity.
  - by_decide.
Defined.

(** C8 as stated fails: the listing with [tags=abc] is answered 500. *)
Lemma non_numeric_tags_not_client_error :
  has_non_numeric_token "abc" /\
  status (RecipeViewSet.view (request 1 [("tags", "abc")]%string RecipeViewSet.GetList)
            sample_db).1 = HTTP_500_INTERNAL_SERVER_ERROR /\
  ~ is_client_error
      (status (RecipeViewSet.view (request 1 [("tags", "abc")]%string RecipeViewSet.GetList)
                 sample_db).1).
Proof.
  split; [by_decide|]. split; [reflexivity|].
  unfold is_client_error. simpl. unfold HTTP_500_INTERNAL_SERVER_ERROR. lia.
Qed.

(** An empty parameter is not parsed at all. *)
Example empty_tags_parameter_ignored :
  status (RecipeViewSet.view (request 1 [("tags", EmptyString)]%string RecipeViewSet.GetList)
            sample_db).1 = HTTP_200_OK.
Proof. reflexivity. Qed.

(** ** The ownership invariant under the recipe requests *)

Lemma table_wf_ids {Row} (pk : Row -> Z) (t : Table Row) :
  table_wf pk t <->
  NoDup (pk <$> rows t) /\ Forall (fun i => i < next_id t) (pk <$> rows t).
Proof. unfold table_wf. by rewrite Forall_fmap. Qed.

Lemma saved_recipe_ids r s :
  Recipe.id <$> rows (recipes (Orm.saved_recipe r s)) = Recipe.id <$> rows (recipes s).
Proof.
  unfold Orm.saved_recipe. simpl. rewrite <- list_fmap_compose.
  apply list_fmap_ext. intros i x _. simpl. by case_decide.
Qed.

Lemma elem_of_saved_recipe r s x :
  x ∈ rows (recipes (Orm.saved_recipe r s)) ->
  x ∈ rows (recipes s) \/ (x = r /\ exists y, y ∈ rows (recipes s) /\ Recipe.id y = Recipe.id r).
Proof.
  unfold Orm.saved_recipe. simpl. intros (y & -> & Hy)%list_elem_of_fmap.
  case_decide; [right|left]; eauto.
Qed.

Lemma saved_recipe_consistent r0 r s :
  consistent s -> r0 ∈ rows (recipes s) ->
  Recipe.id r = Recipe.id r0 -> Recipe.user r = Recipe.user r0 ->
  consistent (Orm.saved_recipe r s).
Proof.
  intros [(Hr & Ho & Ht) Hso] Hr0 Hid Hu. split; [split; [|split]|].
  - apply table_wf_ids. rewrite saved_recipe_ids. apply table_wf_ids in Hr. exact Hr.
  - intros m. rewrite objects_saved_recipe. apply Ho.
  - intros m. unfold through_wf.
    rewrite through_saved_recipe, objects_saved_recipe, saved_recipe_ids. apply Ht.
  - intros m x a Hx Ha Hp.
    rewrite objects_saved_recipe in Ha. rewrite through_saved_recipe in Hp.
    apply elem_of_saved_recipe in Hx as [Hx|[-> (y & Hy & Hyid)]]; [by eapply Hso|].
    assert (y = r0) as ->.
    { eapply (NoDup_fmap_eq Recipe.id); [apply Hr|done..|congruence]. }
    rewrite Hu. eapply Hso; [exact Hr0|exact Ha|]. by rewrite <- Hid.
Qed.

Lemma cleared_consistent m rid s : consistent s -> consistent (Orm.cleared m rid s).
Proof.
  intros [(Hr & Ho & Ht) Hso]. split; [split; [|split]|].
  - by rewrite recipes_cleared.
  - intros m'. rewrite objects_cleared. apply Ho.
  - intros m'. unfold through_wf. rewrite recipes_cleared, objects_cleared, through_cleared.
    case_decide; [|apply Ht]. apply Forall_forall. intros p [_ Hp]%list_elem_of_filter.
    pose proof (Ht m') as Hfk. by eapply Forall_forall in Hfk.
  - intros m' r a Hrin Hain Hp.
    rewrite recipes_cleared in Hrin. rewrite objects_cleared in Hain.
    rewrite through_cleared in Hp. eapply Hso; [done..|].
    case_decide; [|done]. by apply list_elem_of_filter in Hp as [_ Hp].
Qed.

Lemma cleared_owns m u rid rid' s : owns u rid s -> owns u rid (Orm.cleared m rid' s).
Proof. unfold owns. by rewrite recipes_cleared. Qed.

Lemma with_recipe_consistent user vd s :
  consistent s ->
  consistent (with_recipe user vd s) /\
  owns user (next_id (recipes s)) (with_recipe user vd s).
Proof.
  intros [(Hr & Ho & Ht) Hso]. split; [split; [split; [|split]|]|].
  - destruct Hr as [Hnd Hlt]. unfold with_recipe. split; simpl.
    + rewrite fmap_app. apply NoDup_app. split; [done|]. split; [|apply NoDup_singleton].
      intros x Hx Hx'. apply list_elem_of_singleton in Hx'. subst x.
      apply list_elem_of_fmap in Hx as (r & Hid & Hin).
      eapply Forall_forall in Hlt; [|exact Hin]. simpl in Hid. lia.
    + apply Forall_app. split.
      * eapply Forall_impl; [exact Hlt|]. simpl. intros; lia.
      * apply Forall_singleton. simpl. lia.
  - intros m. rewrite objects_with_recipe. apply Ho.
  - intros m. unfold through_wf. rewrite through_with_recipe, objects_with_recipe.
    eapply Forall_impl; [apply (Ht m)|]. simpl. intros p [Hp1 Hp2]. split; [|done].
    unfold with_recipe. simpl. rewrite fmap_app. apply elem_of_app. by left.
  - intros m r a Hrin Hain Hp.
    rewrite objects_with_recipe in Hain. rewrite through_with_recipe in Hp.
    unfold with_recipe in Hrin. simpl in Hrin.
    apply elem_of_app in Hrin as [Hrin|Hrin]; [by eapply Hso|].
    apply list_elem_of_singleton in Hrin. subst r. exfalso.
    pose proof (Ht m) as Hfk. eapply Forall_forall in Hfk; [|exact Hp].
    destruct Hfk as [Hfk _]. simpl in Hfk.
    apply list_elem_of_fmap in Hfk as (r & Hid & Hin).
    pose proof (table_wf_lt _ _ _ Hr Hin). lia.
  - exists (inserted_recipe user vd s). split; [|done].
    unfold with_recipe. simpl. apply elem_of_app. right. by apply list_elem_of_singleton.
Qed.

Lemma create_consistent auth vd s :
  consistent s -> consistent (RecipeSerializer.create auth auth vd s).2.
Proof.
  intros Hc. rewrite create_run. simpl.
  pose proof (with_recipe_consistent auth vd s Hc) as H0.
  destruct (reconcile Tag _ _ _ _) as [r1 s1] eqn:H1.
  apply (reconcile_keeps_consistent _ _ _ _ _ _ _ H0) in H1.
  destruct r1 as [[]|e]; [|apply H1].
  destruct (reconcile Ingredient _ _ _ _) as [r2 s2] eqn:H2.
  apply (reconcile_keeps_consistent _ _ _ _ _ _ _ H1) in H2.
  destruct r2 as [[]|e]; apply H2.
Qed.

Lemma attr_phase_consistent m auth rid field s r s' :
  consistent s /\ owns auth rid s ->
  attr_phase m auth rid field s = (r, s') ->
  consistent s' /\ owns auth rid s'.
Proof.
  intros [Hc Ho]. destruct field as [items|]; simpl.
  - apply reconcile_keeps_consistent. split; [by apply cleared_consistent|].
    by apply cleared_owns.
  - intros H. by inversion H; subst.
Qed.

Lemma update_consistent auth instance vd s :
  consistent s -> instance ∈ rows (recipes s) -> Recipe.user instance = auth ->
  consistent (RecipeSerializer.update auth instance vd s).2.
Proof.
  intros Hc Hin Hu. rewrite update_run.
  assert (H0 : consistent s /\ owns auth (Recipe.id instance) s)
    by (split; [done|by exists instance]).
  destruct (attr_phase Tag _ _ _ _) as [r1 s1] eqn:H1.
  pose proof (attr_phase_frame _ _ _ _ _ _ _ H1) as [Hr1 _].
  apply (attr_phase_consistent _ _ _ _ _ _ _ H0) in H1.
  destruct r1 as [[]|e]; [|apply H1].
  destruct (attr_phase Ingredient _ _ _ _) as [r2 s2] eqn:H2.
  pose proof (attr_phase_frame _ _ _ _ _ _ _ H2) as [Hr2 _].
  apply (attr_phase_consistent _ _ _ _ _ _ _ H1) in H2.
  destruct r2 as [[]|e]; [|apply H2]. simpl.
  eapply (saved_recipe_consistent instance); [apply H2| |done..].
  by rewrite Hr2, Hr1.
Qed.

Lemma table_wf_filter {Row} (pk : Row -> Z) (P : Row -> Prop)
    `{forall x, Decision (P x)} (t : Table Row) :
  table_wf pk t -> table_wf pk {| rows := filter P (rows t); next_id := next_id t |}.
Proof.
  intros [Hnd Hlt]. split; simpl.
  - apply NoDup_fmap_2_strong.
    + intros x y [_ Hx]%list_elem_of_filter [_ Hy]%list_elem_of_filter Hxy.
      by eapply (NoDup_fmap_eq pk (rows t)).
    + apply NoDup_filter. by eapply NoDup_fmap_1.
  - apply Forall_forall. intros x [_ Hx]%list_elem_of_filter.
    by eapply Forall_forall in Hlt.
Qed.

Lemma deleted_recipe_consistent r s : consistent s -> consistent (Orm.deleted_recipe r s).
Proof.
  intros Hc. unfold Orm.deleted_recipe.
  pose proof (cleared_consistent Ingredient (Recipe.id r) _
                (cleared_consistent Tag (Recipe.id r) s Hc)) as [(Hr & Ho & Ht) Hso].
  set (s2 := Orm.cleared Ingredient (Recipe.id r) (Orm.cleared Tag (Recipe.id r) s)) in *.
  assert (Hgone : forall m p, p ∈ Orm.through m s2 -> p.1 <> Recipe.id r).
  { intros m p Hp. unfold s2 in Hp. rewrite !through_cleared in Hp.
    destruct m; simpl in Hp; by apply list_elem_of_filter in Hp as [? _]. }
  split; [split; [|split]|].
  - by apply table_wf_filter.
  - intros m. rewrite objects_set_recipes. apply Ho.
  - intros m. unfold through_wf. rewrite through_set_recipes, objects_set_recipes. simpl.
    apply Forall_forall. intros p Hp.
    pose proof (Ht m) as Hfk. eapply Forall_forall in Hfk as [Hp1 Hp2]; [|exact Hp].
    split; [|done]. apply list_elem_of_fmap in Hp1 as (x & Hx & Hin).
    apply list_elem_of_fmap. exists x. split; [done|].
    apply list_elem_of_filter. split; [|done]. rewrite <- Hx. by eapply Hgone.
  - intros m x a Hx Ha Hp.
    rewrite objects_set_recipes in Ha. rewrite through_set_recipes in Hp. simpl in Hx.
    apply list_elem_of_filter in Hx as [_ Hx]. by eapply Hso.
Qed.

(** [get_object] reads only, and what it returns is a recipe of the user. *)
Lemma recipe_get_object_spec u qp pk s :
  match RecipeViewSet.get_object u qp pk s with
  | (Ok r, s') => s' = s /\ r ∈ rows (recipes s) /\ Recipe.user r = u /\ Recipe.id r = pk
  | (Raise _, s') => s' = s
  end.
Proof.
  unfold RecipeViewSet.get_object, bind, get, lift.
  destruct (RecipeViewSet.get_queryset u qp s) as [qs|e] eqn:Hqs; [|done].
  unfold Drf.get_object_or_404.
  destruct (filter _ qs) as [|r [|r' l]] eqn:Hf; [done| |done].
  assert (Hr : r ∈ filter (fun r => Recipe.id r = pk) qs)
    by (rewrite Hf; by apply list_elem_of_singleton).
  apply list_elem_of_filter in Hr as [Hid Hr].
  destruct (recipe_queryset_owned _ _ _ _ _ Hqs Hr). done.
Qed.

Lemma recipe_handler_consistent u qp c s :
  consistent s -> consistent (RecipeViewSet.handler u qp c s).2.
Proof.
  intros Hc. destruct c as [|d|pk|pk d|pk d|pk|pk d|]; simpl.
  - unfold RecipeViewSet.list_, bind, get, lift.
    by destruct (RecipeViewSet.get_queryset u qp s).
  - destruct d as [|vd]; [done|]. simpl. unfold RecipeViewSet.perform_create, bind.
    pose proof (create_consistent u vd s Hc) as H.
    by destruct (RecipeSerializer.create u u vd s) as [[r|e] s'].
  - unfold RecipeViewSet.retrieve, bind.
    pose proof (recipe_get_object_spec u qp pk s) as H.
    destruct (RecipeViewSet.get_object u qp pk s) as [[r|e] s']; simpl;
      [destruct H as [-> _]|subst s']; done.
  - unfold RecipeViewSet.update, bind.
    pose proof (recipe_get_object_spec u qp pk s) as H.
    destruct (RecipeViewSet.get_object u qp pk s) as [[r|e] s']; simpl;
      [destruct H as (-> & Hin & Hu & _)|by subst s'].
    destruct d as [|vd]; [done|].
    pose proof (update_consistent u r vd s Hc Hin Hu) as H.
    by destruct (RecipeSerializer.update u r vd s) as [[r'|e] s'].
  - unfold RecipeViewSet.update, bind.
    pose proof (recipe_get_object_spec u qp pk s) as H.
    destruct (RecipeViewSet.get_object u qp pk s) as [[r|e] s']; simpl;
      [destruct H as (-> & Hin & Hu & _)|by subst s'].
    destruct d as [|vd]; [done|].
    pose proof (update_consistent u r vd s Hc Hin Hu) as H.
    by destruct (RecipeSerializer.update u r vd s) as [[r'|e] s'].
  - unfold RecipeViewSet.destroy, bind.
    pose proof (recipe_get_object_spec u qp pk s) as H.
    destruct (RecipeViewSet.get_object u qp pk s) as [[r|e] s']; simpl;
      [destruct H as (-> & Hin & Hu & _)|by subst s'].
    by apply deleted_recipe_consistent.
  - unfold RecipeViewSet.upload_image, bind.
    pose proof (recipe_get_object_spec u qp pk s) as H.
    destruct (RecipeViewSet.get_object u qp pk s) as [[r|e] s']; simpl;
      [destruct H as (-> & Hin & Hu & _)|by subst s'].
    destruct d as [|vd]; [done|]. simpl.
    by apply (saved_recipe_consistent r).
  - done.
Qed.

(** C4: every request to the recipe views, and so every create and every
    update, takes a well-formed store in which each tag and ingredient
    associated with a recipe has the recipe's owner to a store that is
    again so. *)
Theorem recipe_requests_keep_same_owner req s :
  wf s -> same_owner s ->
  wf (RecipeViewSet.view req s).2 /\ same_owner (RecipeViewSet.view req s).2.
Proof.
  intros Hwf Hso. unfold RecipeViewSet.view, Drf.dispatch.
  destruct (user req) as [u|]; [|by split].
  pose proof (recipe_handler_consistent u (query_params req) (call req) s
                (conj Hwf Hso)) as H.
  by destruct (RecipeViewSet.handler u (query_params req) (call req) s) as [[r|e] s'].
Qed.

Lemma same_owner_Forall s :
  (forall m,
     Forall (fun r =>
               Forall (fun a => (Recipe.id r, Attribute.id a) ∈ Orm.through m s ->
                                Attribute.user a = Recipe.user r)
                      (rows (Orm.objects m s)))
            (rows (recipes s))) ->
  same_owner s.
Proof.
  intros H m r a Hr Ha. specialize (H m).
  eapply Forall_forall in H; [|exact Hr]. by eapply Forall_forall in H.
Qed.

Lemma sample_db_same_owner : same_owner sample_db.
Proof. apply same_owner_Forall. intros []; by_decide. Qed.

Lemma recipe_requests_keep_same_owner_witness :
  same_owner
    (RecipeViewSet.view
       (request 2 [] (RecipeViewSet.PostList (Valid dinner_breakfast_data)))
       sample_db).2.
Proof.
  exact (proj2 (recipe_requests_keep_same_owner
                  (request 2 [] (RecipeViewSet.PostList (Valid dinner_breakfast_data)))
                  sample_db sample_db_wf sample_db_same_owner)).
Defined.

(** ** Listings *)

Lemma attr_representation_inj (l : list Attribute.t) x y :
  NoDup (Attribute.id <$> l) -> x ∈ l -> y ∈ l ->
  AttrSerializer.to_representation x = AttrSerializer.to_representation y -> x = y.
Proof.
  intros Hnd Hx Hy Heq. eapply (NoDup_fmap_eq Attribute.id); [done..|].
  by injection Heq.
Qed.

Lemma through_recipe_exists m s rid aid :
  wf s -> (rid, aid) ∈ Orm.through m s ->
  exists r, r ∈ rows (recipes s) /\ Recipe.id r = rid.
Proof.
  intros (_ & _ & Ht) Hp. pose proof (Ht m) as Hfk.
  eapply Forall_forall in Hfk as [Hr _]; [|exact Hp]. simpl in Hr.
  apply list_elem_of_fmap in Hr as (r & -> & Hr). eauto.
Qed.

(** C6: with [assigned_only=1] the listing of tags (of ingredients) is
    answered 200 with the representations of exactly those rows of the
    user that some recipe, of whatever owner, is associated with; no row
    and no representation occurs twice. *)
Theorem assigned_only_lists_assigned_items_once m s u qp :
  wf s ->
  Drf.query_get "assigned_only" qp = Some "1"%string ->
  exists items,
    BaseRecipeAttributesViewSet.view m
      (request u qp BaseRecipeAttributesViewSet.GetList) s =
      ({| data := AttrListData (AttrSerializer.to_representation <$> items);
          status := HTTP_200_OK |}, s) /\
    NoDup items /\
    NoDup (AttrSerializer.to_representation <$> items) /\
    forall a,
      a ∈ items <->
      a ∈ rows (Orm.objects m s) /\ Attribute.user a = u /\
      exists r, r ∈ rows (recipes s) /\
                (Recipe.id r, Attribute.id a) ∈ Orm.through m s.
Proof.
  intros Hwf Hqp.
  set (items := Orm.order_by_name
                  (Orm.distinct
                     (filter (fun a => Attribute.user a = u)
                        (Orm.filter_recipe_notnull m s (rows (Orm.objects m s)))))).
  assert (Hmem : forall a,
            a ∈ items <->
            a ∈ rows (Orm.objects m s) /\ Attribute.user a = u /\
            exists r, r ∈ rows (recipes s) /\
                      (Recipe.id r, Attribute.id a) ∈ Orm.through m s).
  { intros a. unfold items, Orm.distinct.
    rewrite elem_of_order_by_name, elem_of_remove_dups, list_elem_of_filter,
      elem_of_filter_recipe_notnull.
    split.
    - intros (Hu & Ha & rid & Hp).
      destruct (through_recipe_exists m s rid _ Hwf Hp) as (r & Hr & <-). eauto.
    - intros (Ha & Hu & r & Hr & Hp). eauto. }
  assert (Hnd : NoDup items).
  { unfold items, Orm.distinct. apply NoDup_order_by_name, NoDup_remove_dups. }
  exists items. split; [|split; [done|split; [|done]]].
  - unfold BaseRecipeAttributesViewSet.view, Drf.dispatch, request. simpl.
    unfold BaseRecipeAttributesViewSet.list_, bind, get, lift,
      BaseRecipeAttributesViewSet.get_queryset.
    rewrite Hqp. reflexivity.
  - apply NoDup_fmap_2_strong; [|done]. intros x y Hx Hy.
    apply (attr_representation_inj (rows (Orm.objects m s))).
    + destruct Hwf as (_ & Ho & _). apply (Ho m).
    + by apply Hmem in Hx as [? _].
    + by apply Hmem in Hy as [? _].
Qed.

Lemma assigned_only_lists_assigned_items_once_witness :
  exists items,
    TagViewSet (request 1 [("assigned_only", "1")]%string
                  BaseRecipeAttributesViewSet.GetList) sample_db =
      ({| data := AttrListData (AttrSerializer.to_representation <$> items);
          status := HTTP_200_OK |}, sample_db) /\
    NoDup items.
Proof.
  destruct (assigned_only_lists_assigned_items_once Tag sample_db 1
              [("assigned_only", "1")]%string sample_db_wf eq_refl)
    as (items & Hview & Hnd & _).
  exists items. split; [exact Hview|exact Hnd].
Defined.

(** Tag 1 is assigned to recipes 1 and 2 and is listed once; the order
    is by name. *)
Example assigned_only_sample :
  (TagViewSet (request 1 [("assigned_only", "1")]%string
                 BaseRecipeAttributesViewSet.GetList) sample_db).1 =
  {| data := AttrListData [ {| repr_id := 3; repr_name := "Dessert" |};
                            {| repr_id := 1; repr_name := "Vegan" |} ];
     status := HTTP_200_OK |}.
Proof. reflexivity. Qed.

Lemma params_to_ints_ok_truthy v ns :
  RecipeViewSet._params_to_ints v = Ok ns -> Py.truthy v = true.
Proof. by destruct v. Qed.

Lemma recipe_representation_id s (l : list Recipe.t) :
  repr_recipe_id <$> (RecipeSerializer.to_representation s <$> l) = Recipe.id <$> l.
Proof. rewrite <- list_fmap_compose. by apply list_fmap_ext. Qed.

(** A recipe listing whose [tags] parameter reads as the two ids [id1]
    and [id2], however it spells them, and that has no [ingredients]
    parameter. *)
Lemma recipe_list_by_tag_ids s u qp v id1 id2 :
  wf s ->
  Drf.query_get "tags" qp = Some v ->
  RecipeViewSet._params_to_ints v = Ok [id1; id2] ->
  Drf.query_get "ingredients" qp = None ->
  exists rs,
    RecipeViewSet.view (request u qp RecipeViewSet.GetList) s =
      ({| data := RecipeListData (RecipeSerializer.to_representation s <$> rs);
          status := HTTP_200_OK |}, s) /\
    NoDup rs /\
    NoDup (repr_recipe_id <$> (RecipeSerializer.to_representation s <$> rs)) /\
    forall r,
      r ∈ rs <->
      r ∈ rows (recipes s) /\ Recipe.user r = u /\
      ((Recipe.id r, id1) ∈ recipe_tags s \/ (Recipe.id r, id2) ∈ recipe_tags s).
Proof.
  intros Hwf Htags Hints Hings.
  set (rs := Orm.order_by_id_desc
               (Orm.distinct
                  (filter (fun r => Recipe.user r = u)
                     (Orm.filter_related_id_in Tag [id1; id2] s (rows (recipes s)))))).
  assert (Hmem : forall r,
            r ∈ rs <->
            r ∈ rows (recipes s) /\ Recipe.user r = u /\
            ((Recipe.id r, id1) ∈ recipe_tags s \/ (Recipe.id r, id2) ∈ recipe_tags s)).
  { intros r. unfold rs, Orm.distinct.
    rewrite elem_of_order_by_id_desc, elem_of_remove_dups, list_elem_of_filter,
      elem_of_filter_related.
    change (Orm.through Tag s) with (recipe_tags s). split.
    - intros (Hu & Hr & a & Ha & Hp).
      apply elem_of_cons in Ha as [->|Ha]; [by auto|].
      apply list_elem_of_singleton in Ha as ->. by auto.
    - intros (Hr & Hu & [Hp|Hp]); (split; [done|]); (split; [done|]).
      + exists id1. split; [by left|done].
      + exists id2. split; [right; by left|done]. }
  assert (Hnd : NoDup rs).
  { unfold rs, Orm.distinct. apply NoDup_order_by_id_desc, NoDup_remove_dups. }
  exists rs. split; [|split; [done|split; [|done]]].
  - unfold RecipeViewSet.view, Drf.dispatch, request. simpl.
    unfold RecipeViewSet.list_, bind, get, lift, RecipeViewSet.get_queryset.
    rewrite Htags, Hings, (params_to_ints_ok_truthy _ _ Hints), Hints. reflexivity.
  - rewrite recipe_representation_id. apply NoDup_fmap_2_strong; [|done].
    intros x y Hx Hy. apply (NoDup_fmap_eq Recipe.id (rows (recipes s))).
    + destruct Hwf as (Hr & _). apply Hr.
    + by apply Hmem in Hx as [? _].
    + by apply Hmem in Hy as [? _].
Qed.

(** C7: the recipe listing with [tags=<id1>,<id2>] (and no
    [ingredients] parameter) is answered 200 with the representations of
    exactly the user's recipes that are associated with tag [id1] or with
    tag [id2]; no recipe and no recipe id occurs twice. *)
Theorem tags_filter_lists_union_once s u qp id1 id2 :
  wf s ->
  Drf.query_get "tags" qp = Some (Py.str id1 +:+ "," +:+ Py.str id2) ->
  Drf.query_get "ingredients" qp = None ->
  exists rs,
    RecipeViewSet.view (request u qp RecipeViewSet.GetList) s =
      ({| data := RecipeListData (RecipeSerializer.to_representation s <$> rs);
          status := HTTP_200_OK |}, s) /\
    NoDup rs /\
    NoDup (repr_recipe_id <$> (RecipeSerializer.to_representation s <$> rs)) /\
    forall r,
      r ∈ rs <->
      r ∈ rows (recipes s) /\ Recipe.user r = u /\
      ((Recipe.id r, id1) ∈ recipe_tags s \/ (Recipe.id r, id2) ∈ recipe_tags s).
Proof.
  intros Hwf Htags Hings.
  apply (recipe_list_by_tag_ids s u qp _ id1 id2 Hwf Htags); [|done].
  apply params_to_ints_str.
Qed.

Lemma tags_filter_lists_union_once_witness :
  exists rs,
    RecipeViewSet.view (request 1 [("tags", "1,3")]%string RecipeViewSet.GetList)
      sample_db =
      ({| data := RecipeListData (RecipeSerializer.to_representation sample_db <$> rs);
          status := HTTP_200_OK |}, sample_db) /\
    NoDup rs /\
    forall r,
      r ∈ rs <->
      r ∈ rows (recipes sample_db) /\ Recipe.user r = 1 /\
      ((Recipe.id r, 1) ∈ recipe_tags sample_db \/
       (Recipe.id r, 3) ∈ recipe_tags sample_db).
Proof.
  destruct (tags_filter_lists_union_once sample_db 1 [("tags", "1,3")]%string
              1 3 sample_db_wf eq_refl eq_refl)
    as (rs & Hview & Hnd & _ & Hmem).
  exists rs. split; [exact Hview|]. split; [exact Hnd|exact Hmem].
Defined.

(** Recipe 2 carries both tags 1 and 3 and is listed once; the order is
    by descending id. *)
Example tags_filter_sample :
  repr_recipe_id <$>
    match data (RecipeViewSet.view (request 1 [("tags", "1,3")]%string
                                      RecipeViewSet.GetList) sample_db).1 with
    | RecipeListData l => l
    | _ => []
    end = [2; 1].
Proof. reflexivity. Qed.

(** ** Image upload *)

Lemma Forall2_fmap_self {A} (P : A -> A -> Prop) (f : A -> A) (l : list A) :
  (forall x, x ∈ l -> P x (f x)) -> Forall2 P l (f <$> l).
Proof.
  induction l as [|x l IH]; intros H; [constructor|].
  rewrite fmap_cons. constructor; [apply H; left|].
  apply IH. intros y Hy. apply H. by right.
Qed.

Lemma handle_exception_not_ok e : status (Drf.handle_exception e) <> HTTP_200_OK.
Proof. by destruct e. Qed.

(** C10: an upload-image request that is answered 200 leaves the users,
    the tags, the ingredients and both association tables as they were,
    and the recipe table with the same rows in the same places, each with
    the same id, owner, title, description, time, price and link; rows of
    another id are untouched altogether. *)
Theorem upload_image_changes_image_only s u qp pk d :
  wf s ->
  status (RecipeViewSet.view (request u qp (RecipeViewSet.PostUploadImage pk d)) s).1
    = HTTP_200_OK ->
  users (RecipeViewSet.view (request u qp (RecipeViewSet.PostUploadImage pk d)) s).2
    = users s /\
  tags (RecipeViewSet.view (request u qp (RecipeViewSet.PostUploadImage pk d)) s).2
    = tags s /\
  ingredients (RecipeViewSet.view (request u qp (RecipeViewSet.PostUploadImage pk d)) s).2
    = ingredients s /\
  recipe_tags (RecipeViewSet.view (request u qp (RecipeViewSet.PostUploadImage pk d)) s).2
    = recipe_tags s /\
  recipe_ingredients
    (RecipeViewSet.view (request u qp (RecipeViewSet.PostUploadImage pk d)) s).2
    = recipe_ingredients s /\
  next_id (recipes
    (RecipeViewSet.view (request u qp (RecipeViewSet.PostUploadImage pk d)) s).2)
    = next_id (recipes s) /\
  Forall2 (fun r r' => same_but_image r r' /\ (Recipe.id r <> pk -> r' = r))
    (rows (recipes s))
    (rows (recipes
       (RecipeViewSet.view (request u qp (RecipeViewSet.PostUploadImage pk d)) s).2)).
Proof.
  intros (Hr & _) Hst. revert Hst.
  unfold RecipeViewSet.view, Drf.dispatch, request. simpl.
  unfold RecipeViewSet.upload_image, bind.
  pose proof (recipe_get_object_spec u qp pk s) as Hget.
  destruct (RecipeViewSet.get_object u qp pk s) as [[r|e] s1]; simpl;
    [|intros Hst; by apply handle_exception_not_ok in Hst].
  destruct Hget as (-> & Hin & Hu & Hid). destruct d as [|vd]; simpl; [done|].
  intros _. repeat split.
  apply Forall2_fmap_self. intros x Hx. simpl. case_decide as Hx_id.
  - assert (x = r) as -> by (by eapply (NoDup_fmap_eq Recipe.id); [apply Hr|..]).
    split; [by repeat split|]. intros Hne. congruence.
  - split; [by repeat split|done].
Qed.

Lemma upload_image_changes_image_only_witness :
  recipe_tags
    (RecipeViewSet.view
       (request 1 [] (RecipeViewSet.PostUploadImage 2
                        (Valid {| v_image_file := Some "uploads/recipe/a.jpg"%string |})))
       sample_db).2 = recipe_tags sample_db /\
  Forall2 (fun r r' => same_but_image r r' /\ (Recipe.id r <> 2 -> r' = r))
    (rows (recipes sample_db))
    (rows (recipes
       (RecipeViewSet.view
          (request 1 [] (RecipeViewSet.PostUploadImage 2
                           (Valid {| v_image_file := Some "uploads/recipe/a.jpg"%string |})))
          sample_db).2)).
Proof.
  destruct (upload_image_changes_image_only sample_db 1 []
              2 (Valid {| v_image_file := Some "uploads/recipe/a.jpg"%string |})
              sample_db_wf eq_refl) as (_ & _ & _ & Ht & _ & _ & Hrows).
  split; [exact Ht|exact Hrows].
Defined.

Example upload_image_sample :
  Recipe.image <$>
    rows (recipes
      (RecipeViewSet.view
         (request 1 [] (RecipeViewSet.PostUploadImage 2
                          (Valid {| v_image_file := Some "uploads/recipe/a.jpg"%string |})))
         sample_db).2)
  = [None; Some "uploads/recipe/a.jpg"%string; None].
Proof. reflexivity. Qed.

(** An invalid upload is answered 400 and changes nothing. *)
Example upload_image_invalid :
  RecipeViewSet.view (request 1 [] (RecipeViewSet.PostUploadImage 2 Invalid)) sample_db
  = ({| data := ErrorData; status := HTTP_400_BAD_REQUEST |}, sample_db).
Proof. reflexivity. Qed.

(** ** Registration *)






Lemma representation_has_no_password u :
  "password"%string ∉ (UserSerializer.to_representation u).*1.
Proof. unfold UserSerializer.to_representation. simpl. by_decide. Qed.




(** A password of 129 characters, and one that holds a null character,
    are refused, and no user is created. *)
Example long_password_rejected :
  Py.len long_password = 129 /\
  CreateUserView.post (registration "new@eveil.com" long_password "Test name") sample_db
    = ({| data := ErrorData; status := HTTP_400_BAD_REQUEST |}, sample_db) /\
  CreateUserView.post
    (registration "new@eveil.com" (String Ascii.zero "test1234") "Test name") sample_db
    = ({| data := ErrorData; status := HTTP_400_BAD_REQUEST |}, sample_db).
Proof. split; [|split]; vm_compute; reflexivity. Qed.

Example registration_stores_hash :
  rows (users (CreateUserView.post
                 (registration "new@eveil.com" " test1234 " "Test name") sample_db).2)
  = rows (users sample_db) ++
    [ {| User.id := 3; User.email := "new@eveil.com";
         User.password := Hashed "test1234"; User.name := "Test name" |} ].
Proof. reflexivity. Qed.

(** ** The invariant under the tag and ingredient requests *)

Lemma saved_attr_ids m a s :
  Attribute.id <$> rows (Orm.objects m (Orm.saved_attr m a s)) =
  Attribute.id <$> rows (Orm.objects m s).
Proof.
  unfold Orm.saved_attr. rewrite objects_set_objects, decide_True by done. simpl.
  rewrite <- list_fmap_compose. apply list_fmap_ext. intros i x _. simpl. by case_decide.
Qed.

Lemma saved_attr_consistent m a0 a s :
  consistent s -> a0 ∈ rows (Orm.objects m s) ->
  Attribute.id a = Attribute.id a0 -> Attribute.user a = Attribute.user a0 ->
  consistent (Orm.saved_attr m a s).
Proof.
  intros [(Hr & Ho & Ht) Hso] Ha0 Hid Hu.
  assert (Hother : forall m', m' <> m ->
            Orm.objects m' (Orm.saved_attr m a s) = Orm.objects m' s).
  { intros m' Hne. unfold Orm.saved_attr. by rewrite objects_set_objects, decide_False. }
  assert (Hthr : forall m', Orm.through m' (Orm.saved_attr m a s) = Orm.through m' s).
  { intros m'. unfold Orm.saved_attr. by rewrite through_set_objects. }
  assert (Hrec : recipes (Orm.saved_attr m a s) = recipes s).
  { unfold Orm.saved_attr. by rewrite recipes_set_objects. }
  split; [split; [|split]|].
  - by rewrite Hrec.
  - intros m'. destruct (decide (m' = m)) as [->|Hne]; [|rewrite Hother by done; apply Ho].
    apply table_wf_ids. rewrite saved_attr_ids.
    pose proof (Ho m) as Hm. apply table_wf_ids in Hm.
    unfold Orm.saved_attr. rewrite objects_set_objects, decide_True by done. exact Hm.
  - intros m'. unfold through_wf. rewrite Hthr, Hrec.
    destruct (decide (m' = m)) as [->|Hne].
    + rewrite saved_attr_ids. apply Ht.
    + rewrite Hother by done. apply Ht.
  - intros m' r x Hr' Hx Hp. rewrite Hrec in Hr'. rewrite Hthr in Hp.
    destruct (decide (m' = m)) as [->|Hne]; [|rewrite Hother in Hx by done; by eapply Hso].
    unfold Orm.saved_attr in Hx. rewrite objects_set_objects, decide_True in Hx by done.
    simpl in Hx. apply list_elem_of_fmap in Hx as (y & -> & Hy).
    case_decide as Hyid; [|by eapply Hso].
    assert (y = a0) as ->.
    { eapply (NoDup_fmap_eq Attribute.id); [apply (Ho m)|done..|congruence]. }
    rewrite Hu. eapply Hso; [exact Hr'|exact Ha0|]. by rewrite <- Hid.
Qed.

Lemma deleted_attr_consistent m a s : consistent s -> consistent (Orm.deleted_attr m a s).
Proof.
  intros [(Hr & Ho & Ht) Hso]. unfold Orm.deleted_attr.
  set (s1 := Orm.set_through m
               (filter (fun p => p.2 <> Attribute.id a) (Orm.through m s)) s).
  assert (Ho1 : forall m', Orm.objects m' s1 = Orm.objects m' s)
    by (intros m'; unfold s1; by rewrite objects_set_through).
  assert (Hr1 : recipes s1 = recipes s) by (unfold s1; by rewrite recipes_set_through).
  assert (Ht1 : forall m' p, p ∈ Orm.through m' s1 ->
            p ∈ Orm.through m' s /\ (m' = m -> p.2 <> Attribute.id a)).
  { intros m' p Hp. unfold s1 in Hp. rewrite through_set_through in Hp.
    case_decide as Hm; [|split; [done|intros ?; contradiction]].
    subst m'. apply list_elem_of_filter in Hp as [Hne Hp]. split; [done|by intros _]. }
  split; [split; [|split]|].
  - by rewrite recipes_set_objects, Hr1.
  - intros m'. rewrite objects_set_objects. case_decide as Hm; [|rewrite Ho1; apply Ho].
    rewrite Ho1. by apply table_wf_filter.
  - intros m'. unfold through_wf. rewrite through_set_objects, recipes_set_objects, Hr1.
    apply Forall_forall. intros p Hp. destruct (Ht1 m' p Hp) as [Hp' Hne].
    pose proof (Ht m') as Hfk. eapply Forall_forall in Hfk as [Hp1 Hp2]; [|exact Hp'].
    split; [done|]. rewrite objects_set_objects.
    case_decide as Hm; [|by rewrite Ho1]. subst m'. simpl. rewrite Ho1.
    apply list_elem_of_fmap in Hp2 as (x & Hx & Hin).
    apply list_elem_of_fmap. exists x. split; [done|].
    apply list_elem_of_filter. split; [|done]. rewrite <- Hx. by apply Hne.
  - intros m' r x Hr' Hx Hp.
    rewrite recipes_set_objects, Hr1 in Hr'. rewrite through_set_objects in Hp.
    destruct (Ht1 m' _ Hp) as [Hp' _].
    rewrite objects_set_objects in Hx.
    case_decide as Hm; [|rewrite Ho1 in Hx; by eapply Hso].
    subst m'. simpl in Hx. rewrite Ho1 in Hx.
    apply list_elem_of_filter in Hx as [_ Hx]. by eapply Hso.
Qed.

Lemma attr_get_object_spec m u qp pk s :
  match BaseRecipeAttributesViewSet.get_object m u qp pk s with
  | (Ok a, s') =>
      s' = s /\ a ∈ rows (Orm.objects m s) /\ Attribute.user a = u /\ Attribute.id a = pk
  | (Raise _, s') => s' = s
  end.
Proof.
  unfold BaseRecipeAttributesViewSet.get_object, bind, get, lift.
  destruct (BaseRecipeAttributesViewSet.get_queryset m u qp s) as [qs|e] eqn:Hqs; [|done].
  unfold Drf.get_object_or_404.
  destruct (filter _ qs) as [|a [|a' l]] eqn:Hf; [done| |done].
  assert (Ha : a ∈ filter (fun a => Attribute.id a = pk) qs)
    by (rewrite Hf; by apply list_elem_of_singleton).
  apply list_elem_of_filter in Ha as [Hid Ha].
  destruct (attr_queryset_owned _ _ _ _ _ _ Hqs Ha). done.
Qed.

(** The requests to the tag and ingredient views keep the store well
    formed and the associations within the owner's rows as well. *)
Lemma attr_requests_keep_same_owner m req s :
  consistent s -> consistent (BaseRecipeAttributesViewSet.view m req s).2.
Proof.
  intros Hc. unfold BaseRecipeAttributesViewSet.view, Drf.dispatch.
  destruct (user req) as [u|]; [|done].
  assert (Hupd : forall pk d,
            consistent (BaseRecipeAttributesViewSet.update m u (query_params req) pk d s).2).
  { intros pk d. unfold BaseRecipeAttributesViewSet.update, bind.
    pose proof (attr_get_object_spec m u (query_params req) pk s) as H.
    destruct (BaseRecipeAttributesViewSet.get_object m u (query_params req) pk s)
      as [[a|e] s']; simpl; [destruct H as (-> & Hin & Hu & _)|by subst s'].
    destruct d as [|vd]; [done|]. simpl. by apply (saved_attr_consistent m a). }
  destruct (call req) as [|d|pk|pk d|pk d|pk]; simpl.
  - unfold BaseRecipeAttributesViewSet.list_, bind, get, lift.
    by destruct (BaseRecipeAttributesViewSet.get_queryset m u (query_params req) s).
  - done.
  - done.
  - specialize (Hupd pk d).
    by destruct (BaseRecipeAttributesViewSet.update m u (query_params req) pk d s)
      as [[r|e] s'].
  - specialize (Hupd pk d).
    by destruct (BaseRecipeAttributesViewSet.update m u (query_params req) pk d s)
      as [[r|e] s'].
  - unfold BaseRecipeAttributesViewSet.destroy, bind.
    pose proof (attr_get_object_spec m u (query_params req) pk s) as H.
    destruct (BaseRecipeAttributesViewSet.get_object m u (query_params req) pk s)
      as [[a|e] s']; simpl; [destruct H as (-> & _)|by subst s'].
    by apply deleted_attr_consistent.
Qed.

(** ** An ambiguous lookup, reached through the API

    User 1 renames the tag Dessert to Vegan, a name another tag of theirs
    carries; from then on a recipe payload naming Vegan cannot be
    reconciled, and the request ends as a server error. *)
Example rename_makes_lookup_ambiguous :
  status (TagViewSet
            (request 1 [] (BaseRecipeAttributesViewSet.PatchDetail 3
                             (Valid {| v_name := Some "Vegan"%string |})))
            sample_db).1 = HTTP_200_OK /\
  status (RecipeViewSet.view
            (request 1 [] (RecipeViewSet.PostList (Valid dinner_breakfast_data)))
            (TagViewSet
               (request 1 [] (BaseRecipeAttributesViewSet.PatchDetail 3
                                (Valid {| v_name := Some "Vegan"%string |})))
               sample_db).2).1 = HTTP_500_INTERNAL_SERVER_ERROR.
Proof. split; reflexivity. Qed.

(** * Further properties *)

(** ** Id lists *)

Lemma ints_str ids : RecipeViewSet.ints (Py.str <$> ids) = Ok ids.
Proof.
  induction ids as [|i ids IH]; [done|]. rewrite fmap_cons. simpl.
  by rewrite int_str, IH.
Qed.

Lemma split_join ids :
  ids <> [] -> Py.split ","%char (Py.join "," (Py.str <$> ids)) = Py.str <$> ids.
Proof.
  induction ids as [|i ids IH]; [done|]. intros _.
  destruct ids as [|j ids].
  - simpl. apply split_no_sep, str_no_comma.
  - change (Py.join "," (Py.str <$> i :: j :: ids))
      with (Py.str i +:+ String ","%char (Py.join "," (Py.str <$> j :: ids))).
    rewrite split_app_sep by apply str_no_comma. rewrite IH by done. done.
Qed.

(** X1: for every non-empty list of ids, the comma-joined decimal
    writing of the ids is read back by [_params_to_ints] as that list. *)
Theorem params_to_ints_join ids :
  ids <> [] ->
  RecipeViewSet._params_to_ints (Py.join "," (Py.str <$> ids)) = Ok ids.
Proof.
  intros Hne. unfold RecipeViewSet._params_to_ints.
  rewrite split_join by done. apply ints_str.
Qed.

Lemma params_to_ints_join_witness :
  RecipeViewSet._params_to_ints (Py.join "," (Py.str <$> [12; 7; 305])) = Ok [12; 7; 305].
Proof. apply params_to_ints_join. discriminate. Defined.

Lemma split_snoc_sep sep s :
  exists x l, Py.split sep (s +:+ String sep EmptyString) = x :: l ++ [EmptyString].
Proof.
  induction s as [|c s (x & l & IH)]; simpl.
  - rewrite Ascii.eqb_refl. by exists EmptyString, [].
  - rewrite IH. destruct (Ascii.eqb c sep).
    + by exists EmptyString, (x :: l).
    + by exists (String c x), l.
Qed.

Lemma params_to_ints_raises v e :
  RecipeViewSet._params_to_ints v = Raise e -> e = ValueError /\ has_non_numeric_token v.
Proof.
  unfold RecipeViewSet._params_to_ints, has_non_numeric_token. intros H.
  pose proof (ints_spec (Py.split "," v)) as Hspec. by rewrite H in Hspec.
Qed.

(** X2: [_params_to_ints] raises nothing but [ValueError], and raises
    it exactly when some comma-separated token is not an integer
    literal; otherwise it returns the value of each token, in order.  An
    empty value, a leading comma and a trailing comma always raise. *)
Theorem params_to_ints_outcome v :
  (RecipeViewSet._params_to_ints v = Raise ValueError <-> has_non_numeric_token v) /\
  (forall e, RecipeViewSet._params_to_ints v = Raise e -> e = ValueError) /\
  (forall ns, RecipeViewSet._params_to_ints v = Ok ns ->
              Forall2 (fun tok n => Py.int tok = Some n) (Py.split ","%char v) ns) /\
  RecipeViewSet._params_to_ints EmptyString = Raise ValueError /\
  RecipeViewSet._params_to_ints (String ","%char v) = Raise ValueError /\
  RecipeViewSet._params_to_ints (v +:+ ",") = Raise ValueError.
Proof.
  split; [|split; [|split; [|split; [|split]]]].
  - split; [|apply non_numeric_token_raises].
    intros H. by apply params_to_ints_raises in H as [_ ?].
  - intros e H. by apply params_to_ints_raises in H as [? _].
  - intros ns H. unfold RecipeViewSet._params_to_ints in H.
    pose proof (ints_spec (Py.split "," v)) as Hspec. by rewrite H in Hspec.
  - reflexivity.
  - reflexivity.
  - apply non_numeric_token_raises. unfold has_non_numeric_token.
    destruct (split_snoc_sep ","%char v) as (x & l & ->).
    apply Exists_cons_tl, Exists_app. right. by apply Exists_cons_hd.
Qed.

Lemma params_to_ints_outcome_witness :
  Forall2 (fun tok n => Py.int tok = Some n) (Py.split ","%char "4, 8") [4; 8].
Proof.
  destruct (params_to_ints_outcome "4, 8") as (_ & _ & H & _).
  apply H. reflexivity.
Defined.

(** ** Listings, for whatever parameters *)

Lemma remove_dups_NoDup {A} `{EqDecision A} (l : list A) :
  NoDup l -> remove_dups l = l.
Proof.
  induction 1 as [|x l Hx Hnd IH]; [done|]. simpl.
  destruct (decide_rel elem_of x l); [done|]. by rewrite IH.
Qed.

Lemma id_desc_sorted qs : StronglySorted Orm.id_desc (Orm.order_by_id_desc qs).
Proof.
  apply StronglySorted_merge_sort.
  - intros a b c. unfold Orm.id_desc. lia.
  - intros a b. unfold Orm.id_desc. lia.
Qed.

Lemma name_asc_sorted qs : StronglySorted Orm.name_asc (Orm.order_by_name qs).
Proof.
  apply StronglySorted_merge_sort.
  - intros a b c. unfold Orm.name_asc. apply transitivity.
  - intros a b. unfold Orm.name_asc. apply String.le_total.
Qed.

Lemma recipe_queryset_spec u qp s qs :
  RecipeViewSet.get_queryset u qp s = Ok qs ->
  NoDup qs /\ StronglySorted Orm.id_desc qs /\
  forall r, r ∈ qs <->
            r ∈ rows (recipes s) /\ Recipe.user r = u /\
            passes_filter Tag "tags" qp s r /\
            passes_filter Ingredient "ingredients" qp s r.
Proof.
  unfold RecipeViewSet.get_queryset, passes_filter.
  destruct (Drf.query_get "tags" qp) as [tv|]; [destruct (Py.truthy tv)|];
    (destruct (Drf.query_get "ingredients" qp) as [iv|]; [destruct (Py.truthy iv)|]);
    simpl;
    repeat match goal with
      | |- context [RecipeViewSet._params_to_ints ?v] =>
          destruct (RecipeViewSet._params_to_ints v); simpl
      end;
    try discriminate;
    intros [= <-];
    (split; [apply NoDup_order_by_id_desc, NoDup_remove_dups|]);
    (split; [apply id_desc_sorted|]);
    intros r; rewrite elem_of_order_by_id_desc; unfold Orm.distinct;
    rewrite elem_of_remove_dups, list_elem_of_filter, ?elem_of_filter_related;
    tauto.
Qed.

(** X3: whenever the [tags] and [ingredients] parameters are usable,
    the recipe listing is answered 200 and changes nothing; it shows, once
    each and by descending id, exactly the requesting user's recipes that
    pass the tag filter and the ingredient filter, both when both are
    given. *)
Theorem recipe_listing_contents s u qp :
  filters_parse qp = true ->
  exists rs,
    RecipeViewSet.view (request u qp RecipeViewSet.GetList) s =
      ({| data := RecipeListData (RecipeSerializer.to_representation s <$> rs);
          status := HTTP_200_OK |}, s) /\
    NoDup rs /\ StronglySorted Orm.id_desc rs /\
    forall r, r ∈ rs <->
              r ∈ rows (recipes s) /\ Recipe.user r = u /\
              passes_filter Tag "tags" qp s r /\
              passes_filter Ingredient "ingredients" qp s r.
Proof.
  intros Hp. pose proof (recipe_queryset_cases u qp s) as Hc. rewrite Hp in Hc.
  destruct Hc as (Q & HQ & _).
  exists (Orm.order_by_id_desc (Orm.distinct (filter (fun r => Recipe.user r = u) Q))).
  split; [|by apply (recipe_queryset_spec u qp s)].
  unfold RecipeViewSet.view, Drf.dispatch, request. simpl.
  unfold RecipeViewSet.list_, bind, get, lift. by rewrite HQ.
Qed.

Lemma recipe_listing_contents_witness :
  exists rs,
    RecipeViewSet.view
      (request 1 [("tags", "1,3"); ("ingredients", "1")]%string RecipeViewSet.GetList)
      sample_db =
      ({| data := RecipeListData (RecipeSerializer.to_representation sample_db <$> rs);
          status := HTTP_200_OK |}, sample_db) /\
    NoDup rs /\ StronglySorted Orm.id_desc rs /\
    forall r, r ∈ rs <->
              r ∈ rows (recipes sample_db) /\ Recipe.user r = 1 /\
              passes_filter Tag "tags" [("tags", "1,3"); ("ingredients", "1")]%string
                sample_db r /\
              passes_filter Ingredient "ingredients"
                [("tags", "1,3"); ("ingredients", "1")]%string sample_db r.
Proof. apply recipe_listing_contents. reflexivity. Defined.

Lemma attr_queryset_spec m u qp s qs :
  BaseRecipeAttributesViewSet.get_queryset m u qp s = Ok qs ->
  NoDup qs /\ StronglySorted Orm.name_asc qs /\
  forall a, a ∈ qs <->
            a ∈ rows (Orm.objects m s) /\ Attribute.user a = u /\
            (assigned_only qp = true ->
             exists rid, (rid, Attribute.id a) ∈ Orm.through m s).
Proof.
  unfold BaseRecipeAttributesViewSet.get_queryset, assigned_only.
  destruct (Drf.query_get "assigned_only" qp) as [v|]; simpl;
    [destruct (Py.int v) as [n|]; simpl; [destruct (negb (n =? 0))|]|];
    try discriminate;
    intros [= <-];
    (split; [apply NoDup_order_by_name, NoDup_remove_dups|]);
    (split; [apply name_asc_sorted|]);
    intros a; rewrite elem_of_order_by_name; unfold Orm.distinct;
    rewrite elem_of_remove_dups, list_elem_of_filter, ?elem_of_filter_recipe_notnull;
    intuition (try discriminate).
Qed.

(** X4: whenever [assigned_only] is absent or an integer literal, the
    listing of tags (of ingredients) is answered 200 and changes nothing;
    it shows, once each and by name, exactly the requesting user's rows,
    and, when the integer is not 0, only those some recipe is associated
    with.  Any integer but 0 filters as 1 does. *)
Theorem attr_listing_contents m s u qp :
  assigned_only_parses qp = true ->
  exists items,
    BaseRecipeAttributesViewSet.view m
      (request u qp BaseRecipeAttributesViewSet.GetList) s =
      ({| data := AttrListData (AttrSerializer.to_representation <$> items);
          status := HTTP_200_OK |}, s) /\
    NoDup items /\ StronglySorted Orm.name_asc items /\
    forall a, a ∈ items <->
              a ∈ rows (Orm.objects m s) /\ Attribute.user a = u /\
              (assigned_only qp = true ->
               exists rid, (rid, Attribute.id a) ∈ Orm.through m s).
Proof.
  intros Hp. pose proof (attr_queryset_cases m u qp s) as Hc. rewrite Hp in Hc.
  destruct Hc as (Q & HQ & _).
  exists (Orm.order_by_name (Orm.distinct (filter (fun a => Attribute.user a = u) Q))).
  split; [|by apply (attr_queryset_spec m u qp s)].
  unfold BaseRecipeAttributesViewSet.view, Drf.dispatch, request. simpl.
  unfold BaseRecipeAttributesViewSet.list_, bind, get, lift. by rewrite HQ.
Qed.

Lemma attr_listing_contents_witness :
  exists items,
    TagViewSet (request 1 [("assigned_only", "-2")]%string
                  BaseRecipeAttributesViewSet.GetList) sample_db =
      ({| data := AttrListData (AttrSerializer.to_representation <$> items);
          status := HTTP_200_OK |}, sample_db) /\
    NoDup items /\ StronglySorted Orm.name_asc items /\
    forall a, a ∈ items <->
              a ∈ rows (Orm.objects Tag sample_db) /\ Attribute.user a = 1 /\
              (assigned_only [("assigned_only", "-2")]%string = true ->
               exists rid, (rid, Attribute.id a) ∈ Orm.through Tag sample_db).
Proof. apply (attr_listing_contents Tag). reflexivity. Defined.

(** X5: a value of [assigned_only] that [int] rejects, such as
    [true], makes the listing, the updates and the delete of tags (of
    ingredients) end in an unhandled [ValueError]: the answer is 500, not
    a client error, and nothing is changed. *)
Theorem unparsable_assigned_only_is_server_error m s u qp v c :
  Drf.query_get "assigned_only" qp = Some v ->
  Py.int v = None ->
  c = BaseRecipeAttributesViewSet.GetList \/ (exists pk, attr_write_call pk c) ->
  BaseRecipeAttributesViewSet.view m (request u qp c) s =
    ({| data := ErrorData; status := HTTP_500_INTERNAL_SERVER_ERROR |}, s).
Proof.
  intros Hv Hint Hc.
  assert (Hqs : BaseRecipeAttributesViewSet.get_queryset m u qp s = Raise ValueError).
  { unfold BaseRecipeAttributesViewSet.get_queryset. by rewrite Hv, Hint. }
  assert (Hget : forall pk, BaseRecipeAttributesViewSet.get_object m u qp pk s =
                            (Raise ValueError, s)).
  { intros pk. unfold BaseRecipeAttributesViewSet.get_object, bind, get, lift.
    by rewrite Hqs. }
  unfold BaseRecipeAttributesViewSet.view, Drf.dispatch, request. simpl.
  destruct Hc as [->|[pk Hc]].
  - simpl. unfold BaseRecipeAttributesViewSet.list_, bind, get, lift. by rewrite Hqs.
  - destruct c as [|d|pk'|pk' d|pk' d|pk']; simpl in Hc; try done; simpl;
      unfold BaseRecipeAttributesViewSet.update, BaseRecipeAttributesViewSet.destroy;
      by erewrite bind_raise by apply Hget.
Qed.

Lemma unparsable_assigned_only_is_server_error_witness :
  IngredientViewSet
    (request 1 [("assigned_only", "true")]%string
       (BaseRecipeAttributesViewSet.DeleteDetail 1)) sample_db =
    ({| data := ErrorData; status := HTTP_500_INTERNAL_SERVER_ERROR |}, sample_db).
Proof.
  apply (unparsable_assigned_only_is_server_error Ingredient sample_db 1
           [("assigned_only", "true")]%string "true").
  - reflexivity.
  - reflexivity.
  - right. by exists 1.
Defined.

(** ** Detail requests on the requester's own rows *)

Lemma filter_unique {A} (P : A -> Prop) `{forall x, Decision (P x)} (l : list A) x :
  NoDup l -> x ∈ l -> P x -> (forall y, y ∈ l -> P y -> y = x) -> filter P l = [x].
Proof.
  intros Hnd Hx HP Huniq. induction Hnd as [|y l Hy Hnd IH].
  - by apply elem_of_nil in Hx.
  - rewrite filter_cons. apply elem_of_cons in Hx as [<-|Hx].
    + rewrite decide_True by done. f_equal. apply filter_none. intros z Hz HPz.
      apply Hy. rewrite <- (Huniq z); [done|by right|done].
    + destruct (decide (P y)) as [HPy|].
      * exfalso. apply Hy. rewrite (Huniq y); [done|by left|done].
      * apply IH; [done|]. intros z Hz. apply Huniq. by right.
Qed.

Lemma unfiltered_passes qp :
  unfiltered qp ->
  filters_parse qp = true /\
  forall s r, passes_filter Tag "tags" qp s r /\
              passes_filter Ingredient "ingredients" qp s r.
Proof.
  unfold unfiltered, blank_param, filters_parse, id_list_parses, passes_filter.
  intros [[-> | ->] [-> | ->]]; simpl; by repeat split.
Qed.

Lemma recipe_get_object_own s u qp R :
  wf s -> R ∈ rows (recipes s) -> Recipe.user R = u -> filters_parse qp = true ->
  (passes_filter Tag "tags" qp s R /\ passes_filter Ingredient "ingredients" qp s R ->
   RecipeViewSet.get_object u qp (Recipe.id R) s = (Ok R, s)) /\
  (~ (passes_filter Tag "tags" qp s R /\ passes_filter Ingredient "ingredients" qp s R) ->
   RecipeViewSet.get_object u qp (Recipe.id R) s = (Raise Http404, s)).
Proof.
  intros (Hr & _) HR Hu Hp.
  pose proof (recipe_queryset_cases u qp s) as Hc. rewrite Hp in Hc.
  destruct Hc as (Q & HQ & _).
  destruct (recipe_queryset_spec u qp s _ HQ) as (Hnd & _ & Hmem).
  unfold RecipeViewSet.get_object, bind, get, lift. rewrite HQ.
  unfold Drf.get_object_or_404. split; intros Hpass.
  - erewrite (filter_unique _ _ R); [done|done|..].
    + apply Hmem. tauto.
    + done.
    + intros y Hy Hid. apply Hmem in Hy as (Hy & _).
      by eapply (NoDup_fmap_eq Recipe.id); [apply Hr|..].
  - rewrite filter_none; [done|]. intros y Hy Hid. apply Hpass.
    apply Hmem in Hy as (Hy & Hyu & Hpt & Hpi).
    assert (y = R) as <- by (by eapply (NoDup_fmap_eq Recipe.id); [apply Hr|..]).
    done.
Qed.

Lemma recipe_get_object_unfiltered s u qp R :
  wf s -> R ∈ rows (recipes s) -> Recipe.user R = u -> unfiltered qp ->
  RecipeViewSet.get_object u qp (Recipe.id R) s = (Ok R, s).
Proof.
  intros Hwf HR Hu Hq. destruct (unfiltered_passes qp Hq) as [Hp Hpass].
  by apply (recipe_get_object_own s u qp R Hwf HR Hu Hp).
Qed.

Lemma recipe_get_object_missing s u qp pk :
  (forall r, r ∈ rows (recipes s) -> Recipe.id r <> pk) ->
  filters_parse qp = true ->
  RecipeViewSet.get_object u qp pk s = (Raise Http404, s).
Proof.
  intros Hno Hp. pose proof (recipe_queryset_cases u qp s) as Hc. rewrite Hp in Hc.
  destruct Hc as (Q & HQ & _).
  unfold RecipeViewSet.get_object, bind, get, lift. rewrite HQ.
  unfold Drf.get_object_or_404. rewrite filter_none; [done|].
  intros y Hy. apply (recipe_queryset_owned _ _ _ _ _ HQ) in Hy as [Hy _]. by apply Hno.
Qed.

(** X6: a GET on the detail route of one of the requester's own
    recipes, with usable filter parameters, is answered 200 with the
    detail representation of that recipe when the recipe passes the
    filters, in particular with none given, and 404 when it does not: the
    detail route applies the listing's filters.  Nothing is changed. *)
Theorem own_recipe_detail s u qp R :
  wf s -> R ∈ rows (recipes s) -> Recipe.user R = u -> filters_parse qp = true ->
  (passes_filter Tag "tags" qp s R /\ passes_filter Ingredient "ingredients" qp s R ->
   RecipeViewSet.view (request u qp (RecipeViewSet.GetDetail (Recipe.id R))) s =
     ({| data := RecipeDetailData (RecipeDetailSerializer.to_representation s R);
         status := HTTP_200_OK |}, s)) /\
  (~ (passes_filter Tag "tags" qp s R /\ passes_filter Ingredient "ingredients" qp s R) ->
   RecipeViewSet.view (request u qp (RecipeViewSet.GetDetail (Recipe.id R))) s =
     ({| data := ErrorData; status := HTTP_404_NOT_FOUND |}, s)).
Proof.
  intros Hwf HR Hu Hp.
  destruct (recipe_get_object_own s u qp R Hwf HR Hu Hp) as [Hok Hno].
  unfold RecipeViewSet.view, Drf.dispatch, request. simpl.
  unfold RecipeViewSet.retrieve.
  split; intros Hpass.
  - by erewrite bind_ok by apply (Hok Hpass).
  - by erewrite bind_raise by apply (Hno Hpass).
Qed.

Lemma own_recipe_detail_witness :
  RecipeViewSet.view
    (request 1 [("tags", "3")]%string (RecipeViewSet.GetDetail 1)) sample_db =
    ({| data := ErrorData; status := HTTP_404_NOT_FOUND |}, sample_db).
Proof.
  apply (own_recipe_detail sample_db 1 [("tags", "3")]%string (sample_recipe 1 1 "Curry")).
  - apply sample_db_wf.
  - by_decide.
  - reflexivity.
  - reflexivity.
  - unfold passes_filter. simpl. intros [(a & Ha & Hin) _].
    apply list_elem_of_singleton in Ha as ->. revert Hin. by_decide.
Defined.

(** X7: deleting one of the requester's own recipes, in a well-formed
    store and with no filter parameter, is answered 204; the recipe row
    and its tag and ingredient associations are gone, every other recipe
    and association, every tag, every ingredient and every user is kept,
    and a repeated delete is answered 404 and changes nothing. *)
Theorem own_recipe_delete s u qp R :
  wf s -> R ∈ rows (recipes s) -> Recipe.user R = u -> unfiltered qp ->
  exists s',
    RecipeViewSet.view (request u qp (RecipeViewSet.DeleteDetail (Recipe.id R))) s =
      ({| data := NoData; status := HTTP_204_NO_CONTENT |}, s') /\
    (forall x, x ∈ rows (recipes s') <-> x ∈ rows (recipes s) /\ x <> R) /\
    (forall m p, p ∈ Orm.through m s' <-> p ∈ Orm.through m s /\ p.1 <> Recipe.id R) /\
    (forall m, Orm.objects m s' = Orm.objects m s) /\
    users s' = users s /\
    RecipeViewSet.view (request u qp (RecipeViewSet.DeleteDetail (Recipe.id R))) s' =
      ({| data := ErrorData; status := HTTP_404_NOT_FOUND |}, s').
Proof.
  intros Hwf HR Hu Hq. exists (Orm.deleted_recipe R s).
  pose proof (recipe_get_object_unfiltered s u qp R Hwf HR Hu Hq) as Hget.
  destruct Hwf as (Hr & _).
  assert (Hrows : forall x, x ∈ rows (recipes (Orm.deleted_recipe R s)) <->
                            x ∈ rows (recipes s) /\ x <> R).
  { intros x. unfold Orm.deleted_recipe. simpl. rewrite list_elem_of_filter.
    rewrite ?recipes_cleared. split.
    - intros [Hid Hx]. split; [done|]. by intros ->.
    - intros [Hx Hne]. split; [|done]. intros Hid. apply Hne.
      by eapply (NoDup_fmap_eq Recipe.id); [apply Hr|..]. }
  split; [|split; [exact Hrows|split; [|split; [|split]]]].
  - unfold RecipeViewSet.view, Drf.dispatch, request. simpl.
    unfold RecipeViewSet.destroy. by erewrite bind_ok by exact Hget.
  - intros m p. unfold Orm.deleted_recipe. rewrite through_set_recipes.
    rewrite !through_cleared.
    destruct m; repeat case_decide; try congruence;
      rewrite list_elem_of_filter; tauto.
  - intros m. unfold Orm.deleted_recipe.
    by rewrite objects_set_recipes, !objects_cleared.
  - reflexivity.
  - destruct (unfiltered_passes qp Hq) as [Hp _].
    unfold RecipeViewSet.view, Drf.dispatch, request. simpl.
    unfold RecipeViewSet.destroy.
    assert (Hmiss : RecipeViewSet.get_object u qp (Recipe.id R) (Orm.deleted_recipe R s) =
                    (Raise Http404, Orm.deleted_recipe R s)).
    { apply recipe_get_object_missing; [|done].
      intros r Hin Hid. apply Hrows in Hin as [Hin Hne]. apply Hne.
      by eapply (NoDup_fmap_eq Recipe.id); [apply Hr|..]. }
    by erewrite bind_raise by exact Hmiss.
Qed.

Lemma own_recipe_delete_witness :
  exists s',
    RecipeViewSet.view (request 1 [] (RecipeViewSet.DeleteDetail 2)) sample_db =
      ({| data := NoData; status := HTTP_204_NO_CONTENT |}, s') /\
    (forall x, x ∈ rows (recipes s') <->
               x ∈ rows (recipes sample_db) /\ x <> sample_recipe 2 1 "Tahini") /\
    (forall m p, p ∈ Orm.through m s' <-> p ∈ Orm.through m sample_db /\ p.1 <> 2) /\
    (forall m, Orm.objects m s' = Orm.objects m sample_db) /\
    users s' = users sample_db /\
    RecipeViewSet.view (request 1 [] (RecipeViewSet.DeleteDetail 2)) s' =
      ({| data := ErrorData; status := HTTP_404_NOT_FOUND |}, s').
Proof.
  apply (own_recipe_delete sample_db 1 [] (sample_recipe 2 1 "Tahini")).
  - apply sample_db_wf.
  - by_decide.
  - reflexivity.
  - split; by left.
Defined.

(** X8: an image upload to one of the requester's own recipes, in a
    well-formed store and with no filter parameter: valid data is
    answered 200 with the recipe's id and the new image, and the stored
    row is the old one with that image; invalid data is answered 400 and
    changes nothing. *)
Theorem own_recipe_upload_image s u qp R :
  wf s -> R ∈ rows (recipes s) -> Recipe.user R = u -> unfiltered qp ->
  (forall d,
     exists s',
       RecipeViewSet.view
         (request u qp (RecipeViewSet.PostUploadImage (Recipe.id R) (Valid d))) s =
         ({| data := RecipeImageData (Recipe.id R) (v_image_file d);
             status := HTTP_200_OK |}, s') /\
       rows (recipes s') =
         (fun x => if decide (x = R) then with_image R (v_image_file d) else x)
           <$> rows (recipes s) /\
       with_image R (v_image_file d) ∈ rows (recipes s')) /\
  RecipeViewSet.view
    (request u qp (RecipeViewSet.PostUploadImage (Recipe.id R) Invalid)) s =
    ({| data := ErrorData; status := HTTP_400_BAD_REQUEST |}, s).
Proof.
  intros Hwf HR Hu Hq.
  pose proof (recipe_get_object_unfiltered s u qp R Hwf HR Hu Hq) as Hget.
  destruct Hwf as (Hr & _).
  split.
  - intros d. exists (Orm.saved_recipe (with_image R (v_image_file d)) s).
    assert (Hrows : rows (recipes (Orm.saved_recipe (with_image R (v_image_file d)) s)) =
                    (fun x => if decide (x = R) then with_image R (v_image_file d) else x)
                      <$> rows (recipes s)).
    { unfold Orm.saved_recipe. simpl. apply list_fmap_ext. intros i x Hx.
      apply list_elem_of_lookup_2 in Hx. simpl.
      destruct (decide (Recipe.id x = Recipe.id R)) as [Hid|Hid].
      - rewrite decide_True; [done|].
        by eapply (NoDup_fmap_eq Recipe.id); [apply Hr|..].
      - rewrite decide_False; [done|]. by intros ->. }
    split; [|split; [exact Hrows|]].
    + unfold RecipeViewSet.view, Drf.dispatch, request. simpl.
      unfold RecipeViewSet.upload_image. by erewrite bind_ok by exact Hget.
    + rewrite Hrows. apply list_elem_of_fmap. exists R. by rewrite decide_True.
  - unfold RecipeViewSet.view, Drf.dispatch, request. simpl.
    unfold RecipeViewSet.upload_image. by erewrite bind_ok by exact Hget.
Qed.

Lemma own_recipe_upload_image_witness :
  RecipeViewSet.view
    (request 1 [("tags", EmptyString)]%string
       (RecipeViewSet.PostUploadImage 2 Invalid)) sample_db =
    ({| data := ErrorData; status := HTTP_400_BAD_REQUEST |}, sample_db).
Proof.
  apply (own_recipe_upload_image sample_db 1 [("tags", EmptyString)]%string
           (sample_recipe 2 1 "Tahini")).
  - apply sample_db_wf.
  - by_decide.
  - reflexivity.
  - split; [by right|by left].
Defined.

Lemma attr_get_object_own m s u qp A :
  wf s -> A ∈ rows (Orm.objects m s) -> Attribute.user A = u ->
  assigned_only_parses qp = true ->
  ((assigned_only qp = true -> exists rid, (rid, Attribute.id A) ∈ Orm.through m s) ->
   BaseRecipeAttributesViewSet.get_object m u qp (Attribute.id A) s = (Ok A, s)) /\
  (~ (assigned_only qp = true -> exists rid, (rid, Attribute.id A) ∈ Orm.through m s) ->
   BaseRecipeAttributesViewSet.get_object m u qp (Attribute.id A) s = (Raise Http404, s)).
Proof.
  intros (_ & Ho & _) HA Hu Hp.
  pose proof (attr_queryset_cases m u qp s) as Hc. rewrite Hp in Hc.
  destruct Hc as (Q & HQ & _).
  destruct (attr_queryset_spec m u qp s _ HQ) as (Hnd & _ & Hmem).
  unfold BaseRecipeAttributesViewSet.get_object, bind, get, lift. rewrite HQ.
  unfold Drf.get_object_or_404. split; intros Hpass.
  - erewrite (filter_unique _ _ A); [done|done|..].
    + apply Hmem. tauto.
    + done.
    + intros y Hy Hid. apply Hmem in Hy as (Hy & _).
      by eapply (NoDup_fmap_eq Attribute.id); [apply (Ho m)|..].
  - rewrite filter_none; [done|]. intros y Hy Hid. apply Hpass.
    apply Hmem in Hy as (Hy & Hyu & Hass).
    assert (y = A) as <- by (by eapply (NoDup_fmap_eq Attribute.id); [apply (Ho m)|..]).
    done.
Qed.

Lemma attr_get_object_missing m s u qp pk :
  (forall a, a ∈ rows (Orm.objects m s) -> Attribute.id a <> pk) ->
  assigned_only_parses qp = true ->
  BaseRecipeAttributesViewSet.get_object m u qp pk s = (Raise Http404, s).
Proof.
  intros Hno Hp. pose proof (attr_queryset_cases m u qp s) as Hc. rewrite Hp in Hc.
  destruct Hc as (Q & HQ & _).
  unfold BaseRecipeAttributesViewSet.get_object, bind, get, lift. rewrite HQ.
  unfold Drf.get_object_or_404. rewrite filter_none; [done|].
  intros y Hy. apply (attr_queryset_owned _ _ _ _ _ _ HQ) in Hy as [Hy _]. by apply Hno.
Qed.

Lemma objects_deleted_attr m m' a s :
  Orm.objects m' (Orm.deleted_attr m a s) =
    if decide (m' = m)
    then {| rows := filter (fun x => Attribute.id x <> Attribute.id a)
                      (rows (Orm.objects m s));
            next_id := next_id (Orm.objects m s) |}
    else Orm.objects m' s.
Proof. by destruct m, m'. Qed.

Lemma through_deleted_attr m m' a s :
  Orm.through m' (Orm.deleted_attr m a s) =
    if decide (m' = m)
    then filter (fun p => p.2 <> Attribute.id a) (Orm.through m s)
    else Orm.through m' s.
Proof. by destruct m, m'. Qed.

(** X9: deleting one of the requester's own tags (ingredients), in a
    well-formed store and with a usable [assigned_only]: when the row
    passes the listing's filter the answer is 204, the row and its
    associations are gone, every other row and association of the model
    is kept, no recipe, no user and nothing of the other model is touched,
    and a repeated delete is answered 404; when the filter is on and no
    recipe carries the row, the answer is 404 and nothing is changed. *)
Theorem own_attr_delete m s u qp A :
  wf s -> A ∈ rows (Orm.objects m s) -> Attribute.user A = u ->
  assigned_only_parses qp = true ->
  ((assigned_only qp = true -> exists rid, (rid, Attribute.id A) ∈ Orm.through m s) ->
   exists s',
     BaseRecipeAttributesViewSet.view m
       (request u qp (BaseRecipeAttributesViewSet.DeleteDetail (Attribute.id A))) s =
       ({| data := NoData; status := HTTP_204_NO_CONTENT |}, s') /\
     (forall x, x ∈ rows (Orm.objects m s') <-> x ∈ rows (Orm.objects m s) /\ x <> A) /\
     (forall p, p ∈ Orm.through m s' <-> p ∈ Orm.through m s /\ p.2 <> Attribute.id A) /\
     recipes s' = recipes s /\ users s' = users s /\
     (forall m', m' <> m ->
        Orm.objects m' s' = Orm.objects m' s /\ Orm.through m' s' = Orm.through m' s) /\
     BaseRecipeAttributesViewSet.view m
       (request u qp (BaseRecipeAttributesViewSet.DeleteDetail (Attribute.id A))) s' =
       ({| data := ErrorData; status := HTTP_404_NOT_FOUND |}, s')) /\
  (~ (assigned_only qp = true -> exists rid, (rid, Attribute.id A) ∈ Orm.through m s) ->
   BaseRecipeAttributesViewSet.view m
     (request u qp (BaseRecipeAttributesViewSet.DeleteDetail (Attribute.id A))) s =
     ({| data := ErrorData; status := HTTP_404_NOT_FOUND |}, s)).
Proof.
  intros Hwf HA Hu Hp.
  destruct (attr_get_object_own m s u qp A Hwf HA Hu Hp) as [Hok Hno].
  destruct Hwf as (_ & Ho & _).
  split; intros Hpass.
  - exists (Orm.deleted_attr m A s).
    assert (Hrows : forall x, x ∈ rows (Orm.objects m (Orm.deleted_attr m A s)) <->
                              x ∈ rows (Orm.objects m s) /\ x <> A).
    { intros x. rewrite objects_deleted_attr, decide_True by done. simpl.
      rewrite list_elem_of_filter. split.
      - intros [Hid Hx]. split; [done|]. by intros ->.
      - intros [Hx Hne]. split; [|done]. intros Hid. apply Hne.
        by eapply (NoDup_fmap_eq Attribute.id); [apply (Ho m)|..]. }
    split; [|split; [exact Hrows|split; [|split; [|split; [|split]]]]].
    + unfold BaseRecipeAttributesViewSet.view, Drf.dispatch, request. simpl.
      unfold BaseRecipeAttributesViewSet.destroy.
      by erewrite bind_ok by exact (Hok Hpass).
    + intros p. rewrite through_deleted_attr, decide_True by done.
      rewrite list_elem_of_filter. tauto.
    + by destruct m.
    + by destruct m.
    + intros m' Hm'. by rewrite objects_deleted_attr, through_deleted_attr,
        !decide_False by done.
    + unfold BaseRecipeAttributesViewSet.view, Drf.dispatch, request. simpl.
      unfold BaseRecipeAttributesViewSet.destroy.
      assert (Hmiss : BaseRecipeAttributesViewSet.get_object m u qp (Attribute.id A)
                        (Orm.deleted_attr m A s) =
                      (Raise Http404, Orm.deleted_attr m A s)).
      { apply attr_get_object_missing; [|done].
        intros a Hin Hid. apply Hrows in Hin as [Hin Hne]. apply Hne.
        by eapply (NoDup_fmap_eq Attribute.id); [apply (Ho m)|..]. }
      by erewrite bind_raise by exact Hmiss.
  - unfold BaseRecipeAttributesViewSet.view, Drf.dispatch, request. simpl.
    unfold BaseRecipeAttributesViewSet.destroy.
    by erewrite bind_raise by exact (Hno Hpass).
Qed.

Lemma own_attr_delete_witness :
  TagViewSet
    (request 1 [("assigned_only", "1")]%string
       (BaseRecipeAttributesViewSet.DeleteDetail 4))
    (Orm.set_objects Tag
       {| rows := rows (tags sample_db) ++ [sample_attr 4 1 "Unused"]; next_id := 5 |}
       sample_db) =
    ({| data := ErrorData; status := HTTP_404_NOT_FOUND |},
     Orm.set_objects Tag
       {| rows := rows (tags sample_db) ++ [sample_attr 4 1 "Unused"]; next_id := 5 |}
       sample_db).
Proof.
  apply (own_attr_delete Tag _ 1 [("assigned_only", "1")]%string (sample_attr 4 1 "Unused")).
  - split; [|split].
    + apply table_wf_ids. split; [by_decide|by_decide].
    + intros []; apply table_wf_ids; (split; [by_decide|by_decide]).
    + intros []; by_decide.
  - by_decide.
  - reflexivity.
  - reflexivity.
  - intros H. destruct (H eq_refl) as (rid & Hin). revert Hin. simpl.
    rewrite !elem_of_cons, elem_of_nil. intros [H1|[H1|[H1|[H1|[]]]]]; discriminate.
Defined.

Lemma filter_fmap_comm {A} (P : A -> Prop) `{forall x, Decision (P x)}
    (f : A -> A) (l : list A) :
  (forall x, x ∈ l -> P (f x) <-> P x) -> filter P (f <$> l) = f <$> filter P l.
Proof.
  induction l as [|x l IH]; intros Hf; [done|].
  rewrite fmap_cons, !filter_cons.
  rewrite IH by (intros y Hy; apply Hf; by right).
  destruct (decide (P (f x))) as [Hfx|Hfx], (decide (P x)) as [Hx|Hx]; try done.
  - apply (Hf x) in Hfx; [done|by left].
  - apply (Hf x) in Hx; [done|by left].
Qed.

Lemma saved_attr_rows m s A A' :
  table_wf Attribute.id (Orm.objects m s) -> A ∈ rows (Orm.objects m s) ->
  Attribute.id A' = Attribute.id A ->
  rows (Orm.objects m (Orm.saved_attr m A' s)) =
    (fun x => if decide (x = A) then A' else x) <$> rows (Orm.objects m s).
Proof.
  intros [Hnd _] HA Hid. unfold Orm.saved_attr.
  rewrite objects_set_objects, decide_True by done. simpl.
  apply list_fmap_ext. intros i x Hx. apply list_elem_of_lookup_2 in Hx.
  destruct (decide (Attribute.id x = Attribute.id A')) as [Hx'|Hx'].
  - rewrite decide_True; [done|].
    eapply (NoDup_fmap_eq Attribute.id); [exact Hnd|done..|congruence].
  - rewrite decide_False; [done|]. intros ->. congruence.
Qed.

Lemma saved_attr_same m s A :
  table_wf Attribute.id (Orm.objects m s) -> A ∈ rows (Orm.objects m s) ->
  Orm.saved_attr m A s = s.
Proof.
  intros Hwf HA.
  assert (Hrows : rows (Orm.objects m (Orm.saved_attr m A s)) = rows (Orm.objects m s)).
  { rewrite (saved_attr_rows m s A A) by done.
    rewrite <- (list_fmap_id (rows (Orm.objects m s))) at 2.
    apply list_fmap_ext. intros i x _. simpl. by case_decide; subst. }
  unfold Orm.saved_attr in *.
  rewrite objects_set_objects, decide_True in Hrows by done. simpl in Hrows.
  rewrite Hrows. destruct m, s as [us rs [tr tn] [ir inn] rt ri]; reflexivity.
Qed.

(** X10: an update or partial update of one of the requester's own
    tags (ingredients) with valid data, in a well-formed store and without
    [assigned_only], is answered 200 with the row's id and its name after
    the update; only the name of that row changes: the other rows, every
    association, every recipe and every user are as before, so each recipe
    that carried the row carries the renamed row; with no name in the data
    the store is unchanged. *)
Theorem own_attr_rename m s u qp A d c :
  wf s -> A ∈ rows (Orm.objects m s) -> Attribute.user A = u ->
  Drf.query_get "assigned_only" qp = None ->
  c = BaseRecipeAttributesViewSet.PutDetail (Attribute.id A) (Valid d) \/
  c = BaseRecipeAttributesViewSet.PatchDetail (Attribute.id A) (Valid d) ->
  exists s',
    BaseRecipeAttributesViewSet.view m (request u qp c) s =
      ({| data := AttrDetailData
                    {| repr_id := Attribute.id A;
                       repr_name := default (Attribute.name A) (v_name d) |};
          status := HTTP_200_OK |}, s') /\
    rows (Orm.objects m s') =
      (fun x => if decide (x = A)
                then renamed A (default (Attribute.name A) (v_name d)) else x)
        <$> rows (Orm.objects m s) /\
    (forall m', Orm.through m' s' = Orm.through m' s) /\
    (forall m', m' <> m -> Orm.objects m' s' = Orm.objects m' s) /\
    recipes s' = recipes s /\ users s' = users s /\
    (forall rid,
       Orm.related m rid s' =
         (fun x => if decide (x = A)
                   then renamed A (default (Attribute.name A) (v_name d)) else x)
           <$> Orm.related m rid s) /\
    (v_name d = None -> s' = s).
Proof.
  intros Hwf HA Hu Hq Hc.
  assert (Hp : assigned_only_parses qp = true)
    by (unfold assigned_only_parses; by rewrite Hq).
  destruct (attr_get_object_own m s u qp A Hwf HA Hu Hp) as [Hok _].
  assert (Hget : BaseRecipeAttributesViewSet.get_object m u qp (Attribute.id A) s = (Ok A, s)).
  { apply Hok. unfold assigned_only. by rewrite Hq. }
  destruct Hwf as (_ & Ho & _).
  set (A' := renamed A (default (Attribute.name A) (v_name d))).
  exists (Orm.saved_attr m A' s).
  assert (Hrows : rows (Orm.objects m (Orm.saved_attr m A' s)) =
                  (fun x => if decide (x = A) then A' else x) <$> rows (Orm.objects m s))
    by (by apply saved_attr_rows).
  split; [|split; [exact Hrows|split; [|split; [|split; [|split; [|split]]]]]].
  - unfold BaseRecipeAttributesViewSet.view, Drf.dispatch, request. simpl.
    destruct Hc as [-> | ->]; simpl; unfold BaseRecipeAttributesViewSet.update;
      by erewrite bind_ok by exact Hget.
  - intros m'. unfold Orm.saved_attr. by rewrite through_set_objects.
  - intros m' Hm'. unfold Orm.saved_attr. by destruct m, m'.
  - by destruct m.
  - by destruct m.
  - intros rid. unfold Orm.related. rewrite Hrows.
    assert (Hth : Orm.through m (Orm.saved_attr m A' s) = Orm.through m s)
      by (unfold Orm.saved_attr; by rewrite through_set_objects).
    rewrite Hth. apply filter_fmap_comm. intros x Hx. by case_decide; subst.
  - intros Hn. unfold A'. rewrite Hn. simpl.
    replace (renamed A (Attribute.name A)) with A by (by destruct A).
    by apply saved_attr_same.
Qed.

Lemma own_attr_rename_witness :
  exists s',
    TagViewSet
      (request 1 []
         (BaseRecipeAttributesViewSet.PatchDetail 1 (Valid {| v_name := Some "Plant" |})))
      sample_db =
      ({| data := AttrDetailData {| repr_id := 1; repr_name := "Plant" |};
          status := HTTP_200_OK |}, s') /\
    Orm.related Tag 2 s' = [sample_attr 1 1 "Plant"; sample_attr 3 1 "Dessert"].
Proof.
  destruct (own_attr_rename Tag sample_db 1 [] (sample_attr 1 1 "Vegan")
              {| v_name := Some "Plant"%string |}
              (BaseRecipeAttributesViewSet.PatchDetail 1 (Valid {| v_name := Some "Plant" |})))
    as (s' & Hview & _ & _ & _ & _ & _ & Hrel & _).
  - apply sample_db_wf.
  - by_decide.
  - reflexivity.
  - reflexivity.
  - by right.
  - exists s'. split; [exact Hview|]. rewrite Hrel. reflexivity.
Defined.

(** ** What the reconciliation loops add *)

Lemma get_or_create_attrs_reconcile m auth items recipe :
  get_or_create_attrs m auth items recipe = reconcile m auth items (Recipe.id recipe).
Proof.
  destruct m; [apply get_or_create_tags_reconcile|apply get_or_create_ingredients_reconcile].
Qed.

Section Additions.
Context (m : AttrModel) (u rid : Z).

Lemma adds_only_refl l s : adds_only m u rid l s s.
Proof. split; [lia|]. split; intros; by left. Qed.

Lemma next_id_grown n s :
  next_id (Orm.objects m (grown m u n s)) = next_id (Orm.objects m s) + 1.
Proof. unfold grown. by rewrite objects_set_objects, decide_True. Qed.

Lemma item_adds_only item s r s' :
  reconcile_item m u rid item s = (r, s') -> adds_only m u rid [item] s s'.
Proof.
  intros Hrun. pose proof (reconcile_item_spec m u rid item s) as Hspec.
  rewrite Hrun in Hspec. inversion Hspec as [t Hm| Hm |t1 t2 l Hm]; subst.
  - assert (Ht : t ∈ Orm.matching u (item_name item) (rows (Orm.objects m s)))
      by (rewrite Hm; by apply list_elem_of_singleton).
    apply matching_elem in Ht as [[Htu Htn] Hin].
    split; [by rewrite objects_link|]. split.
    + intros x Hx. left. by rewrite objects_link in Hx.
    + intros p Hp. apply elem_of_through_link in Hp as [Hp| ->]; [by left|].
      right. split; [done|]. exists t. rewrite objects_link.
      repeat split; try done. unfold names. simpl. rewrite Htn. by left.
  - set (n := item_name item) in *.
    split; [rewrite objects_link, next_id_grown; lia|]. split.
    + intros x Hx. rewrite objects_link, objects_grown in Hx.
      apply elem_of_app in Hx as [Hx|Hx]; [by left|].
      apply list_elem_of_singleton in Hx as ->. right.
      rewrite objects_link, next_id_grown. simpl.
      split; [done|]. split; [by left|lia].
    + intros p Hp.
      apply (elem_of_through_link m rid (Attribute.id (created m u n s))) in Hp
        as [Hp| ->].
      * left. by rewrite through_grown in Hp.
      * right. split; [done|]. exists (created m u n s).
        rewrite objects_link, objects_grown.
        split; [apply elem_of_app; right; by left|].
        repeat split. by left.
  - apply adds_only_refl.
Qed.

Lemma adds_only_step x l s s1 s' :
  adds_only m u rid [x] s s1 -> adds_only m u rid l s1 s' -> extends m s1 s' ->
  adds_only m u rid (x :: l) s s'.
Proof.
  intros (Hn1 & Hr1 & Ht1) (Hn2 & Hr2 & Ht2) [Hpre _].
  split; [lia|]. split.
  - intros t Ht. apply Hr2 in Ht as [Ht|(Hu & Hn & Hid)].
    + apply Hr1 in Ht as [Ht|(Hu & Hn & Hid)]; [by left|].
      right. split; [done|]. split; [|lia].
      unfold names in *. simpl in *. apply list_elem_of_singleton in Hn.
      apply elem_of_cons. by left.
    + right. split; [done|]. split; [|lia]. unfold names in *. simpl. by right.
  - intros p Hp. apply Ht2 in Hp as [Hp|(Hp1 & t & Hin & Hid & Hu & Hn)].
    + apply Ht1 in Hp as [Hp|(Hp1 & t & Hin & Hid & Hu & Hn)]; [by left|].
      right. split; [done|]. exists t.
      split; [by eapply prefix_elem_of|].
      repeat split; try done.
      unfold names in *. simpl in *. apply list_elem_of_singleton in Hn.
      apply elem_of_cons. by left.
    + right. split; [done|]. exists t. repeat split; try done.
      unfold names in *. simpl. by right.
Qed.

Lemma reconcile_adds_only l s r s' :
  reconcile m u l rid s = (r, s') -> adds_only m u rid l s s'.
Proof.
  revert s. induction l as [|x l IH]; intros s Hrun.
  - inversion Hrun; subst. apply adds_only_refl.
  - rewrite reconcile_cons in Hrun.
    destruct (reconcile_item m u rid x s) as [[[]|e] s1] eqn:Hx.
    + eapply adds_only_step; [by eapply item_adds_only|by apply IH|].
      by eapply reconcile_extends.
    + inversion Hrun; subst.
      eapply adds_only_step; [by eapply item_adds_only|apply adds_only_refl|].
      split; [done|auto].
Qed.

Lemma reconcile_all_settled l s :
  (forall item, item ∈ l -> settled m u rid (item_name item) s) ->
  reconcile m u l rid s = (Ok tt, s).
Proof.
  induction l as [|x l IH]; intros Hall; [done|].
  rewrite reconcile_cons, settled_item_id by (apply Hall; by left).
  apply IH. intros item Hin. apply Hall. by right.
Qed.

Lemma reconcile_raises l s e s' :
  reconcile m u l rid s = (Raise e, s') -> e = MultipleObjectsReturned.
Proof.
  revert s. induction l as [|x l IH]; intros s Hrun; [done|].
  rewrite reconcile_cons in Hrun.
  pose proof (reconcile_item_spec m u rid x s) as Hspec.
  destruct (reconcile_item m u rid x s) as [[[]|e1] s1] eqn:Hx.
  - by eapply IH.
  - inversion Hrun; subst. by inversion Hspec.
Qed.

Lemma matching_prefix n (l k : list Attribute.t) :
  l `prefix_of` k -> Orm.matching u n l `prefix_of` Orm.matching u n k.
Proof. intros [k' ->]. rewrite matching_app. by apply prefix_app_r. Qed.

Lemma reconcile_ok_unambiguous l s s' :
  reconcile m u l rid s = (Ok tt, s') -> unambiguous m u l s.
Proof.
  intros Hrun item Hin.
  destruct (reconcile_ok_settled m u rid l s s' Hrun item Hin) as (t & Hm & _).
  destruct (reconcile_extends m u rid l s _ s' Hrun) as [Hpre _].
  apply (matching_prefix (item_name item)) in Hpre. rewrite Hm in Hpre.
  apply prefix_length in Hpre. simpl in Hpre. lia.
Qed.

Lemma reconcile_related l s s' :
  NoDup (Attribute.id <$> rows (Orm.objects m s')) ->
  (forall a, (rid, a) ∉ Orm.through m s) ->
  reconcile m u l rid s = (Ok tt, s') ->
  forall t, t ∈ Orm.related m rid s' <->
            t ∈ rows (Orm.objects m s') /\ Attribute.user t = u /\
            Attribute.name t ∈ names l.
Proof.
  intros Hnd Hfresh Hrun t. unfold Orm.related. rewrite list_elem_of_filter. split.
  - intros [Hp Hin]. split; [done|].
    destruct (reconcile_adds_only l s _ s' Hrun) as (_ & _ & Hadd).
    apply Hadd in Hp as [Hp|(_ & t0 & Hin0 & Hid & Hu & Hn)]; [by apply Hfresh in Hp|].
    simpl in Hid.
    assert (t0 = t) as <- by (by eapply (NoDup_fmap_eq Attribute.id)).
    done.
  - intros (Hin & Hu & Hn). split; [|done].
    unfold names in Hn. apply list_elem_of_fmap in Hn as (item & Hn & Hitem).
    destruct (reconcile_ok_settled m u rid l s s' Hrun item Hitem) as (t' & Hm & Hp).
    assert (Ht : t ∈ Orm.matching u (item_name item) (rows (Orm.objects m s')))
      by (by apply matching_elem).
    rewrite Hm in Ht. by apply list_elem_of_singleton in Ht as ->.
Qed.

End Additions.

(** X11: a loop that returned has settled its payload: run again on
    the store it left, with the same payload for the same recipe, it
    returns and changes nothing. *)
Theorem get_or_create_idempotent m auth items recipe s s' :
  get_or_create_attrs m auth items recipe s = (Ok tt, s') ->
  get_or_create_attrs m auth items recipe s' = (Ok tt, s').
Proof.
  rewrite get_or_create_attrs_reconcile. intros Hrun.
  apply reconcile_all_settled. by eapply reconcile_ok_settled.
Qed.

Lemma get_or_create_idempotent_witness :
  get_or_create_attrs Tag 1 repeated_items (sample_recipe 1 1 "Curry")
    (get_or_create_attrs Tag 1 repeated_items (sample_recipe 1 1 "Curry") sample_db).2 =
  (Ok tt, (get_or_create_attrs Tag 1 repeated_items (sample_recipe 1 1 "Curry") sample_db).2).
Proof. apply get_or_create_idempotent with (s := sample_db). reflexivity. Defined.

(** X12: whatever its outcome, a loop over tags (ingredients) removes
    and changes nothing: the rows of the model that were stored stay in
    place and the associations stay; recipes, users and the other model
    are untouched; every row it adds belongs to the authenticated user,
    carries a name of the payload and has an id the table had not given
    out; every association it adds is one of the given recipe with a row
    of that user that carries a name of the payload. *)
Theorem get_or_create_adds_only m auth items recipe s :
  extends m s (get_or_create_attrs m auth items recipe s).2 /\
  attr_frame m s (get_or_create_attrs m auth items recipe s).2 /\
  adds_only m auth (Recipe.id recipe) items s (get_or_create_attrs m auth items recipe s).2.
Proof.
  rewrite get_or_create_attrs_reconcile.
  destruct (reconcile m auth items (Recipe.id recipe) s) as [r s'] eqn:Hrun. simpl.
  split; [by eapply reconcile_extends|]. split; [by eapply reconcile_frame|].
  by eapply reconcile_adds_only.
Qed.

(** X13: a loop over tags (ingredients) returns exactly when no name of
    the payload is carried by two or more stored rows of the authenticated
    user; the only exception it raises is [MultipleObjectsReturned]. *)
Theorem get_or_create_returns_iff_unambiguous m auth items recipe s :
  ((exists s', get_or_create_attrs m auth items recipe s = (Ok tt, s')) <->
   unambiguous m auth items s) /\
  (forall e s', get_or_create_attrs m auth items recipe s = (Raise e, s') ->
                e = MultipleObjectsReturned).
Proof.
  rewrite get_or_create_attrs_reconcile. split; [split|].
  - intros [s' Hrun]. by eapply reconcile_ok_unambiguous.
  - apply reconcile_returns.
  - intros e s'. apply reconcile_raises.
Qed.

(** ** What a create and an update leave behind *)

Lemma related_proper m rid s s' :
  Orm.objects m s' = Orm.objects m s -> Orm.through m s' = Orm.through m s ->
  Orm.related m rid s' = Orm.related m rid s.
Proof. intros Ho Ht. unfold Orm.related. by rewrite Ho, Ht. Qed.

Lemma extends_proper m s0 s s' :
  Orm.objects m s' = Orm.objects m s -> Orm.through m s' = Orm.through m s ->
  extends m s0 s -> extends m s0 s'.
Proof. intros Ho Ht [Hp Hth]. split; [by rewrite Ho|]. intros p Hp'. rewrite Ht. auto. Qed.

Lemma fresh_recipe_unlinked m s a :
  wf s -> (next_id (recipes s), a) ∉ Orm.through m s.
Proof.
  intros Hwf Hin. destruct (through_recipe_exists m s _ _ Hwf Hin) as (r & Hr & Hid).
  destruct Hwf as (Hrec & _). pose proof (table_wf_lt Recipe.id _ r Hrec Hr). lia.
Qed.

Lemma serializer_create_effect auth vd s r s' :
  consistent s ->
  RecipeSerializer.create auth auth vd s = (Ok r, s') ->
  r = inserted_recipe auth vd s /\
  recipes s' = recipes (with_recipe auth vd s) /\
  users s' = users s /\
  (forall m, extends m s s') /\
  (forall m t,
     t ∈ Orm.related m (Recipe.id r) s' <->
     t ∈ rows (Orm.objects m s') /\ Attribute.user t = auth /\
     Attribute.name t ∈ names (default [] (payload m vd))).
Proof.
  intros Hc Hrun. rewrite create_run in Hrun. simpl in Hrun.
  pose proof (with_recipe_consistent auth vd s Hc) as H0.
  destruct (reconcile Tag _ _ _ _) as [r1 s1] eqn:H1.
  pose proof (reconcile_keeps_consistent _ _ _ _ _ _ _ H0 H1) as Hc1.
  destruct r1 as [[]|e]; [|done].
  destruct (reconcile Ingredient _ _ _ _) as [r2 s2] eqn:H2.
  pose proof (reconcile_keeps_consistent _ _ _ _ _ _ _ Hc1 H2) as Hc2.
  destruct r2 as [[]|e]; [|done].
  inversion Hrun; subst r s'. clear Hrun.
  destruct (reconcile_frame _ _ _ _ _ _ _ H1) as (Hr1 & Hu1 & Hf1).
  destruct (reconcile_frame _ _ _ _ _ _ _ H2) as (Hr2 & Hu2 & Hf2).
  destruct (Hf1 Ingredient ltac:(done)) as [Hio1 Hit1].
  destruct (Hf2 Tag ltac:(done)) as [Hto2 Htt2].
  split; [done|]. split; [by rewrite Hr2, Hr1|]. split; [by rewrite Hu2, Hu1|].
  split.
  - intros [|].
    + apply (extends_proper Tag s s1 s2 Hto2 Htt2).
      apply reconcile_extends in H1.
      unfold extends in H1.
      by rewrite objects_with_recipe, through_with_recipe in H1.
    + apply reconcile_extends in H2.
      unfold extends in H2.
      by rewrite Hio1, Hit1, objects_with_recipe, through_with_recipe in H2.
  - intros [|] t.
    + rewrite (related_proper Tag _ s1 s2 Hto2 Htt2), Hto2.
      apply (reconcile_related Tag auth _ _ (with_recipe auth vd s) s1); [|  |exact H1].
      * apply Hc1.
      * intros a. rewrite through_with_recipe. apply fresh_recipe_unlinked, Hc.
    + apply (reconcile_related Ingredient auth _ _ s1 s2); [|  |exact H2].
      * apply Hc2.
      * intros a. rewrite Hit1, through_with_recipe. apply fresh_recipe_unlinked, Hc.
Qed.

Lemma handle_exception_not_created e : status (Drf.handle_exception e) <> HTTP_201_CREATED.
Proof. by destruct e. Qed.

(** X14: a recipe create that is answered 201, in a well-formed store
    that keeps owners together: the response shows the new recipe as the
    store has it afterwards; the recipe table is the old one with the new
    row appended, whose owner is the requester and whose id no stored
    recipe had; users are untouched; the tags and ingredients that were
    stored stay in place and keep their associations; and the new recipe's
    tags (ingredients) are exactly the requester's rows that carry a name
    of the payload. *)
Theorem recipe_create_effect s u qp vd resp s' :
  consistent s ->
  RecipeViewSet.view (request u qp (RecipeViewSet.PostList (Valid vd))) s = (resp, s') ->
  status resp = HTTP_201_CREATED ->
  data resp =
    RecipeDetailData
      (RecipeDetailSerializer.to_representation s' (inserted_recipe u vd s)) /\
  rows (recipes s') = rows (recipes s) ++ [inserted_recipe u vd s] /\
  Recipe.user (inserted_recipe u vd s) = u /\
  (forall x, x ∈ rows (recipes s) -> Recipe.id x <> Recipe.id (inserted_recipe u vd s)) /\
  users s' = users s /\
  (forall m, extends m s s') /\
  (forall m t,
     t ∈ Orm.related m (Recipe.id (inserted_recipe u vd s)) s' <->
     t ∈ rows (Orm.objects m s') /\ Attribute.user t = u /\
     Attribute.name t ∈ names (default [] (payload m vd))).
Proof.
  intros Hc Hview Hst. revert Hview.
  unfold RecipeViewSet.view, Drf.dispatch, request. simpl.
  unfold RecipeViewSet.perform_create, bind.
  destruct (RecipeSerializer.create u u vd s) as [[r|e] s1] eqn:Hrun; simpl;
    intros [= <- <-]; [|by apply handle_exception_not_created in Hst].
  destruct (serializer_create_effect u vd s r s1 Hc Hrun) as (-> & Hr & Hu & Hext & Hrel).
  split; [done|]. split; [by rewrite Hr|]. split; [done|].
  split; [|split; [exact Hu|split; [exact Hext|exact Hrel]]].
  intros x Hx. destruct Hc as [(Hrec & _) _].
  pose proof (table_wf_lt Recipe.id _ x Hrec Hx). simpl. lia.
Qed.

Lemma recipe_create_effect_witness :
  Orm.related Tag 4
    (RecipeViewSet.view
       (request 1 [] (RecipeViewSet.PostList (Valid dinner_breakfast_data))) sample_db).2 =
    [sample_attr 1 1 "Vegan"; sample_attr 4 1 "Breakfast"] /\
  forall t,
    t ∈ Orm.related Tag 4
          (RecipeViewSet.view
             (request 1 [] (RecipeViewSet.PostList (Valid dinner_breakfast_data)))
             sample_db).2 <->
    t ∈ rows (Orm.objects Tag
                (RecipeViewSet.view
                   (request 1 [] (RecipeViewSet.PostList (Valid dinner_breakfast_data)))
                   sample_db).2) /\
    Attribute.user t = 1 /\
    Attribute.name t ∈ names (default [] (payload Tag dinner_breakfast_data)).
Proof.
  split; [reflexivity|].
  apply (recipe_create_effect sample_db 1 [] dinner_breakfast_data
           (RecipeViewSet.view
              (request 1 [] (RecipeViewSet.PostList (Valid dinner_breakfast_data)))
              sample_db).1).
  - split; [apply sample_db_wf|apply sample_db_same_owner].
  - reflexivity.
  - reflexivity.
Defined.

Lemma saved_recipe_rows s R R' :
  table_wf Recipe.id (recipes s) -> R ∈ rows (recipes s) ->
  Recipe.id R' = Recipe.id R ->
  rows (recipes (Orm.saved_recipe R' s)) =
    (fun x => if decide (x = R) then R' else x) <$> rows (recipes s).
Proof.
  intros [Hnd _] HR Hid. unfold Orm.saved_recipe. simpl.
  apply list_fmap_ext. intros i x Hx. apply list_elem_of_lookup_2 in Hx.
  destruct (decide (Recipe.id x = Recipe.id R')) as [Hx'|Hx'].
  - rewrite decide_True; [done|].
    eapply (NoDup_fmap_eq Recipe.id); [exact Hnd|done..|congruence].
  - rewrite decide_False; [done|]. intros ->. congruence.
Qed.

Lemma attr_phase_users m auth rid field s r s' :
  attr_phase m auth rid field s = (r, s') -> users s' = users s.
Proof.
  destruct field as [items|]; simpl; [|by intros [= _ <-]].
  intros Hrun. apply reconcile_frame in Hrun as (_ & -> & _). by destruct m.
Qed.

Lemma attr_phase_effect m auth rid field s s' :
  consistent s /\ owns auth rid s ->
  attr_phase m auth rid field s = (Ok tt, s') ->
  (forall items, field = Some items ->
     forall t, t ∈ Orm.related m rid s' <->
               t ∈ rows (Orm.objects m s') /\ Attribute.user t = auth /\
               Attribute.name t ∈ names items) /\
  (forall p, p.1 <> rid -> p ∈ Orm.through m s' <-> p ∈ Orm.through m s).
Proof.
  intros H0 Hrun.
  pose proof (attr_phase_consistent _ _ _ _ _ _ _ H0 Hrun) as [[(_ & Ho & _) _] _].
  destruct field as [items|]; simpl in Hrun.
  - split.
    + intros ? [= <-].
      apply (reconcile_related m auth rid items (Orm.cleared m rid s) s');
        [apply Ho| |done].
      intros a. apply not_elem_of_through_cleared.
    + intros p Hp.
      destruct (reconcile_adds_only m auth rid items _ _ _ Hrun) as (_ & _ & Hadd).
      destruct (reconcile_extends m auth rid items _ _ _ Hrun) as [_ Hkeep].
      rewrite through_cleared, decide_True in Hadd, Hkeep by done.
      split.
      * intros Hin. apply Hadd in Hin as [Hin|[Hrid _]]; [|done].
        by apply list_elem_of_filter in Hin as [_ Hin].
      * intros Hin. apply Hkeep. by apply list_elem_of_filter.
  - inversion Hrun; subst. split; [done|tauto].
Qed.

Lemma serializer_update_effect auth R vd s r s' :
  consistent s -> R ∈ rows (recipes s) -> Recipe.user R = auth ->
  RecipeSerializer.update auth R vd s = (Ok r, s') ->
  r = RecipeSerializer.setattrs R vd /\
  rows (recipes s') =
    (fun x => if decide (x = R) then RecipeSerializer.setattrs R vd else x)
      <$> rows (recipes s) /\
  users s' = users s /\
  (forall m items, payload m vd = Some items ->
     forall t, t ∈ Orm.related m (Recipe.id R) s' <->
               t ∈ rows (Orm.objects m s') /\ Attribute.user t = auth /\
               Attribute.name t ∈ names items) /\
  (forall m p, p.1 <> Recipe.id R -> p ∈ Orm.through m s' <-> p ∈ Orm.through m s).
Proof.
  intros Hc HR Hu Hrun. rewrite update_run in Hrun.
  assert (H0 : consistent s /\ owns auth (Recipe.id R) s)
    by (split; [done|by exists R]).
  destruct (attr_phase Tag _ _ _ _) as [r1 s1] eqn:H1.
  pose proof (attr_phase_consistent _ _ _ _ _ _ _ H0 H1) as Hc1.
  destruct r1 as [[]|e]; [|done].
  destruct (attr_phase Ingredient _ _ _ _) as [r2 s2] eqn:H2.
  destruct r2 as [[]|e]; [|done].
  inversion Hrun; subst r s'. clear Hrun.
  destruct (attr_phase_frame _ _ _ _ _ _ _ H1) as [Hr1 Hf1].
  destruct (attr_phase_frame _ _ _ _ _ _ _ H2) as [Hr2 Hf2].
  destruct (Hf1 Ingredient ltac:(done)) as [Hio1 Hit1].
  destruct (Hf2 Tag ltac:(done)) as [Hto2 Htt2].
  destruct (attr_phase_effect _ _ _ _ _ _ H0 H1) as [Hrel1 Hoth1].
  destruct (attr_phase_effect _ _ _ _ _ _ Hc1 H2) as [Hrel2 Hoth2].
  split; [done|]. split; [|split; [|split]].
  - rewrite saved_recipe_rows with (R := R); [by rewrite Hr2, Hr1|..|done].
    + rewrite Hr2, Hr1. apply Hc.
    + by rewrite Hr2, Hr1.
  - simpl. by rewrite (attr_phase_users _ _ _ _ _ _ _ H2), (attr_phase_users _ _ _ _ _ _ _ H1).
  - intros [|] items Hitems t;
      rewrite (related_proper _ _ s2 (Orm.saved_recipe _ s2)
                 (objects_saved_recipe _ _ _) (through_saved_recipe _ _ _)),
        objects_saved_recipe.
    + rewrite (related_proper Tag _ s1 s2 Hto2 Htt2), Hto2. by apply Hrel1.
    + by apply Hrel2.
  - intros [|] p Hp; rewrite through_saved_recipe.
    + rewrite Htt2. by apply Hoth1.
    + rewrite <- Hit1. by apply Hoth2.
Qed.

(** X15: an update or partial update of a recipe with valid data that
    is answered 200, in a well-formed store that keeps owners together:
    the recipe is one of the requester's; the response shows it as stored
    afterwards; in the recipe table exactly that row is replaced, by the
    row with the given fields set, so that no recipe changes its id or its
    owner; users are untouched; for a field given in the data (tags,
    ingredients) the recipe's related rows are afterwards exactly the
    requester's rows that carry a name of the field's list; and the
    associations of every other recipe are as before. *)
Theorem recipe_update_effect s u qp pk vd c resp s' :
  consistent s ->
  c = RecipeViewSet.PutDetail pk (Valid vd) \/
  c = RecipeViewSet.PatchDetail pk (Valid vd) ->
  RecipeViewSet.view (request u qp c) s = (resp, s') ->
  status resp = HTTP_200_OK ->
  exists R,
    R ∈ rows (recipes s) /\ Recipe.id R = pk /\ Recipe.user R = u /\
    data resp =
      RecipeDetailData
        (RecipeDetailSerializer.to_representation s' (RecipeSerializer.setattrs R vd)) /\
    rows (recipes s') =
      (fun x => if decide (x = R) then RecipeSerializer.setattrs R vd else x)
        <$> rows (recipes s) /\
    Recipe.id <$> rows (recipes s') = Recipe.id <$> rows (recipes s) /\
    Recipe.user <$> rows (recipes s') = Recipe.user <$> rows (recipes s) /\
    users s' = users s /\
    (forall m items, payload m vd = Some items ->
       forall t, t ∈ Orm.related m pk s' <->
                 t ∈ rows (Orm.objects m s') /\ Attribute.user t = u /\
                 Attribute.name t ∈ names items) /\
    (forall m p, p.1 <> pk -> p ∈ Orm.through m s' <-> p ∈ Orm.through m s).
Proof.
  intros Hc Hcall Hview Hst.
  assert (Hupd : RecipeViewSet.update u qp pk (Valid vd) s = RecipeViewSet.handler u qp c s)
    by (by destruct Hcall as [-> | ->]).
  revert Hview. unfold RecipeViewSet.view, Drf.dispatch, request. simpl.
  rewrite <- Hupd. unfold RecipeViewSet.update, bind.
  pose proof (recipe_get_object_spec u qp pk s) as Hget.
  destruct (RecipeViewSet.get_object u qp pk s) as [[R|e] s0]; simpl;
    [|intros [= <- <-]; by apply handle_exception_not_ok in Hst].
  destruct Hget as (-> & HR & Hu & Hid).
  destruct (RecipeSerializer.update u R vd s) as [[r|e] s1] eqn:Hrun; simpl;
    intros [= <- <-]; [|by apply handle_exception_not_ok in Hst].
  destruct (serializer_update_effect u R vd s r s1 Hc HR Hu Hrun)
    as (-> & Hrows & Husers & Hrel & Hoth).
  exists R. subst pk.
  split; [done|]. split; [done|]. split; [done|]. split; [done|].
  split; [exact Hrows|].
  split; [|split; [|split; [exact Husers|split; [exact Hrel|exact Hoth]]]].
  - rewrite Hrows, <- list_fmap_compose. apply list_fmap_ext.
    intros i x _. simpl. by case_decide; subst.
  - rewrite Hrows, <- list_fmap_compose. apply list_fmap_ext.
    intros i x _. simpl. by case_decide; subst.
Qed.

Lemma recipe_update_effect_witness :
  exists R,
    R ∈ rows (recipes sample_db) /\ Recipe.id R = 2 /\ Recipe.user R = 1 /\
    forall t,
      t ∈ Orm.related Tag 2
            (RecipeViewSet.view
               (request 1 [] (RecipeViewSet.PatchDetail 2 (Valid dinner_breakfast_data)))
               sample_db).2 <->
      t ∈ rows (Orm.objects Tag
                  (RecipeViewSet.view
                     (request 1 []
                        (RecipeViewSet.PatchDetail 2 (Valid dinner_breakfast_data)))
                     sample_db).2) /\
      Attribute.user t = 1 /\
      Attribute.name t ∈ names [ {| item_name := "Vegan" |}; {| item_name := "Breakfast" |} ].
Proof.
  destruct (recipe_update_effect sample_db 1 [] 2 dinner_breakfast_data
              (RecipeViewSet.PatchDetail 2 (Valid dinner_breakfast_data))
              (RecipeViewSet.view
                 (request 1 [] (RecipeViewSet.PatchDetail 2 (Valid dinner_breakfast_data)))
                 sample_db).1
              (RecipeViewSet.view
                 (request 1 [] (RecipeViewSet.PatchDetail 2 (Valid dinner_breakfast_data)))
                 sample_db).2)
    as (R & HR & Hid & Hu & _ & _ & _ & _ & _ & Hrel & _).
  - split; [apply sample_db_wf|apply sample_db_same_owner].
  - by right.
  - reflexivity.
  - reflexivity.
  - exists R. split; [done|]. split; [done|]. split; [done|].
    by apply (Hrel Tag).
Defined.

(** ** Requests without effect, and sequences of requests *)

Lemma serializer_create_raises auth user vd s e s' :
  RecipeSerializer.create auth user vd s = (Raise e, s') -> e = MultipleObjectsReturned.
Proof.
  rewrite create_run. simpl.
  destruct (reconcile Tag _ _ _ _) as [[[]|e1] s1] eqn:H1.
  - destruct (reconcile Ingredient _ _ _ _) as [[[]|e2] s2] eqn:H2; [done|].
    intros [= <- <-]. by eapply reconcile_raises.
  - intros [= <- <-]. by eapply reconcile_raises.
Qed.

Lemma attr_phase_raises m auth rid field s e s' :
  attr_phase m auth rid field s = (Raise e, s') -> e = MultipleObjectsReturned.
Proof. destruct field; [apply reconcile_raises|done]. Qed.

Lemma serializer_update_raises auth instance vd s e s' :
  RecipeSerializer.update auth instance vd s = (Raise e, s') ->
  e = MultipleObjectsReturned.
Proof.
  rewrite update_run.
  destruct (attr_phase Tag _ _ _ _) as [[[]|e1] s1] eqn:H1.
  - destruct (attr_phase Ingredient _ _ _ _) as [[[]|e2] s2] eqn:H2; [done|].
    intros [= <- <-]. by eapply attr_phase_raises.
  - intros [= <- <-]. by eapply attr_phase_raises.
Qed.

Ltac status_lia :=
  simpl in *;
  unfold is_client_error, HTTP_200_OK, HTTP_201_CREATED, HTTP_204_NO_CONTENT,
    HTTP_500_INTERNAL_SERVER_ERROR in *; lia.

Lemma recipe_handler_without_effect u qp c s :
  match RecipeViewSet.handler u qp c s with
  | (Ok response, s') =>
      s' = s \/
      (~ is_client_error (status response) /\
       c <> RecipeViewSet.GetList /\ forall pk, c <> RecipeViewSet.GetDetail pk)
  | (Raise e, s') =>
      s' = s \/
      (e = MultipleObjectsReturned /\
       c <> RecipeViewSet.GetList /\ forall pk, c <> RecipeViewSet.GetDetail pk)
  end.
Proof.
  pose proof (fun pk => recipe_get_object_spec u qp pk s) as Hget.
  destruct c as [|d|pk|pk d|pk d|pk|pk d|]; simpl.
  - unfold RecipeViewSet.list_, bind, get, lift.
    destruct (RecipeViewSet.get_queryset u qp s); simpl; by left.
  - destruct d as [|vd]; [by left|]. simpl. unfold RecipeViewSet.perform_create, bind.
    destruct (RecipeSerializer.create u u vd s) as [[r|e] s1] eqn:Hrun; simpl.
    + right. split; [status_lia|done].
    + right. split; [by eapply serializer_create_raises|done].
  - unfold RecipeViewSet.retrieve, bind. specialize (Hget pk).
    destruct (RecipeViewSet.get_object u qp pk s) as [[r|e] s1]; simpl;
      left; [by destruct Hget|done].
  - unfold RecipeViewSet.update, bind. specialize (Hget pk).
    destruct (RecipeViewSet.get_object u qp pk s) as [[r|e] s1]; simpl; [|by left].
    destruct Hget as [-> _]. destruct d as [|vd]; [by left|].
    destruct (RecipeSerializer.update u r vd s) as [[r'|e] s1] eqn:Hrun; simpl.
    + right. split; [status_lia|done].
    + right. split; [by eapply serializer_update_raises|done].
  - unfold RecipeViewSet.update, bind. specialize (Hget pk).
    destruct (RecipeViewSet.get_object u qp pk s) as [[r|e] s1]; simpl; [|by left].
    destruct Hget as [-> _]. destruct d as [|vd]; [by left|].
    destruct (RecipeSerializer.update u r vd s) as [[r'|e] s1] eqn:Hrun; simpl.
    + right. split; [status_lia|done].
    + right. split; [by eapply serializer_update_raises|done].
  - unfold RecipeViewSet.destroy, bind. specialize (Hget pk).
    destruct (RecipeViewSet.get_object u qp pk s) as [[r|e] s1]; simpl; [|by left].
    right. split; [status_lia|done].
  - unfold RecipeViewSet.upload_image, bind. specialize (Hget pk).
    destruct (RecipeViewSet.get_object u qp pk s) as [[r|e] s1]; simpl; [|by left].
    destruct Hget as [-> _]. destruct d as [|vd]; simpl; [by left|].
    right. split; [status_lia|done].
  - by left.
Qed.

Lemma attr_handler_without_effect m u qp c s :
  match BaseRecipeAttributesViewSet.handler m u qp c s with
  | (Ok response, s') =>
      s' = s \/
      (~ is_client_error (status response) /\
       c <> BaseRecipeAttributesViewSet.GetList /\
       forall pk, c <> BaseRecipeAttributesViewSet.GetDetail pk)
  | (Raise e, s') => s' = s
  end.
Proof.
  pose proof (fun pk => attr_get_object_spec m u qp pk s) as Hget.
  destruct c as [|d|pk|pk d|pk d|pk]; simpl; try done.
  - unfold BaseRecipeAttributesViewSet.list_, bind, get, lift.
    destruct (BaseRecipeAttributesViewSet.get_queryset m u qp s); simpl; [by left|done].
  - unfold BaseRecipeAttributesViewSet.update, bind. specialize (Hget pk).
    destruct (BaseRecipeAttributesViewSet.get_object m u qp pk s) as [[r|e] s1]; simpl;
      [|done].
    destruct Hget as [-> _]. destruct d as [|vd]; [done|]. simpl.
    right. split; [status_lia|done].
  - unfold BaseRecipeAttributesViewSet.update, bind. specialize (Hget pk).
    destruct (BaseRecipeAttributesViewSet.get_object m u qp pk s) as [[r|e] s1]; simpl;
      [|done].
    destruct Hget as [-> _]. destruct d as [|vd]; [done|]. simpl.
    right. split; [status_lia|done].
  - unfold BaseRecipeAttributesViewSet.destroy, bind. specialize (Hget pk).
    destruct (BaseRecipeAttributesViewSet.get_object m u qp pk s) as [[r|e] s1]; simpl;
      [|done].
    right. split; [status_lia|done].
Qed.

Lemma attr_view_without_effect m req s :
  is_client_error (status (BaseRecipeAttributesViewSet.view m req s).1) \/
  call req = BaseRecipeAttributesViewSet.GetList \/
  (exists pk, call req = BaseRecipeAttributesViewSet.GetDetail pk) ->
  (BaseRecipeAttributesViewSet.view m req s).2 = s.
Proof.
  unfold BaseRecipeAttributesViewSet.view, Drf.dispatch.
  destruct (user req) as [u|]; [|done].
  pose proof (attr_handler_without_effect m u (query_params req) (call req) s) as H.
  destruct (BaseRecipeAttributesViewSet.handler m u (query_params req) (call req) s)
    as [[resp|e] s1]; simpl; [|done].
  destruct H as [->|(Hst & Hl & Hd)]; [done|].
  intros [Hc|[Hc|[pk Hc]]]; [done|done|by apply Hd in Hc].
Qed.

(** X16: on the three routes, a request that is answered with a client
    error (400 to 499), and any GET whatever its answer, leaves the store
    exactly as it was. *)
Theorem refused_or_read_request_changes_nothing r s :
  is_client_error (status (serve r s).1) \/ is_read r ->
  (serve r s).2 = s.
Proof.
  destruct r as [req|req|req]; simpl.
  - unfold RecipeViewSet.view, Drf.dispatch.
    destruct (user req) as [u|]; [|done].
    pose proof (recipe_handler_without_effect u (query_params req) (call req) s) as H.
    destruct (RecipeViewSet.handler u (query_params req) (call req) s)
      as [[resp|e] s1]; simpl.
    + destruct H as [->|(Hst & Hl & Hd)]; [done|].
      intros [Hc|Hc]; [done|].
      destruct (call req); try done. by destruct (Hd pk).
    + destruct H as [->|(-> & Hl & Hd)]; [done|].
      intros [Hc|Hc]; [status_lia|].
      destruct (call req); try done. by destruct (Hd pk).
  - intros [Hc|Hc]; apply attr_view_without_effect; [by left|right].
    destruct (call req); try done; [by left|right; by eexists].
  - intros [Hc|Hc]; apply attr_view_without_effect; [by left|right].
    destruct (call req); try done; [by left|right; by eexists].
Qed.

Lemma refused_or_read_request_changes_nothing_witness :
  (serve (ToRecipes (request 2 [] (RecipeViewSet.DeleteDetail 1))) sample_db).2 = sample_db.
Proof.
  apply refused_or_read_request_changes_nothing. left.
  unfold is_client_error. vm_compute. split; [discriminate|reflexivity].
Defined.

Lemma serve_consistent r s : consistent s -> consistent (serve r s).2.
Proof.
  intros Hc. destruct r as [req|req|req]; simpl.
  - unfold RecipeViewSet.view, Drf.dispatch.
    destruct (user req) as [u|]; [|done].
    pose proof (recipe_handler_consistent u (query_params req) (call req) s Hc) as H.
    by destruct (RecipeViewSet.handler u (query_params req) (call req) s) as [[r|e] s'].
  - by apply attr_requests_keep_same_owner.
  - by apply attr_requests_keep_same_owner.
Qed.

(** X17: whatever requests are served one after the other on the
    three routes, by whatever users and with whatever answers, a
    well-formed store in which every tag and ingredient associated with a
    recipe has the recipe's owner stays so. *)
Theorem request_sequences_keep_same_owner rs s :
  wf s -> same_owner s -> wf (serve_all rs s) /\ same_owner (serve_all rs s).
Proof.
  intros Hwf Hso. assert (Hc : consistent s) by done. clear Hwf Hso.
  revert s Hc. induction rs as [|r rs IH]; intros s Hc; [done|].
  simpl. apply IH. by apply serve_consistent.
Qed.

Lemma request_sequences_keep_same_owner_witness :
  same_owner
    (serve_all
       [ToRecipes (request 1 [] (RecipeViewSet.PostList (Valid dinner_breakfast_data)));
        ToTags (request 1 [] (BaseRecipeAttributesViewSet.DeleteDetail 1));
        ToRecipes (request 2 [] (RecipeViewSet.PatchDetail 3 (Valid clear_tags_data)))]
       sample_db).
Proof.
  apply request_sequences_keep_same_owner;
    [apply sample_db_wf|apply sample_db_same_owner].
Defined.

(** ** user/serializers.py: the profile update *)

Lemma saved_user_twice u1 u2 s :
  User.id u2 = User.id u1 ->
  Orm.saved_user u2 (Orm.saved_user u1 s) = Orm.saved_user u2 s.
Proof.
  intros Hid. unfold Orm.saved_user, Orm.set_users. simpl. f_equal. f_equal.
  rewrite <- list_fmap_compose. apply list_fmap_ext. intros i x _. simpl.
  destruct (decide (User.id x = User.id u1)) as [Hx|Hx].
  - rewrite decide_True by done. by rewrite decide_True by congruence.
  - done.
Qed.

(** X18: [UserSerializer.update] always returns; the user it returns
    has the instance's id, the email and the name of the data where given
    and the instance's otherwise, and the hash of the data's password when
    one is given and not empty, the instance's hash otherwise; in the user
    table exactly the rows with the instance's id are replaced, by the
    returned user; recipes, tags, ingredients and associations are
    untouched. *)
Theorem user_update_effect instance validated_data s :
  exists user s',
    UserSerializer.update instance validated_data s = (Ok user, s') /\
    User.id user = User.id instance /\
    User.email user =
      default (User.email instance) (UserSerializer.p_email validated_data) /\
    User.name user =
      default (User.name instance) (UserSerializer.p_name validated_data) /\
    User.password user = password_after instance validated_data /\
    rows (users s') =
      (fun x => if decide (User.id x = User.id instance) then user else x)
        <$> rows (users s) /\
    next_id (users s') = next_id (users s) /\
    recipes s' = recipes s /\ tags s' = tags s /\ ingredients s' = ingredients s /\
    recipe_tags s' = recipe_tags s /\ recipe_ingredients s' = recipe_ingredients s.
Proof.
  unfold UserSerializer.update, password_after, Orm.save_user, bind, modify, ret.
  destruct (UserSerializer.p_password validated_data) as [pw|];
    [destruct (Py.truthy pw) eqn:Hpw|]; simpl.
  - eexists _, _. split; [reflexivity|]. simpl.
    do 4 (split; [reflexivity|]). split; [|by repeat split].
    rewrite <- list_fmap_compose. apply list_fmap_ext. intros i x _.
    unfold compose. cbn beta.
    destruct (decide (User.id x = User.id instance)) as [Hx|Hx].
    + by rewrite decide_True.
    + by rewrite decide_False.
  - eexists _, _. split; [reflexivity|]. simpl. by repeat split.
  - eexists _, _. split; [reflexivity|]. simpl. by repeat split.
Qed.

(** ** core/management/commands/wait_for_db.py *)

Lemma retry_message :
  WaitForDb.error_message +:+ WaitForDb.wait_messge =
    "Database not available, waiting 2s ..."%string.
Proof. reflexivity. Qed.

Lemma loop_retries failures rest done :
  Forall WaitForDb.retried failures ->
  WaitForDb.loop (failures ++ rest) done =
    WaitForDb.loop rest (done ++ retries failures).
Proof.
  intros Hf. revert done. induction Hf as [|o failures Ho Hf IH]; intros done.
  - simpl. by rewrite app_nil_r.
  - change (retries (o :: failures)) with (retry_effects ++ retries failures).
    rewrite app_assoc, <- IH.
    destruct Ho as [-> | ->]; simpl; by rewrite retry_message.
Qed.

Lemma checks_app l k : WaitForDb.checks (l ++ k) = (WaitForDb.checks l + WaitForDb.checks k)%nat.
Proof. unfold WaitForDb.checks. by rewrite filter_app, length_app. Qed.

Lemma slept_app l k : WaitForDb.slept (l ++ k) = WaitForDb.slept l + WaitForDb.slept k.
Proof.
  induction l as [|e l IH]; [done|]. simpl. destruct e; rewrite ?IH; lia.
Qed.

Lemma checks_retries failures : WaitForDb.checks (retries failures) = length failures.
Proof.
  induction failures as [|o l IH]; [done|].
  change (retries (o :: l)) with (retry_effects ++ retries l).
  rewrite checks_app, IH. reflexivity.
Qed.

Lemma slept_retries failures :
  WaitForDb.slept (retries failures) = 2 * Z.of_nat (length failures).
Proof.
  induction failures as [|o l IH]; [done|].
  change (retries (o :: l)) with (retry_effects ++ retries l).
  rewrite slept_app, IH. simpl length. change (WaitForDb.slept retry_effects) with 2. lia.
Qed.

(** X19: when the checks fail with one of the two caught errors any
    number of times and then pass, the command returns; it has written the
    opening line, then for each failure checked, written the retry line
    and slept 2 seconds, then checked once more and written the success
    line; so it made one check more than there were failures, slept twice
    as many seconds as there were failures, and did nothing after the
    check that passed. *)
Theorem wait_for_db_returns_once_available failures rest :
  Forall WaitForDb.retried failures ->
  WaitForDb.handle (failures ++ WaitForDb.Passes :: rest) =
    (WaitForDb.Returned,
     [WaitForDb.Write "Waiting for database ..."] ++ retries failures ++
     [WaitForDb.Check; WaitForDb.WriteSuccess "Database available!"]) /\
  WaitForDb.checks (WaitForDb.handle (failures ++ WaitForDb.Passes :: rest)).2 =
    S (length failures) /\
  WaitForDb.slept (WaitForDb.handle (failures ++ WaitForDb.Passes :: rest)).2 =
    2 * Z.of_nat (length failures).
Proof.
  intros Hf.
  assert (Hrun : WaitForDb.handle (failures ++ WaitForDb.Passes :: rest) =
                 (WaitForDb.Returned,
                  [WaitForDb.Write "Waiting for database ..."] ++ retries failures ++
                  [WaitForDb.Check; WaitForDb.WriteSuccess "Database available!"])).
  { unfold WaitForDb.handle. rewrite loop_retries by done. reflexivity. }
  split; [exact Hrun|]. rewrite Hrun. cbn [snd]. split.
  - rewrite !checks_app, checks_retries.
    change (WaitForDb.checks [WaitForDb.Write "Waiting for database ..."]) with 0%nat.
    change (WaitForDb.checks
              [WaitForDb.Check; WaitForDb.WriteSuccess "Database available!"]) with 1%nat.
    lia.
  - rewrite !slept_app, slept_retries. simpl. lia.
Qed.

Lemma wait_for_db_returns_once_available_witness :
  WaitForDb.handle
    [WaitForDb.Psycopg2Error; WaitForDb.Psycopg2Error; WaitForDb.OperationalError;
     WaitForDb.OperationalError; WaitForDb.OperationalError; WaitForDb.Passes] =
    (WaitForDb.Returned,
     [WaitForDb.Write "Waiting for database ..."] ++
     retries [WaitForDb.Psycopg2Error; WaitForDb.Psycopg2Error; WaitForDb.OperationalError;
              WaitForDb.OperationalError; WaitForDb.OperationalError] ++
     [WaitForDb.Check; WaitForDb.WriteSuccess "Database available!"]).
Proof.
  apply (wait_for_db_returns_once_available
           [WaitForDb.Psycopg2Error; WaitForDb.Psycopg2Error; WaitForDb.OperationalError;
            WaitForDb.OperationalError; WaitForDb.OperationalError] []).
  repeat (constructor; [(by left) || (by right)|]). constructor.
Defined.

(** X20: the command never gives up and catches nothing but the two
    errors: while every check fails with one of them it is still waiting,
    having made as many checks as there were failures, slept 2 seconds
    after each and written no success line; and the first check that
    raises anything else ends the command with that exception, with no
    further write, sleep or check. *)
Theorem wait_for_db_retries_only_caught_errors failures rest :
  Forall WaitForDb.retried failures ->
  WaitForDb.handle failures =
    (WaitForDb.Waiting, [WaitForDb.Write "Waiting for database ..."] ++ retries failures) /\
  WaitForDb.checks (WaitForDb.handle failures).2 = length failures /\
  WaitForDb.slept (WaitForDb.handle failures).2 = 2 * Z.of_nat (length failures) /\
  (forall msg, WaitForDb.WriteSuccess msg ∉ (WaitForDb.handle failures).2) /\
  WaitForDb.handle (failures ++ WaitForDb.OtherError :: rest) =
    (WaitForDb.Raised,
     [WaitForDb.Write "Waiting for database ..."] ++ retries failures ++ [WaitForDb.Check]).
Proof.
  intros Hf.
  assert (Hrun : WaitForDb.handle failures =
                 (WaitForDb.Waiting,
                  [WaitForDb.Write "Waiting for database ..."] ++ retries failures)).
  { unfold WaitForDb.handle. rewrite <- (app_nil_r failures) at 1.
    by rewrite loop_retries. }
  split; [exact Hrun|]. rewrite Hrun. cbn [snd].
  split; [|split; [|split]].
  - rewrite checks_app, checks_retries. reflexivity.
  - rewrite slept_app, slept_retries. simpl. lia.
  - intros msg Hin. apply elem_of_cons in Hin as [Hin|Hin]; [done|].
    unfold retries in Hin. apply list_elem_of_bind in Hin as (o & Hin & _).
    unfold retry_effects in Hin.
    rewrite !elem_of_cons, elem_of_nil in Hin. by destruct Hin as [?|[?|[?|[]]]].
  - unfold WaitForDb.handle. rewrite loop_retries by done. reflexivity.
Qed.

Lemma wait_for_db_retries_only_caught_errors_witness :
  WaitForDb.handle
    [WaitForDb.OperationalError; WaitForDb.OtherError; WaitForDb.Passes] =
    (WaitForDb.Raised,
     [WaitForDb.Write "Waiting for database ..."] ++
     retries [WaitForDb.OperationalError] ++ [WaitForDb.Check]).
Proof.
  apply (wait_for_db_retries_only_caught_errors
           [WaitForDb.OperationalError] [WaitForDb.Passes]).
  constructor; [by right|constructor].
Defined.

(** ** The footprint of a request *)

Lemma reconcile_others m u l rid s r s' :
  reconcile m u l rid s = (r, s') ->
  forall p, p.1 <> rid -> p ∈ Orm.through m s' <-> p ∈ Orm.through m s.
Proof.
  intros Hrun p Hp.
  destruct (reconcile_adds_only m u rid l s r s' Hrun) as (_ & _ & Hadd).
  destruct (reconcile_extends m u rid l s r s' Hrun) as [_ Hkeep].
  split; [|apply Hkeep]. intros Hin. by apply Hadd in Hin as [Hin|[Hrid _]].
Qed.

Lemma attr_phase_any m auth rid field s r s' :
  attr_phase m auth rid field s = (r, s') ->
  rows (Orm.objects m s) `prefix_of` rows (Orm.objects m s') /\
  forall p, p.1 <> rid -> p ∈ Orm.through m s' <-> p ∈ Orm.through m s.
Proof.
  destruct field as [items|]; simpl; [|intros [= <- <-]; by split].
  intros Hrun. split.
  - apply reconcile_extends in Hrun as [Hpre _]. by rewrite objects_cleared in Hpre.
  - intros p Hp. rewrite (reconcile_others _ _ _ _ _ _ _ Hrun p Hp).
    rewrite through_cleared, decide_True by done. rewrite list_elem_of_filter. tauto.
Qed.

Lemma serializer_create_any auth user vd s r s' :
  RecipeSerializer.create auth user vd s = (r, s') ->
  recipes s' = recipes (with_recipe user vd s) /\ users s' = users s /\
  (forall m, rows (Orm.objects m s) `prefix_of` rows (Orm.objects m s')) /\
  (forall m p, p.1 <> next_id (recipes s) ->
               p ∈ Orm.through m s' <-> p ∈ Orm.through m s).
Proof.
  rewrite create_run. simpl.
  destruct (reconcile Tag _ _ _ _) as [r1 s1] eqn:H1.
  destruct (reconcile_frame _ _ _ _ _ _ _ H1) as (Hr1 & Hu1 & Hf1).
  destruct (Hf1 Ingredient ltac:(done)) as [Hio1 Hit1].
  pose proof (reconcile_extends _ _ _ _ _ _ _ H1) as [Hp1 _].
  pose proof (reconcile_others _ _ _ _ _ _ _ H1) as Ho1.
  rewrite objects_with_recipe in Hp1.
  assert (Hfirst :
            recipes s1 = recipes (with_recipe user vd s) /\ users s1 = users s /\
            (forall m, rows (Orm.objects m s) `prefix_of` rows (Orm.objects m s1)) /\
            (forall m p, p.1 <> next_id (recipes s) ->
                         p ∈ Orm.through m s1 <-> p ∈ Orm.through m s)).
  { split; [done|]. split; [done|]. split.
    - intros [|]; [done|]. by rewrite Hio1, objects_with_recipe.
    - intros [|] p Hp.
      + rewrite (Ho1 p Hp). by rewrite through_with_recipe.
      + by rewrite Hit1, through_with_recipe. }
  destruct r1 as [[]|e]; [|by intros [= <- <-]].
  destruct (reconcile Ingredient _ _ _ _) as [r2 s2] eqn:H2.
  destruct (reconcile_frame _ _ _ _ _ _ _ H2) as (Hr2 & Hu2 & Hf2).
  destruct (Hf2 Tag ltac:(done)) as [Hto2 Htt2].
  pose proof (reconcile_extends _ _ _ _ _ _ _ H2) as [Hp2 _].
  pose proof (reconcile_others _ _ _ _ _ _ _ H2) as Ho2.
  destruct Hfirst as (_ & _ & Hpre & Hoth).
  assert (Hsecond :
            recipes s2 = recipes (with_recipe user vd s) /\ users s2 = users s /\
            (forall m, rows (Orm.objects m s) `prefix_of` rows (Orm.objects m s2)) /\
            (forall m p, p.1 <> next_id (recipes s) ->
                         p ∈ Orm.through m s2 <-> p ∈ Orm.through m s)).
  { split; [by rewrite Hr2|]. split; [by rewrite Hu2|]. split.
    - intros [|]; [rewrite Hto2; apply (Hpre Tag)|].
      etrans; [apply (Hpre Ingredient)|done].
    - intros [|] p Hp.
      + rewrite Htt2. by apply Hoth.
      + rewrite (Ho2 p Hp). by apply Hoth. }
  destruct r2 as [[]|e]; by intros [= <- <-].
Qed.

Lemma serializer_update_any auth R vd s r s' :
  RecipeSerializer.update auth R vd s = (r, s') ->
  users s' = users s /\
  (forall m, rows (Orm.objects m s) `prefix_of` rows (Orm.objects m s')) /\
  (forall m p, p.1 <> Recipe.id R -> p ∈ Orm.through m s' <-> p ∈ Orm.through m s) /\
  (recipes s' = recipes s \/
   recipes s' = recipes (Orm.saved_recipe (RecipeSerializer.setattrs R vd) s)).
Proof.
  rewrite update_run.
  destruct (attr_phase Tag _ _ _ _) as [r1 s1] eqn:H1.
  destruct (attr_phase_frame _ _ _ _ _ _ _ H1) as [Hr1 Hf1].
  destruct (Hf1 Ingredient ltac:(done)) as [Hio1 Hit1].
  pose proof (attr_phase_users _ _ _ _ _ _ _ H1) as Hu1.
  destruct (attr_phase_any _ _ _ _ _ _ _ H1) as [Hp1 Ho1].
  assert (Hfirst :
            users s1 = users s /\
            (forall m, rows (Orm.objects m s) `prefix_of` rows (Orm.objects m s1)) /\
            (forall m p, p.1 <> Recipe.id R ->
                         p ∈ Orm.through m s1 <-> p ∈ Orm.through m s)).
  { split; [done|]. split.
    - intros [|]; [done|]. by rewrite Hio1.
    - intros [|] p Hp; [by apply Ho1|by rewrite Hit1]. }
  destruct r1 as [[]|e]; [|intros [= <- <-]; by destruct Hfirst as (? & ? & ?); auto].
  destruct (attr_phase Ingredient _ _ _ _) as [r2 s2] eqn:H2.
  destruct (attr_phase_frame _ _ _ _ _ _ _ H2) as [Hr2 Hf2].
  destruct (Hf2 Tag ltac:(done)) as [Hto2 Htt2].
  pose proof (attr_phase_users _ _ _ _ _ _ _ H2) as Hu2.
  destruct (attr_phase_any _ _ _ _ _ _ _ H2) as [Hp2 Ho2].
  destruct Hfirst as (_ & Hpre & Hoth).
  assert (Hsecond :
            users s2 = users s /\
            (forall m, rows (Orm.objects m s) `prefix_of` rows (Orm.objects m s2)) /\
            (forall m p, p.1 <> Recipe.id R ->
                         p ∈ Orm.through m s2 <-> p ∈ Orm.through m s)).
  { split; [by rewrite Hu2|]. split.
    - intros [|]; [rewrite Hto2; apply (Hpre Tag)|].
      etrans; [apply (Hpre Ingredient)|done].
    - intros [|] p Hp.
      + rewrite Htt2. by apply Hoth.
      + rewrite (Ho2 p Hp). by apply Hoth. }
  destruct Hsecond as (Hus & Hpre2 & Hoth2).
  destruct r2 as [[]|e]; intros [= <- <-].
  - split; [done|]. split; [|split].
    + intros m. by rewrite objects_saved_recipe.
    + intros m p Hp. rewrite through_saved_recipe. by apply Hoth2.
    + right. unfold Orm.saved_recipe. simpl. by rewrite Hr2, Hr1.
  - split; [done|]. split; [done|]. split; [done|]. left. by rewrite Hr2, Hr1.
Qed.

Lemma recipe_footprint_refl u s : recipe_footprint u s s.
Proof.
  split; [done|]. split; [done|]. split; [by intros|].
  intros r' Hr. left. by exists r'.
Qed.

Lemma elem_of_saved_recipe_other r s x :
  x ∈ rows (recipes s) -> Recipe.id x <> Recipe.id r ->
  x ∈ rows (recipes (Orm.saved_recipe r s)).
Proof.
  intros Hx Hid. unfold Orm.saved_recipe. simpl. apply list_elem_of_fmap.
  exists x. by rewrite decide_False.
Qed.

Lemma other_recipe_id s u R0 R :
  wf s -> R0 ∈ rows (recipes s) -> Recipe.user R0 = u ->
  R ∈ rows (recipes s) -> Recipe.user R <> u -> Recipe.id R <> Recipe.id R0.
Proof.
  intros (Hr & _) HR0 Hu HR Hne Hid. apply Hne.
  assert (R = R0) as -> by (by eapply (NoDup_fmap_eq Recipe.id); [apply Hr|..]).
  done.
Qed.

Lemma create_footprint u vd s r s' :
  wf s -> RecipeSerializer.create u u vd s = (r, s') -> recipe_footprint u s s'.
Proof.
  intros Hwf Hrun.
  destruct (serializer_create_any u u vd s r s' Hrun) as (Hrec & Hus & Hpre & Hoth).
  split; [done|]. split; [done|]. split.
  - intros R HR Hne. split.
    + rewrite Hrec. simpl. apply elem_of_app. by left.
    + intros m a. apply Hoth. simpl. destruct Hwf as (Hr & _).
      pose proof (table_wf_lt Recipe.id _ R Hr HR). lia.
  - intros r' Hr'. rewrite Hrec in Hr'. simpl in Hr'.
    apply elem_of_app in Hr' as [Hr'|Hr']; [left; by exists r'|].
    apply list_elem_of_singleton in Hr' as ->. by right.
Qed.

Lemma saved_recipe_footprint u s R0 R0' :
  wf s -> R0 ∈ rows (recipes s) -> Recipe.user R0 = u ->
  Recipe.id R0' = Recipe.id R0 -> Recipe.user R0' = Recipe.user R0 ->
  forall s', users s' = users s ->
    (forall m, rows (Orm.objects m s) `prefix_of` rows (Orm.objects m s')) ->
    (forall m p, p.1 <> Recipe.id R0 -> p ∈ Orm.through m s' <-> p ∈ Orm.through m s) ->
    recipes s' = recipes s \/ recipes s' = recipes (Orm.saved_recipe R0' s) ->
    recipe_footprint u s s'.
Proof.
  intros Hwf HR0 Hu Hid Huser s' Hus Hpre Hoth Hrec.
  split; [done|]. split; [done|]. split.
  - intros R HR Hne.
    pose proof (other_recipe_id s u R0 R Hwf HR0 Hu HR Hne) as Hidne.
    split; [|intros m a; by apply Hoth].
    destruct Hrec as [-> | ->]; [done|].
    apply elem_of_saved_recipe_other; [done|congruence].
  - intros r' Hr'. left. destruct Hrec as [Hrec|Hrec]; rewrite Hrec in Hr'.
    + by exists r'.
    + apply elem_of_saved_recipe in Hr' as [Hr'|[-> _]]; [by exists r'|].
      by exists R0.
Qed.

Lemma deleted_recipe_footprint u s R0 :
  wf s -> R0 ∈ rows (recipes s) -> Recipe.user R0 = u ->
  recipe_footprint u s (Orm.deleted_recipe R0 s).
Proof.
  intros Hwf HR0 Hu. split; [done|]. split; [|split].
  - intros m. unfold Orm.deleted_recipe. by rewrite objects_set_recipes, !objects_cleared.
  - intros R HR Hne.
    pose proof (other_recipe_id s u R0 R Hwf HR0 Hu HR Hne) as Hidne.
    split.
    + unfold Orm.deleted_recipe. simpl. apply list_elem_of_filter. split; [done|].
      by rewrite ?recipes_cleared.
    + intros m a. unfold Orm.deleted_recipe. rewrite through_set_recipes.
      rewrite !through_cleared.
      destruct m; repeat case_decide; try congruence;
        rewrite list_elem_of_filter; simpl; tauto.
  - intros r' Hr'. left. exists r'. split; [|done].
    unfold Orm.deleted_recipe in Hr'. simpl in Hr'.
    apply list_elem_of_filter in Hr' as [_ Hr']. by rewrite ?recipes_cleared in Hr'.
Qed.

Lemma recipe_handler_footprint u qp c s r s' :
  wf s -> RecipeViewSet.handler u qp c s = (r, s') -> recipe_footprint u s s'.
Proof.
  intros Hwf. pose proof (fun pk => recipe_get_object_spec u qp pk s) as Hget.
  destruct c as [|d|pk|pk d|pk d|pk|pk d|]; simpl.
  - unfold RecipeViewSet.list_, bind, get, lift.
    destruct (RecipeViewSet.get_queryset u qp s); simpl; intros [= _ <-];
      apply recipe_footprint_refl.
  - destruct d as [|vd]; [intros [= _ <-]; apply recipe_footprint_refl|]. simpl.
    unfold RecipeViewSet.perform_create, bind.
    destruct (RecipeSerializer.create u u vd s) as [[r0|e] s1] eqn:Hrun; simpl;
      intros [= _ <-]; by eapply create_footprint.
  - unfold RecipeViewSet.retrieve, bind. specialize (Hget pk).
    destruct (RecipeViewSet.get_object u qp pk s) as [[r0|e] s1]; simpl;
      intros [= _ <-]; [destruct Hget as [-> _]|subst s1]; apply recipe_footprint_refl.
  - unfold RecipeViewSet.update, bind. specialize (Hget pk).
    destruct (RecipeViewSet.get_object u qp pk s) as [[R0|e] s1]; simpl;
      [|intros [= _ <-]; subst s1; apply recipe_footprint_refl].
    destruct Hget as (-> & HR0 & Hu & _).
    destruct d as [|vd]; [intros [= _ <-]; apply recipe_footprint_refl|].
    destruct (RecipeSerializer.update u R0 vd s) as [[r0|e] s1] eqn:Hrun; simpl;
      intros [= _ <-];
      destruct (serializer_update_any u R0 vd s _ s1 Hrun) as (Hus & Hpre & Hoth & Hrec);
      by apply (saved_recipe_footprint u s R0 (RecipeSerializer.setattrs R0 vd)).
  - unfold RecipeViewSet.update, bind. specialize (Hget pk).
    destruct (RecipeViewSet.get_object u qp pk s) as [[R0|e] s1]; simpl;
      [|intros [= _ <-]; subst s1; apply recipe_footprint_refl].
    destruct Hget as (-> & HR0 & Hu & _).
    destruct d as [|vd]; [intros [= _ <-]; apply recipe_footprint_refl|].
    destruct (RecipeSerializer.update u R0 vd s) as [[r0|e] s1] eqn:Hrun; simpl;
      intros [= _ <-];
      destruct (serializer_update_any u R0 vd s _ s1 Hrun) as (Hus & Hpre & Hoth & Hrec);
      by apply (saved_recipe_footprint u s R0 (RecipeSerializer.setattrs R0 vd)).
  - unfold RecipeViewSet.destroy, bind. specialize (Hget pk).
    destruct (RecipeViewSet.get_object u qp pk s) as [[R0|e] s1]; simpl;
      [|intros [= _ <-]; subst s1; apply recipe_footprint_refl].
    destruct Hget as (-> & HR0 & Hu & _). intros [= _ <-].
    by apply deleted_recipe_footprint.
  - unfold RecipeViewSet.upload_image, bind. specialize (Hget pk).
    destruct (RecipeViewSet.get_object u qp pk s) as [[R0|e] s1]; simpl;
      [|intros [= _ <-]; subst s1; apply recipe_footprint_refl].
    destruct Hget as (-> & HR0 & Hu & _).
    destruct d as [|vd]; simpl; intros [= _ <-]; [apply recipe_footprint_refl|].
    apply (saved_recipe_footprint u s R0 (with_image R0 (v_image_file vd)));
      try done.
    by right.
  - intros [= _ <-]. apply recipe_footprint_refl.
Qed.

Lemma attr_footprint_refl m s : attr_footprint m s s.
Proof.
  split; [done|]. split; [done|]. split; [done|]. split; [done|].
  split; [|done]. intros a Ha. by exists a.
Qed.

Lemma saved_attr_footprint m s A0 A' :
  A0 ∈ rows (Orm.objects m s) ->
  Attribute.id A' = Attribute.id A0 -> Attribute.user A' = Attribute.user A0 ->
  attr_footprint m s (Orm.saved_attr m A' s).
Proof.
  intros HA0 Hid Hu.
  split; [by destruct m|]. split; [by destruct m|]. split; [|split; [|split]].
  - intros m' Hm'. unfold Orm.saved_attr. by destruct m, m'.
  - unfold Orm.saved_attr. by rewrite objects_set_objects, decide_True.
  - intros a Ha. unfold Orm.saved_attr in Ha.
    rewrite objects_set_objects, decide_True in Ha by done. simpl in Ha.
    apply list_elem_of_fmap in Ha as (x & -> & Hx). case_decide; [by exists A0|by exists x].
  - intros p. unfold Orm.saved_attr. by rewrite through_set_objects.
Qed.

Lemma deleted_attr_footprint m s A0 : attr_footprint m s (Orm.deleted_attr m A0 s).
Proof.
  split; [by destruct m|]. split; [by destruct m|]. split; [|split; [|split]].
  - intros m' Hm'. by rewrite objects_deleted_attr, through_deleted_attr,
      !decide_False by done.
  - by rewrite objects_deleted_attr, decide_True.
  - intros a Ha. rewrite objects_deleted_attr, decide_True in Ha by done. simpl in Ha.
    apply list_elem_of_filter in Ha as [_ Ha]. by exists a.
  - intros p. rewrite through_deleted_attr, decide_True by done.
    rewrite list_elem_of_filter. tauto.
Qed.

(** The rows and associations of other users that a request of [u] to
    the routes of model [m] leaves alone. *)
Lemma attr_handler_isolation m u qp c s r s' :
  consistent s -> BaseRecipeAttributesViewSet.handler m u qp c s = (r, s') ->
  (forall a, a ∈ rows (Orm.objects m s) -> Attribute.user a <> u ->
             a ∈ rows (Orm.objects m s')) /\
  (forall R a, R ∈ rows (recipes s) -> Recipe.user R <> u ->
               (Recipe.id R, a) ∈ Orm.through m s -> (Recipe.id R, a) ∈ Orm.through m s').
Proof.
  intros [Hwf Hso]. pose proof (fun pk => attr_get_object_spec m u qp pk s) as Hget.
  assert (Hrefl : forall r0, (r0, s) = (r, s') ->
            (forall a, a ∈ rows (Orm.objects m s) -> Attribute.user a <> u ->
                       a ∈ rows (Orm.objects m s')) /\
            (forall R a, R ∈ rows (recipes s) -> Recipe.user R <> u ->
               (Recipe.id R, a) ∈ Orm.through m s ->
               (Recipe.id R, a) ∈ Orm.through m s'))
    by (by intros r0 [= _ <-]).
  assert (Hupd : forall pk d,
            BaseRecipeAttributesViewSet.update m u qp pk d s = (r, s') ->
            (forall a, a ∈ rows (Orm.objects m s) -> Attribute.user a <> u ->
                       a ∈ rows (Orm.objects m s')) /\
            (forall R a, R ∈ rows (recipes s) -> Recipe.user R <> u ->
               (Recipe.id R, a) ∈ Orm.through m s ->
               (Recipe.id R, a) ∈ Orm.through m s')).
  { intros pk d. unfold BaseRecipeAttributesViewSet.update, bind. specialize (Hget pk).
    destruct (BaseRecipeAttributesViewSet.get_object m u qp pk s) as [[A0|e] s1]; simpl;
      [|subst s1; apply Hrefl].
    destruct Hget as (-> & HA0 & Hu & _). destruct d as [|vd]; [apply Hrefl|]. simpl.
    intros [= _ <-]. split.
    - intros a Ha Hne. unfold Orm.saved_attr.
      rewrite objects_set_objects, decide_True by done. simpl.
      apply list_elem_of_fmap. exists a. split; [|done].
      rewrite decide_False; [done|]. simpl. intros Hid. apply Hne.
      destruct Hwf as (_ & Ho & _).
      assert (a = A0) as -> by (by eapply (NoDup_fmap_eq Attribute.id); [apply (Ho m)|..]).
      done.
    - intros R a HR Hne Hin. unfold Orm.saved_attr. by rewrite through_set_objects. }
  destruct c as [|d|pk|pk d|pk d|pk]; simpl; try apply Hrefl; try apply Hupd.
  - unfold BaseRecipeAttributesViewSet.list_, bind, get, lift.
    destruct (BaseRecipeAttributesViewSet.get_queryset m u qp s); simpl; apply Hrefl.
  - unfold BaseRecipeAttributesViewSet.destroy, bind. specialize (Hget pk).
    destruct (BaseRecipeAttributesViewSet.get_object m u qp pk s) as [[A0|e] s1]; simpl;
      [|subst s1; apply Hrefl].
    destruct Hget as (-> & HA0 & Hu & _). intros [= _ <-]. split.
    + intros a Ha Hne. rewrite objects_deleted_attr, decide_True by done. simpl.
      apply list_elem_of_filter. split; [|done]. intros Hid. apply Hne.
      destruct Hwf as (_ & Ho & _).
      assert (a = A0) as -> by (by eapply (NoDup_fmap_eq Attribute.id); [apply (Ho m)|..]).
      done.
    + intros R a HR Hne Hin. rewrite through_deleted_attr, decide_True by done.
      apply list_elem_of_filter. split; [|done]. simpl. intros ->.
      apply Hne. rewrite <- Hu. symmetry. by apply (Hso m R A0).
Qed.

Lemma attr_handler_footprint m u qp c s r s' :
  BaseRecipeAttributesViewSet.handler m u qp c s = (r, s') -> attr_footprint m s s'.
Proof.
  pose proof (fun pk => attr_get_object_spec m u qp pk s) as Hget.
  assert (Hrefl : forall r0, (r0, s) = (r, s') -> attr_footprint m s s')
    by (intros r0 [= _ <-]; apply attr_footprint_refl).
  assert (Hupd : forall pk d,
            BaseRecipeAttributesViewSet.update m u qp pk d s = (r, s') ->
            attr_footprint m s s').
  { intros pk d. unfold BaseRecipeAttributesViewSet.update, bind. specialize (Hget pk).
    destruct (BaseRecipeAttributesViewSet.get_object m u qp pk s) as [[A0|e] s1]; simpl;
      [|subst s1; apply Hrefl].
    destruct Hget as (-> & HA0 & Hu & _). destruct d as [|vd]; [apply Hrefl|]. simpl.
    intros [= _ <-]. by apply (saved_attr_footprint m s A0). }
  destruct c as [|d|pk|pk d|pk d|pk]; simpl; try apply Hrefl; try apply Hupd.
  - unfold BaseRecipeAttributesViewSet.list_, bind, get, lift.
    destruct (BaseRecipeAttributesViewSet.get_queryset m u qp s); simpl; apply Hrefl.
  - unfold BaseRecipeAttributesViewSet.destroy, bind. specialize (Hget pk).
    destruct (BaseRecipeAttributesViewSet.get_object m u qp pk s) as [[A0|e] s1]; simpl;
      [|subst s1; apply Hrefl].
    intros [= _ <-]. destruct Hget as (-> & _). apply deleted_attr_footprint.
Qed.

(** X21: whatever the request to the tag (ingredient) routes and
    whatever its answer, no row and no association is created: recipes,
    users and the other model are untouched, the id counter of the model
    stands still, every row stored afterwards has the id and the owner of
    a row stored before, and every association stored afterwards was stored
    before.  Tags and ingredients come into being through recipes only,
    and never change hands. *)
Theorem attr_routes_create_nothing m req s resp s' :
  BaseRecipeAttributesViewSet.view m req s = (resp, s') ->
  recipes s' = recipes s /\ users s' = users s /\
  (forall m', m' <> m ->
     Orm.objects m' s' = Orm.objects m' s /\ Orm.through m' s' = Orm.through m' s) /\
  next_id (Orm.objects m s') = next_id (Orm.objects m s) /\
  (forall a, a ∈ rows (Orm.objects m s') ->
     exists a0, a0 ∈ rows (Orm.objects m s) /\ Attribute.id a0 = Attribute.id a /\
                Attribute.user a0 = Attribute.user a) /\
  (forall p, p ∈ Orm.through m s' -> p ∈ Orm.through m s).
Proof.
  unfold BaseRecipeAttributesViewSet.view, Drf.dispatch.
  destruct (user req) as [u|]; [|intros [= _ <-]; apply attr_footprint_refl].
  destruct (BaseRecipeAttributesViewSet.handler m u (query_params req) (call req) s)
    as [r s1] eqn:Hrun.
  apply attr_handler_footprint in Hrun.
  destruct r as [response|e]; by intros [= _ <-].
Qed.

Lemma attr_routes_create_nothing_witness :
  Orm.through Tag
    (TagViewSet (request 1 [] (BaseRecipeAttributesViewSet.PostList
                                 (Valid {| v_name := Some "Thai" |}))) sample_db).2 =
    Orm.through Tag sample_db /\
  next_id (Orm.objects Tag
             (TagViewSet (request 1 [] (BaseRecipeAttributesViewSet.DeleteDetail 3))
                sample_db).2) =
    next_id (Orm.objects Tag sample_db).
Proof.
  split; [reflexivity|].
  destruct (attr_routes_create_nothing Tag
              (request 1 [] (BaseRecipeAttributesViewSet.DeleteDetail 3))
              sample_db
              (TagViewSet (request 1 [] (BaseRecipeAttributesViewSet.DeleteDetail 3))
                 sample_db).1
              (TagViewSet (request 1 [] (BaseRecipeAttributesViewSet.DeleteDetail 3))
                 sample_db).2)
    as (_ & _ & _ & Hnext & _).
  - reflexivity.
  - exact Hnext.
Defined.

(** X22: whatever the request to the recipe routes and whatever its
    answer, in a well-formed store: users are untouched; no tag and no
    ingredient row is deleted or changed (the rows stored before stay in
    place, so deleting a recipe or replacing its tags deletes no tag); and
    every recipe stored afterwards either has the id and the owner of a
    recipe stored before, or has the id the table gives out next and is
    owned by the requester: no recipe ever changes hands. *)
Theorem recipe_routes_keep_attrs_and_owners req s resp s' :
  wf s ->
  RecipeViewSet.view req s = (resp, s') ->
  users s' = users s /\
  (forall m, rows (Orm.objects m s) `prefix_of` rows (Orm.objects m s')) /\
  (forall r', r' ∈ rows (recipes s') ->
     (exists r0, r0 ∈ rows (recipes s) /\ Recipe.id r0 = Recipe.id r' /\
                 Recipe.user r0 = Recipe.user r') \/
     (Recipe.id r' = next_id (recipes s) /\ user req = Some (Recipe.user r'))).
Proof.
  intros Hwf. unfold RecipeViewSet.view, Drf.dispatch.
  destruct (user req) as [u|].
  - destruct (RecipeViewSet.handler u (query_params req) (call req) s) as [r s1] eqn:Hrun.
    apply recipe_handler_footprint in Hrun as (Hus & Hpre & _ & Hown); [|done].
    intros Hview. assert (s1 = s') as <- by (destruct r; by injection Hview).
    split; [done|]. split; [done|].
    intros r' Hr'. destruct (Hown r' Hr') as [?|[Hid <-]]; [by left|by right].
  - intros [= _ <-]. split; [done|]. split; [done|]. intros r' Hr'. left. by exists r'.
Qed.

Lemma recipe_routes_keep_attrs_and_owners_witness :
  rows (Orm.objects Tag sample_db) `prefix_of`
    rows (Orm.objects Tag
            (RecipeViewSet.view
               (request 1 [] (RecipeViewSet.PatchDetail 2 (Valid clear_tags_data)))
               sample_db).2).
Proof.
  apply (recipe_routes_keep_attrs_and_owners
           (request 1 [] (RecipeViewSet.PatchDetail 2 (Valid clear_tags_data)))
           sample_db
           (RecipeViewSet.view
              (request 1 [] (RecipeViewSet.PatchDetail 2 (Valid clear_tags_data)))
              sample_db).1).
  - apply sample_db_wf.
  - reflexivity.
Defined.

Lemma attr_view_isolation m req s resp s' :
  consistent s ->
  BaseRecipeAttributesViewSet.view m req s = (resp, s') ->
  (forall R, R ∈ rows (recipes s) -> user req <> Some (Recipe.user R) ->
     R ∈ rows (recipes s') /\
     forall m' a, (Recipe.id R, a) ∈ Orm.through m' s' <->
                  (Recipe.id R, a) ∈ Orm.through m' s) /\
  (forall m' a, a ∈ rows (Orm.objects m' s) -> user req <> Some (Attribute.user a) ->
                a ∈ rows (Orm.objects m' s')).
Proof.
  intros Hc. unfold BaseRecipeAttributesViewSet.view, Drf.dispatch.
  destruct (user req) as [u|]; [|by intros [= _ <-]].
  destruct (BaseRecipeAttributesViewSet.handler m u (query_params req) (call req) s)
    as [r s1] eqn:Hrun.
  pose proof (attr_handler_footprint _ _ _ _ _ _ _ Hrun)
    as (Hrec & _ & Hother & _ & _ & Hsub).
  pose proof (attr_handler_isolation _ _ _ _ _ _ _ Hc Hrun) as [Hrows Hth].
  intros Hview. assert (s1 = s') as <- by (destruct r; by injection Hview).
  clear Hview. split.
  - intros R HR Hne. split; [by rewrite Hrec|].
    intros m' a. destruct (decide (m' = m)) as [->|Hm'].
    + split; [apply Hsub|]. apply Hth; [done|]. intros Hu. apply Hne. by rewrite Hu.
    + by destruct (Hother m' Hm') as [_ ->].
  - intros m' a Ha Hne. destruct (decide (m' = m)) as [->|Hm'].
    + apply Hrows; [done|]. intros Hu. apply Hne. by rewrite Hu.
    + by destruct (Hother m' Hm') as [-> _].
Qed.

(** X23: a request writes to the requester's rows only.  Whatever the
    request to the three routes and whatever its answer, in a well-formed
    store that keeps owners together: every recipe of any other user is
    still stored, unchanged, with exactly the associations it had; and
    every tag and ingredient of any other user is still stored, unchanged.
    An unauthenticated request leaves every row so. *)
Theorem requests_leave_other_users_rows r s resp s' :
  wf s -> same_owner s ->
  serve r s = (resp, s') ->
  (forall R, R ∈ rows (recipes s) -> requester r <> Some (Recipe.user R) ->
     R ∈ rows (recipes s') /\
     forall m a, (Recipe.id R, a) ∈ Orm.through m s' <->
                 (Recipe.id R, a) ∈ Orm.through m s) /\
  (forall m a, a ∈ rows (Orm.objects m s) -> requester r <> Some (Attribute.user a) ->
               a ∈ rows (Orm.objects m s')).
Proof.
  intros Hwf Hso. assert (Hc : consistent s) by done.
  destruct r as [req|req|req]; simpl;
    [|by apply attr_view_isolation|by apply attr_view_isolation].
  unfold RecipeViewSet.view, Drf.dispatch.
  destruct (user req) as [u|]; [|by intros [= _ <-]].
  destruct (RecipeViewSet.handler u (query_params req) (call req) s) as [r s1] eqn:Hrun.
  apply recipe_handler_footprint in Hrun as (_ & Hpre & Hiso & _); [|done].
  intros Hview. assert (s1 = s') as <- by (destruct r; by injection Hview).
  split.
  - intros R HR Hne. apply Hiso; [done|]. intros Hu. apply Hne. by rewrite Hu.
  - intros m a Ha _. exact (prefix_elem_of _ _ _ (Hpre m) Ha).
Qed.

Lemma requests_leave_other_users_rows_witness :
  sample_recipe 3 2 "Fish" ∈
    rows (recipes
            (serve (ToTags (request 1 [] (BaseRecipeAttributesViewSet.DeleteDetail 1)))
               sample_db).2) /\
  forall m a,
    (3, a) ∈
      Orm.through m
        (serve (ToTags (request 1 [] (BaseRecipeAttributesViewSet.DeleteDetail 1)))
           sample_db).2 <->
    (3, a) ∈ Orm.through m sample_db.
Proof.
  destruct (requests_leave_other_users_rows
              (ToTags (request 1 [] (BaseRecipeAttributesViewSet.DeleteDetail 1)))
              sample_db
              (serve (ToTags (request 1 [] (BaseRecipeAttributesViewSet.DeleteDetail 1)))
                 sample_db).1
              (serve (ToTags (request 1 [] (BaseRecipeAttributesViewSet.DeleteDetail 1)))
                 sample_db).2)
    as [Hrec _].
  - apply sample_db_wf.
  - apply sample_db_same_owner.
  - reflexivity.
  - apply (Hrec (sample_recipe 3 2 "Fish")); [by_decide|discriminate].
Defined.

(** ** Counting the associations of a new recipe *)

Lemma reconcile_related_count m u l rid s s' :
  NoDup (Attribute.id <$> rows (Orm.objects m s')) ->
  (forall a, (rid, a) ∉ Orm.through m s) ->
  reconcile m u l rid s = (Ok tt, s') ->
  length (Orm.related m rid s') = length (remove_dups (names l)).
Proof.
  intros Hnd Hfresh Hrun.
  pose proof (reconcile_related m u rid l s s' Hnd Hfresh Hrun) as Hrel.
  assert (Hone : forall t n, t ∈ Orm.related m rid s' -> Attribute.name t = n ->
                   exists t0, Orm.matching u n (rows (Orm.objects m s')) = [t0] /\ t = t0).
  { intros t n Ht Hn. apply Hrel in Ht as (Hin & Hu & Hname). rewrite Hn in Hname.
    unfold names in Hname. apply list_elem_of_fmap in Hname as (item & -> & Hitem).
    destruct (reconcile_ok_settled m u rid l s s' Hrun item Hitem) as (t0 & Hm & _).
    exists t0. split; [done|].
    assert (Ht : t ∈ Orm.matching u (item_name item) (rows (Orm.objects m s')))
      by (by apply matching_elem).
    rewrite Hm in Ht. by apply list_elem_of_singleton in Ht. }
  rewrite <- (length_fmap Attribute.name (Orm.related m rid s')).
  apply Permutation_length, NoDup_Permutation.
  - apply NoDup_fmap_2_strong.
    + intros x y Hx Hy Hxy.
      destruct (Hone x (Attribute.name y) Hx Hxy) as (t0 & Hm & ->).
      destruct (Hone y (Attribute.name y) Hy eq_refl) as (t1 & Hm' & ->).
      rewrite Hm in Hm'. by injection Hm'.
    + unfold Orm.related. apply NoDup_filter. by apply NoDup_fmap_1 in Hnd.
  - apply NoDup_remove_dups.
  - intros n. rewrite elem_of_remove_dups, list_elem_of_fmap. split.
    + intros (t & -> & Ht). by apply Hrel in Ht as (_ & _ & Hname).
    + intros Hn. unfold names in Hn. apply list_elem_of_fmap in Hn as (item & -> & Hitem).
      destruct (reconcile_ok_settled m u rid l s s' Hrun item Hitem) as (t0 & Hm & Hp).
      assert (Ht : t0 ∈ Orm.matching u (item_name item) (rows (Orm.objects m s')))
        by (rewrite Hm; by apply list_elem_of_singleton).
      apply matching_elem in Ht as [[Hu Hname] Hin].
      exists t0. split; [done|]. unfold Orm.related. by apply list_elem_of_filter.
Qed.

(** X24: a recipe that a create answered 201 has, in a well-formed
    store that keeps owners together, exactly as many tags (ingredients)
    as the payload's list has distinct names, none when the field is
    absent, and no two of them carry the same name. *)
Theorem created_recipe_attr_count s u qp vd resp s' m :
  consistent s ->
  RecipeViewSet.view (request u qp (RecipeViewSet.PostList (Valid vd))) s = (resp, s') ->
  status resp = HTTP_201_CREATED ->
  length (Orm.related m (next_id (recipes s)) s') =
    length (remove_dups (names (default [] (payload m vd)))) /\
  NoDup (Attribute.name <$> Orm.related m (next_id (recipes s)) s').
Proof.
  intros Hc Hview Hst. revert Hview.
  unfold RecipeViewSet.view, Drf.dispatch, request. simpl.
  unfold RecipeViewSet.perform_create, bind.
  destruct (RecipeSerializer.create u u vd s) as [[r|e] s1] eqn:Hrun; simpl;
    intros [= <- <-]; [|by apply handle_exception_not_created in Hst].
  clear Hst. rewrite create_run in Hrun. simpl in Hrun.
  pose proof (with_recipe_consistent u vd s Hc) as H0.
  destruct (reconcile Tag _ _ _ _) as [r1 s2] eqn:H1.
  pose proof (reconcile_keeps_consistent _ _ _ _ _ _ _ H0 H1) as Hc1.
  destruct r1 as [[]|e]; [|done].
  destruct (reconcile Ingredient _ _ _ _) as [r2 s3] eqn:H2.
  pose proof (reconcile_keeps_consistent _ _ _ _ _ _ _ Hc1 H2) as Hc2.
  destruct r2 as [[]|e]; [|done].
  inversion Hrun; subst r s1. clear Hrun.
  destruct (reconcile_frame _ _ _ _ _ _ _ H1) as (_ & _ & Hf1).
  destruct (reconcile_frame _ _ _ _ _ _ _ H2) as (_ & _ & Hf2).
  destruct (Hf1 Ingredient ltac:(done)) as [Hio1 Hit1].
  destruct (Hf2 Tag ltac:(done)) as [Hto2 Htt2].
  assert (Hfresh1 : forall a, (next_id (recipes s), a) ∉ Orm.through Tag (with_recipe u vd s))
    by (intros a; rewrite through_with_recipe; apply fresh_recipe_unlinked, Hc).
  assert (Hfresh2 : forall a, (next_id (recipes s), a) ∉ Orm.through Ingredient s2)
    by (intros a; rewrite Hit1, through_with_recipe; apply fresh_recipe_unlinked, Hc).
  assert (Hnd1 : NoDup (Attribute.id <$> rows (Orm.objects Tag s2))) by apply Hc1.
  assert (Hnd2 : NoDup (Attribute.id <$> rows (Orm.objects Ingredient s3))) by apply Hc2.
  assert (Hnames : forall m0 l s0 s4,
            NoDup (Attribute.id <$> rows (Orm.objects m0 s4)) ->
            (forall a, (next_id (recipes s), a) ∉ Orm.through m0 s0) ->
            reconcile m0 u l (next_id (recipes s)) s0 = (Ok tt, s4) ->
            NoDup (Attribute.name <$> Orm.related m0 (next_id (recipes s)) s4)).
  { intros m0 l s0 s4 Hnd Hfresh Hrun.
    pose proof (reconcile_related m0 u _ l s0 s4 Hnd Hfresh Hrun) as Hrel.
    apply NoDup_fmap_2_strong.
    - intros x y Hx Hy Hxy.
      apply Hrel in Hx as (Hxin & Hxu & Hxn). apply Hrel in Hy as (Hyin & Hyu & Hyn).
      unfold names in Hyn. apply list_elem_of_fmap in Hyn as (item & Hn & Hitem).
      destruct (reconcile_ok_settled m0 u _ l s0 s4 Hrun item Hitem) as (t0 & Hm & _).
      assert (Hx' : x ∈ Orm.matching u (item_name item) (rows (Orm.objects m0 s4)))
        by (apply matching_elem; repeat split; congruence).
      assert (Hy' : y ∈ Orm.matching u (item_name item) (rows (Orm.objects m0 s4)))
        by (apply matching_elem; repeat split; congruence).
      rewrite Hm in Hx', Hy'.
      apply list_elem_of_singleton in Hx', Hy'. congruence.
    - unfold Orm.related. apply NoDup_filter. by apply NoDup_fmap_1 in Hnd. }
  destruct m.
  - rewrite (related_proper Tag _ s2 s3 Hto2 Htt2). split.
    + by apply (reconcile_related_count Tag u (default [] (v_tags vd)) _
                  (with_recipe u vd s) s2).
    + by apply (Hnames Tag (default [] (v_tags vd)) (with_recipe u vd s) s2).
  - split.
    + by apply (reconcile_related_count Ingredient u (default [] (v_ingredients vd)) _
                  s2 s3).
    + by apply (Hnames Ingredient (default [] (v_ingredients vd)) s2 s3).
Qed.

Lemma created_recipe_attr_count_witness :
  length (Orm.related Tag 4
            (RecipeViewSet.view
               (request 1 []
                  (RecipeViewSet.PostList
                     (Valid {| v_title := Some "Soup"%string; v_description := None;
                               v_time_minutes := None; v_price := None; v_link := None;
                               v_image := None; v_tags := Some repeated_items;
                               v_ingredients := None |})))
               sample_db).2) = 2%nat.
Proof.
  apply (created_recipe_attr_count sample_db 1 []
           {| v_title := Some "Soup"%string; v_description := None;
              v_time_minutes := None; v_price := None; v_link := None;
              v_image := None; v_tags := Some repeated_items;
              v_ingredients := None |}
           (RecipeViewSet.view
              (request 1 []
                 (RecipeViewSet.PostList
                    (Valid {| v_title := Some "Soup"%string; v_description := None;
                              v_time_minutes := None; v_price := None; v_link := None;
                              v_image := None; v_tags := Some repeated_items;
                              v_ingredients := None |})))
              sample_db).1 _ Tag).
  - split; [apply sample_db_wf|apply sample_db_same_owner].
  - reflexivity.
  - reflexivity.
Defined.

(** * Update, reuse and repeated names, with ambiguous names in the store *)

(** ** When [create] and [update] return *)

Lemma attr_phase_ok_unambiguous m auth rid field s s' :
  attr_phase m auth rid field s = (Ok tt, s') ->
  unambiguous m auth (default [] field) s.
Proof.
  destruct field as [items|]; simpl.
  - intros Hrun. apply reconcile_ok_unambiguous in Hrun.
    eapply unambiguous_proper; [|exact Hrun]. symmetry. apply objects_cleared.
  - intros _ item Hin. by apply elem_of_nil in Hin.
Qed.

Lemma create_ok_unambiguous auth user vd s r s' :
  RecipeSerializer.create auth user vd s = (Ok r, s') ->
  unambiguous Tag auth (default [] (v_tags vd)) s /\
  unambiguous Ingredient auth (default [] (v_ingredients vd)) s.
Proof.
  rewrite create_run. simpl.
  destruct (reconcile Tag _ _ _ _) as [[[]|e] s2] eqn:H1; [|done].
  destruct (reconcile Ingredient _ _ _ _) as [[[]|e] s3] eqn:H2; [|done].
  intros _.
  destruct (reconcile_frame _ _ _ _ _ _ _ H1) as (_ & _ & Hf1).
  destruct (Hf1 Ingredient ltac:(done)) as [Hio1 _].
  apply reconcile_ok_unambiguous in H1, H2. split.
  - eapply unambiguous_proper; [|exact H1]. symmetry. apply objects_with_recipe.
  - eapply unambiguous_proper; [|exact H2]. by rewrite Hio1, objects_with_recipe.
Qed.

Lemma update_ok_unambiguous auth instance vd s r s' :
  RecipeSerializer.update auth instance vd s = (Ok r, s') ->
  unambiguous Tag auth (default [] (v_tags vd)) s /\
  unambiguous Ingredient auth (default [] (v_ingredients vd)) s.
Proof.
  rewrite update_run.
  destruct (attr_phase Tag _ _ _ _) as [[[]|e] s1] eqn:H1; [|done].
  destruct (attr_phase Ingredient _ _ _ _) as [[[]|e] s2] eqn:H2; [|done].
  intros _.
  destruct (attr_phase_frame _ _ _ _ _ _ _ H1) as [_ Hf1].
  destruct (Hf1 Ingredient ltac:(done)) as [Hio1 _].
  apply attr_phase_ok_unambiguous in H1, H2. split; [done|].
  eapply unambiguous_proper; [|exact H2]. by rewrite Hio1.
Qed.

(** ** Clearing and keeping associations on update *)

(** C2, as the code has it: an update whose [tags] field is the empty
    list leaves the recipe without tag associations, and an update with no
    [tags] field leaves the table of tag associations as it was, whatever
    the outcome; an update with no [ingredients] field leaves the table of
    ingredient associations as it was, whatever the outcome.  An update
    whose [ingredients] field is the empty list returns exactly when no
    name of its tag payload is carried by several tags of the authenticated
    user; when it returns, the recipe is left without ingredient
    associations; when it does not, it raises [MultipleObjectsReturned]
    out of the tag loop and the table of ingredient associations is as it
    was, the ingredients never being reached. *)
Theorem update_clears_or_keeps_associations auth instance vd s :
  (v_tags vd = Some [] ->
   associations Tag (Recipe.id instance)
     (RecipeSerializer.update auth instance vd s).2 = []) /\
  (v_tags vd = None ->
   recipe_tags (RecipeSerializer.update auth instance vd s).2 = recipe_tags s) /\
  (v_ingredients vd = Some [] ->
   (is_ok (RecipeSerializer.update auth instance vd s).1 = true <->
    unambiguous Tag auth (default [] (v_tags vd)) s) /\
   (is_ok (RecipeSerializer.update auth instance vd s).1 = true ->
    associations Ingredient (Recipe.id instance)
      (RecipeSerializer.update auth instance vd s).2 = []) /\
   (is_ok (RecipeSerializer.update auth instance vd s).1 = false ->
    (RecipeSerializer.update auth instance vd s).1 = Raise MultipleObjectsReturned /\
    recipe_ingredients (RecipeSerializer.update auth instance vd s).2 =
      recipe_ingredients s)) /\
  (v_ingredients vd = None ->
   recipe_ingredients (RecipeSerializer.update auth instance vd s).2 =
     recipe_ingredients s).
Proof.
  pose proof (attr_phase_returns Tag auth (Recipe.id instance) (v_tags vd) s) as Hret.
  rewrite update_run.
  destruct (attr_phase Tag auth (Recipe.id instance) (v_tags vd) s)
    as [r1 s1] eqn:H1.
  pose proof (attr_phase_frame _ _ _ _ _ _ _ H1) as [_ Hf1].
  destruct (Hf1 Ingredient ltac:(done)) as [_ Hi1].
  assert (Hfinal_tags : forall r2 s2,
            attr_phase Ingredient auth (Recipe.id instance) (v_ingredients vd) s1
              = (r2, s2) -> Orm.through Tag s2 = Orm.through Tag s1).
  { intros r2 s2 H2. apply attr_phase_frame in H2 as [_ Hf2].
    by destruct (Hf2 Tag ltac:(done)) as [_ ->]. }
  split; [|split; [|split]].
  - intros Htags. rewrite Htags, attr_phase_empty in H1. inversion H1; subst.
    destruct (attr_phase Ingredient _ _ _ _) as [[[]|e] s2] eqn:H2; simpl.
    + erewrite associations_eq; [apply associations_cleared|].
      rewrite through_saved_recipe. by eapply Hfinal_tags.
    + erewrite associations_eq; [apply associations_cleared|]. by eapply Hfinal_tags.
  - intros Htags. rewrite Htags in H1. apply attr_phase_absent in H1 as ->.
    destruct r1 as [[]|e]; [|done].
    destruct (attr_phase Ingredient _ _ _ _) as [[[]|e] s2] eqn:H2; simpl.
    + change (Orm.through Tag (Orm.saved_recipe (RecipeSerializer.setattrs instance vd) s2)
              = Orm.through Tag s).
      rewrite through_saved_recipe. by eapply Hfinal_tags.
    + change (Orm.through Tag s2 = Orm.through Tag s). by eapply Hfinal_tags.
  - intros Hings. destruct r1 as [[]|e].
    + rewrite Hings, attr_phase_empty. simpl. split; [|split; [|done]].
      * split; [intros _; by eapply attr_phase_ok_unambiguous|done].
      * intros _. erewrite associations_eq; [apply associations_cleared|].
        by rewrite through_saved_recipe.
    + simpl. split; [|split; [done|]].
      * split; [done|]. intros Hun. destruct (Hret Hun) as [s' Hs']. congruence.
      * intros _. apply attr_phase_raises in H1 as ->. split; [done|].
        change (Orm.through Ingredient s1 = Orm.through Ingredient s). exact Hi1.
  - intros Hings. rewrite Hings.
    change (recipe_ingredients s) with (Orm.through Ingredient s). rewrite <- Hi1.
    destruct r1 as [[]|e]; [|done]. simpl.
    change (Orm.through Ingredient
              (Orm.saved_recipe (RecipeSerializer.setattrs instance vd) s1)
            = Orm.through Ingredient s1).
    by rewrite through_saved_recipe.
Qed.

Lemma update_clears_or_keeps_associations_witness :
  associations Tag 2
    (RecipeSerializer.update 1 (sample_recipe 2 1 "Tahini") clear_tags_data sample_db).2
    = [] /\
  recipe_ingredients
    (RecipeSerializer.update 1 (sample_recipe 2 1 "Tahini") clear_tags_data sample_db).2
    = recipe_ingredients sample_db /\
  recipe_tags
    (RecipeSerializer.update 1 (sample_recipe 1 1 "Curry") clear_ingredients_data
       sample_db).2 = recipe_tags sample_db /\
  associations Ingredient 1
    (RecipeSerializer.update 1 (sample_recipe 1 1 "Curry") clear_ingredients_data
       sample_db).2 = [] /\
  recipe_ingredients
    (RecipeSerializer.update 1 (sample_recipe 1 1 "Curry") vegan_no_ingredients_data
       renamed_db).2 = recipe_ingredients renamed_db.
Proof.
  pose proof (update_clears_or_keeps_associations 1 (sample_recipe 2 1 "Tahini")
                clear_tags_data sample_db) as (H1 & _ & _ & H4).
  pose proof (update_clears_or_keeps_associations 1 (sample_recipe 1 1 "Curry")
                clear_ingredients_data sample_db) as (_ & H2 & H3 & _).
  pose proof (update_clears_or_keeps_associations 1 (sample_recipe 1 1 "Curry")
                vegan_no_ingredients_data renamed_db) as (_ & _ & H5 & _).
  split; [apply H1; reflexivity|].
  split; [apply H4; reflexivity|].
  split; [apply H2; reflexivity|].
  split; [apply H3; reflexivity|].
  apply H5; reflexivity.
Defined.

(** C2 as stated fails: after user 1 renamed the tag Dessert to Vegan, a
    partial update of recipe 1 with the tags [Vegan] and the empty list
    of ingredients is answered 500, and recipe 1 keeps its ingredient. *)
Lemma ambiguous_tag_keeps_ingredients :
  TagViewSet rename_dessert sample_db =
    ({| data := AttrDetailData {| repr_id := 3; repr_name := "Vegan" |};
        status := HTTP_200_OK |}, renamed_db) /\
  v_ingredients vegan_no_ingredients_data = Some [] /\
  associations Ingredient 1 renamed_db = [(1, 1)] /\
  (RecipeViewSet.view
     (request 1 [] (RecipeViewSet.PatchDetail 1 (Valid vegan_no_ingredients_data)))
     renamed_db).1 =
    {| data := ErrorData; status := HTTP_500_INTERNAL_SERVER_ERROR |} /\
  associations Ingredient 1
    (RecipeViewSet.view
       (request 1 [] (RecipeViewSet.PatchDetail 1 (Valid vegan_no_ingredients_data)))
       renamed_db).2 = [(1, 1)].
Proof. repeat split. Qed.

(** ** Reuse of stored tags, creation of missing ones *)

(** C3, as the code has it: a [create] and an [update] return exactly
    when no tag or ingredient name of the payload is carried by several
    rows of the authenticated user, and otherwise raise
    [MultipleObjectsReturned]; when they return, for every name of the tag
    payload: a tag of the user with that name that was stored before is,
    afterwards, the only tag of the user with that name (no row was added
    for it) and is associated with the recipe; when no such tag was stored,
    there is afterwards exactly one, it is a new row, and it is associated
    with the recipe. *)
Theorem existing_tag_reused_missing_tag_created auth s :
  (forall user vd,
     (exists r s', RecipeSerializer.create auth user vd s = (Ok r, s')) <->
     unambiguous Tag auth (default [] (v_tags vd)) s /\
     unambiguous Ingredient auth (default [] (v_ingredients vd)) s) /\
  (forall instance vd,
     (exists r s', RecipeSerializer.update auth instance vd s = (Ok r, s')) <->
     unambiguous Tag auth (default [] (v_tags vd)) s /\
     unambiguous Ingredient auth (default [] (v_ingredients vd)) s) /\
  (forall user vd e s',
     RecipeSerializer.create auth user vd s = (Raise e, s') ->
     e = MultipleObjectsReturned) /\
  (forall instance vd e s',
     RecipeSerializer.update auth instance vd s = (Raise e, s') ->
     e = MultipleObjectsReturned) /\
  (forall n user vd r s',
     RecipeSerializer.create auth user vd s = (Ok r, s') ->
     {| item_name := n |} ∈ default [] (v_tags vd) ->
     reused_or_created Tag auth (Recipe.id r) n s s') /\
  (forall n instance vd tags r s',
     RecipeSerializer.update auth instance vd s = (Ok r, s') ->
     v_tags vd = Some tags ->
     {| item_name := n |} ∈ tags ->
     reused_or_created Tag auth (Recipe.id instance) n s s').
Proof.
  split; [|split; [|split; [|split; [|split]]]].
  - intros user vd. split.
    + intros (r & s' & Hrun). by eapply create_ok_unambiguous.
    + intros [Ht Hi]. by apply create_returns.
  - intros instance vd. split.
    + intros (r & s' & Hrun). by eapply update_ok_unambiguous.
    + intros [Ht Hi]. by apply update_returns.
  - intros user vd e s'. apply serializer_create_raises.
  - intros instance vd e s'. apply serializer_update_raises.
  - intros n. apply (reconciled_tags_reused_or_created auth n s).
  - intros n. apply (reconciled_tags_reused_or_created auth n s).
Qed.

Lemma existing_tag_reused_missing_tag_created_witness :
  reused_or_created Tag 1 4 "Vegan" sample_db
    (RecipeSerializer.create 1 1 dinner_breakfast_data sample_db).2 /\
  reused_or_created Tag 1 2 "Breakfast" sample_db
    (RecipeSerializer.update 1 (sample_recipe 2 1 "Tahini") dinner_breakfast_data
       sample_db).2 /\
  (exists r s', RecipeSerializer.create 1 1 dinner_breakfast_data sample_db = (Ok r, s')).
Proof.
  destruct (existing_tag_reused_missing_tag_created 1 sample_db)
    as (Hret & _ & _ & _ & Hcreate & Hupdate).
  split; [|split].
  - refine (Hcreate "Vegan"%string 1 dinner_breakfast_data
              (inserted_recipe 1 dinner_breakfast_data sample_db) _ _ _).
    + reflexivity.
    + left.
  - refine (Hupdate "Breakfast"%string (sample_recipe 2 1 "Tahini")
              dinner_breakfast_data _
              (RecipeSerializer.setattrs (sample_recipe 2 1 "Tahini")
                 dinner_breakfast_data) _ _ _ _).
    + reflexivity.
    + reflexivity.
    + right. left.
  - apply Hret. split.
    + intros item Hin. revert item Hin. apply Forall_forall. repeat constructor.
    + intros item Hin. revert item Hin. apply Forall_forall. repeat constructor.
Defined.

(** C3 as stated fails: after user 1 renamed the tag Dessert to Vegan,
    user 1 has tags named Vegan and none named Breakfast; a create with the
    tags [Vegan] and [Breakfast] is then answered 500; the recipe is stored
    with the next id, 4, and is associated with no tag, and no tag named
    Breakfast is created: the tag table is as it was. *)
Lemma ambiguous_tag_name_breaks_reuse :
  TagViewSet rename_dessert sample_db =
    ({| data := AttrDetailData {| repr_id := 3; repr_name := "Vegan" |};
        status := HTTP_200_OK |}, renamed_db) /\
  Orm.matching 1 "Vegan" (rows (tags renamed_db)) =
    [sample_attr 1 1 "Vegan"; sample_attr 3 1 "Vegan"] /\
  Orm.matching 1 "Breakfast" (rows (tags renamed_db)) = [] /\
  (RecipeViewSet.view
     (request 1 [] (RecipeViewSet.PostList (Valid dinner_breakfast_data)))
     renamed_db).1 =
    {| data := ErrorData; status := HTTP_500_INTERNAL_SERVER_ERROR |} /\
  Recipe.id <$>
    rows (recipes
            (RecipeViewSet.view
               (request 1 [] (RecipeViewSet.PostList (Valid dinner_breakfast_data)))
               renamed_db).2) = [1; 2; 3; 4] /\
  associations Tag 4
    (RecipeViewSet.view
       (request 1 [] (RecipeViewSet.PostList (Valid dinner_breakfast_data)))
       renamed_db).2 = [] /\
  tags
    (RecipeViewSet.view
       (request 1 [] (RecipeViewSet.PostList (Valid dinner_breakfast_data)))
       renamed_db).2 = tags renamed_db.
Proof. repeat split. Qed.

(** ** Repeated names in a payload *)













